(** * vibe-kanban: AI session persistence, rate limiting, settings and
      streaming adapters

    A shallow embedding of the TypeScript sources

    - [utils/aiSession]   (sessionStorage, rateLimiter),
    - [hooks/useAISessions.ts],
    - [hooks/useSettings] (encryptApiKey, decryptApiKey, loadSettings),
    - [services/aiClients] (OpenAIClient.streamMessage,
      OpenRouterClient.streamMessage),

    followed by the properties that the specification states about them.

    Conventions of the embedding.

    - A JavaScript string that is only stored and compared is a [string].
      A string whose single UTF-16 code units matter (an API key, the text
      handed to [btoa]/[atob]) is a [list N] of code units.
    - Token counts, message counts and clock readings (milliseconds) are
      integers; a cost is an exact rational [Qc].  IEEE rounding, NaN and
      the infinities are outside the model.
    - [localStorage] is a record with one field per key the program uses.
      An item is [Missing] (getItem gave null or the empty string, so the
      test [!stored] succeeds), [Garbled] (the code inside the enclosing
      [try] throws on it: JSON.parse rejects the text or the value has not
      the expected shape) or [Json v].  [JSON.parse (JSON.stringify v)] is
      [v] on the typed values; [localStorage.setItem] does not throw.
    - An operation that reads the clock or the random generator takes the
      value read as an argument.
    - The React hook is modelled between two renders: the closure values
      [sessions] and [activeSession] of a callback are the current state,
      and the queued state updaters run in the order they were queued. *)

From Stdlib Require Import ZArith NArith QArith Qcanon Lia Ascii String.
From stdpp Require Import base list strings gmap.

Set Default Goal Selector "!".

Ltac Zify.zify_post_hook ::= Z.to_euclidean_division_equations.

Open Scope N_scope.

(* ===================================================================== *)
(** * Part I: the embedding                                               *)
(* ===================================================================== *)

(** ** Browser built-ins [btoa] and [atob] (WHATWG forgiving-base64) *)

Module Base64.

(** The base64 alphabet: index 0..63 to code unit. *)
Definition b64_char (i : N) : N :=
  if i <? 26 then 65 + i            (* A-Z *)
  else if i <? 52 then 71 + i       (* a-z: 97 + (i - 26) *)
  else if i <? 62 then i - 4        (* 0-9: 48 + (i - 52) *)
  else if i =? 62 then 43           (* + *)
  else 47.                          (* / *)

Definition b64_index (c : N) : option N :=
  if (65 <=? c) && (c <=? 90) then Some (c - 65)
  else if (97 <=? c) && (c <=? 122) then Some (c - 71)
  else if (48 <=? c) && (c <=? 57) then Some (c + 4)
  else if c =? 43 then Some 62
  else if c =? 47 then Some 63
  else None.

Definition pad_char : N := 61.      (* = *)

(** Three bytes become four 6-bit groups; a tail of one or two bytes is
    completed with zero bits. *)
Fixpoint sextets (bytes : list N) : list N :=
  match bytes with
  | a :: b :: c :: rest =>
      a / 4 :: (a mod 4) * 16 + b / 16 :: (b mod 16) * 4 + c / 64
        :: c mod 64 :: sextets rest
  | [a; b] => [a / 4; (a mod 4) * 16 + b / 16; (b mod 16) * 4]
  | [a] => [a / 4; (a mod 4) * 16]
  | [] => []
  end.

Definition padding (n : nat) : list N :=
  match (n mod 3)%nat with
  | 1%nat => [pad_char; pad_char]
  | 2%nat => [pad_char]
  | _ => []
  end.

Definition base64_encode (bytes : list N) : list N :=
  map b64_char (sextets bytes) ++ padding (length bytes).

(** [btoa]: throws InvalidCharacterError (here [None]) when a code unit
    is above U+00FF. *)
Definition btoa (data : list N) : option (list N) :=
  if forallb (fun c => c <=? 255) data then Some (base64_encode data)
  else None.

Definition is_ascii_whitespace (c : N) : bool :=
  (c =? 9) || (c =? 10) || (c =? 12) || (c =? 13) || (c =? 32).

(** Step 2 of forgiving-base64 decode: when the length is a multiple of
    four, one or two trailing [=] are removed. *)
Definition strip_padding (d : list N) : list N :=
  if (length d mod 4 =? 0)%nat then
    match rev d with
    | 61 :: 61 :: r => rev r
    | 61 :: r => rev r
    | _ => d
    end
  else d.

Fixpoint indices (d : list N) : option (list N) :=
  match d with
  | [] => Some []
  | c :: r =>
      match b64_index c, indices r with
      | Some i, Some r' => Some (i :: r')
      | _, _ => None
      end
  end.

(** Four 6-bit groups give three bytes; of a tail of two groups the last
    four bits are dropped, of a tail of three the last two. *)
Fixpoint bytes_of_sextets (s : list N) : list N :=
  match s with
  | s1 :: s2 :: s3 :: s4 :: rest =>
      s1 * 4 + s2 / 16 :: (s2 mod 16) * 16 + s3 / 4 :: (s3 mod 4) * 64 + s4
        :: bytes_of_sextets rest
  | [s1; s2; s3] => [s1 * 4 + s2 / 16; (s2 mod 16) * 16 + s3 / 4]
  | [s1; s2] => [s1 * 4 + s2 / 16]
  | _ => []
  end.

(** [atob]: throws (here [None]) on a length of 4k+1 after the padding
    is removed and on a character outside the alphabet. *)
Definition atob (data : list N) : option (list N) :=
  let d := strip_padding (List.filter (fun c => negb (is_ascii_whitespace c)) data) in
  if (length d mod 4 =? 1)%nat then None
  else option_map bytes_of_sextets (indices d).

End Base64.

(** ** hooks/useSettings: the credential transform *)

Module Credentials.
Import Base64.

(** [encryptApiKey]: [None] stands for the exception that [btoa] throws
    and the function does not catch. *)
Definition encryptApiKey (key : list N) : option (list N) :=
  match key with
  | [] => Some []
  | _ => option_map (@rev N) (btoa key)
  end.

(** [decryptApiKey]: the [catch] turns a throwing [atob] into ''. *)
Definition decryptApiKey (encryptedKey : list N) : list N :=
  match encryptedKey with
  | [] => []
  | _ => match atob (rev encryptedKey) with
         | Some s => s
         | None => []
         end
  end.

End Credentials.

(** ** types/ai.ts *)

Inductive AIServiceType := openAI | claudeCode | openRouter | aider.

Global Instance AIServiceType_eq_dec : EqDecision AIServiceType.
Proof. solve_decision. Defined.

Inductive Role := user | assistant | system.

(** [AIMessage['metadata']]: every field is optional. *)
Record MessageMetadata := {
  tokens : option Z;
  model : option string;
  cost : option Qc;
  processingTime : option Z;
}.

Module AIMessage.
Record t := {
  id : string;
  role : Role;
  content : string;
  timestamp : Z;
  metadata : option MessageMetadata;
}.
End AIMessage.

(** [AISession['metadata']]. *)
Record SessionMetadata := {
  totalTokens : Z;
  totalCost : Qc;
  messageCount : nat;
  lastActivity : Z;
}.

(** [AISession].  The type [M] is how the metadata object is held: by value
    in a JSON document ([M := SessionMetadata]), by reference in the memory
    of the hook ([M := nat], an address in its heap of metadata objects). *)
Module AISession.
Record t (M : Type) := {
  id : string;
  title : string;
  projectId : string;
  service : AIServiceType;
  model : option string;
  messages : list AIMessage.t;
  createdAt : Z;
  updatedAt : Z;
  isActive : bool;
  metadata : option M;
}.
Arguments id {M}. Arguments title {M}. Arguments projectId {M}.
Arguments service {M}. Arguments model {M}. Arguments messages {M}.
Arguments createdAt {M}. Arguments updatedAt {M}. Arguments isActive {M}.
Arguments metadata {M}. Arguments Build_t {M}.

(** [{ ...s, title }] *)
Definition with_title {M} (s : t M) (title' : string) : t M :=
  {| id := id s; title := title'; projectId := projectId s;
     service := service s; model := model s; messages := messages s;
     createdAt := createdAt s; updatedAt := updatedAt s;
     isActive := isActive s; metadata := metadata s |}.

(** [{ ...s, messages: [...s.messages, message], updatedAt: now }] *)
Definition with_message {M} (s : t M) (message : AIMessage.t) (now : Z) : t M :=
  {| id := id s; title := title s; projectId := projectId s;
     service := service s; model := model s;
     messages := messages s ++ [message];
     createdAt := createdAt s; updatedAt := now;
     isActive := isActive s; metadata := metadata s |}.

(** The same session with another representation of its metadata. *)
Definition with_metadata {M M'} (s : t M) (md : option M') : t M' :=
  {| id := id s; title := title s; projectId := projectId s;
     service := service s; model := model s; messages := messages s;
     createdAt := createdAt s; updatedAt := updatedAt s;
     isActive := isActive s; metadata := md |}.

(** [Partial<AISession>]: the keys that are present. *)
Record partial (M : Type) := {
  p_id : option string;
  p_title : option string;
  p_projectId : option string;
  p_service : option AIServiceType;
  p_model : option string;
  p_messages : option (list AIMessage.t);
  p_createdAt : option Z;
  p_isActive : option bool;
  p_metadata : option M;
}.
Arguments p_id {M}. Arguments p_title {M}. Arguments p_projectId {M}.
Arguments p_service {M}. Arguments p_model {M}. Arguments p_messages {M}.
Arguments p_createdAt {M}. Arguments p_isActive {M}.
Arguments p_metadata {M}. Arguments Build_partial {M}.

(** [{ ...s, ...updates, updatedAt: now }] *)
Definition with_updates {M} (s : t M) (updates : partial M) (now : Z) : t M :=
  {| id := default (id s) (p_id updates);
     title := default (title s) (p_title updates);
     projectId := default (projectId s) (p_projectId updates);
     service := default (service s) (p_service updates);
     model := match p_model updates with Some m => Some m | None => model s end;
     messages := default (messages s) (p_messages updates);
     createdAt := default (createdAt s) (p_createdAt updates);
     updatedAt := now;
     isActive := default (isActive s) (p_isActive updates);
     metadata := match p_metadata updates with
                 | Some m => Some m
                 | None => metadata s
                 end |}.

(** [{ title }] *)
Definition only_title {M} (title' : string) : partial M :=
  {| p_id := None; p_title := Some title'; p_projectId := None;
     p_service := None; p_model := None; p_messages := None;
     p_createdAt := None; p_isActive := None; p_metadata := None |}.
End AISession.

(** A session as it stands in a JSON document. *)
Abbreviation StoredSession := (AISession.t SessionMetadata).

(** ** types/settings.ts *)

Module settings.

Inductive Theme := light | dark | system.

Record AIServiceConfig := {
  name : string;
  apiKey : list N;
  baseUrl : option string;
  enabled : bool;
}.

(** The value of [defaultAIService] in DEFAULT_SETTINGS, named before the
    fields of [AIServices] take the names of the vendor tags. *)
Definition default_service : AIServiceType := openAI.

Record AIServices := {
  aider : AIServiceConfig;
  claudeCode : AIServiceConfig;
  openRouter : AIServiceConfig;
  openAI : AIServiceConfig;
}.

Record AppSettings := {
  theme : Theme;
  aiServices : AIServices;
  defaultAIService : AIServiceType;
  autoSave : bool;
  autoSaveInterval : Z;
  compactMode : bool;
  showTaskCount : bool;
  enableAnimations : bool;
  enableAutoBackup : bool;
  backupInterval : Z;
  maxBackups : Z;
  sessionTimeout : Z;
  enableSessionHistory : bool;
  maxSessionHistory : Z;
}.

Definition DEFAULT_SETTINGS : AppSettings :=
  {| theme := system;
     aiServices :=
       {| aider := {| name := "Aider"; apiKey := []; baseUrl := None;
                      enabled := false |};
          claudeCode := {| name := "Claude Code"; apiKey := [];
                           baseUrl := None; enabled := false |};
          openRouter := {| name := "OpenRouter"; apiKey := [];
                           baseUrl := Some "https://openrouter.ai/api/v1";
                           enabled := false |};
          openAI := {| name := "OpenAI"; apiKey := [];
                       baseUrl := Some "https://api.openai.com/v1";
                       enabled := false |} |};
     defaultAIService := default_service;
     autoSave := true;
     autoSaveInterval := 30;
     compactMode := false;
     showTaskCount := true;
     enableAnimations := true;
     enableAutoBackup := true;
     backupInterval := 5;
     maxBackups := 10;
     sessionTimeout := 60;
     enableSessionHistory := true;
     maxSessionHistory := 50 |}.

(** A settings document as JSON.parse returns it: the keys that are
    present, each with a value of its type. *)
Record document := {
  d_theme : option Theme;
  d_aiServices : option AIServices;
  d_defaultAIService : option AIServiceType;
  d_autoSave : option bool;
  d_autoSaveInterval : option Z;
  d_compactMode : option bool;
  d_showTaskCount : option bool;
  d_enableAnimations : option bool;
  d_enableAutoBackup : option bool;
  d_backupInterval : option Z;
  d_maxBackups : option Z;
  d_sessionTimeout : option Z;
  d_enableSessionHistory : option bool;
  d_maxSessionHistory : option Z;
}.

(** [{ ...base, ...doc }] *)
Definition spread (base : AppSettings) (doc : document) : AppSettings :=
  {| theme := default (theme base) (d_theme doc);
     aiServices := default (aiServices base) (d_aiServices doc);
     defaultAIService := default (defaultAIService base) (d_defaultAIService doc);
     autoSave := default (autoSave base) (d_autoSave doc);
     autoSaveInterval := default (autoSaveInterval base) (d_autoSaveInterval doc);
     compactMode := default (compactMode base) (d_compactMode doc);
     showTaskCount := default (showTaskCount base) (d_showTaskCount doc);
     enableAnimations := default (enableAnimations base) (d_enableAnimations doc);
     enableAutoBackup := default (enableAutoBackup base) (d_enableAutoBackup doc);
     backupInterval := default (backupInterval base) (d_backupInterval doc);
     maxBackups := default (maxBackups base) (d_maxBackups doc);
     sessionTimeout := default (sessionTimeout base) (d_sessionTimeout doc);
     enableSessionHistory :=
       default (enableSessionHistory base) (d_enableSessionHistory doc);
     maxSessionHistory := default (maxSessionHistory base) (d_maxSessionHistory doc) |}.

(** A document with another [aiServices] value. *)
Definition with_services (doc : document) (services : AIServices) : document :=
  {| d_theme := d_theme doc;
     d_aiServices := Some services;
     d_defaultAIService := d_defaultAIService doc;
     d_autoSave := d_autoSave doc;
     d_autoSaveInterval := d_autoSaveInterval doc;
     d_compactMode := d_compactMode doc;
     d_showTaskCount := d_showTaskCount doc;
     d_enableAnimations := d_enableAnimations doc;
     d_enableAutoBackup := d_enableAutoBackup doc;
     d_backupInterval := d_backupInterval doc;
     d_maxBackups := d_maxBackups doc;
     d_sessionTimeout := d_sessionTimeout doc;
     d_enableSessionHistory := d_enableSessionHistory doc;
     d_maxSessionHistory := d_maxSessionHistory doc |}.

End settings.

(** ** The browser's [localStorage] *)

Inductive item (A : Type) :=
| Missing          (* getItem: null or '', so that [!stored] holds *)
| Garbled          (* the code of the enclosing [try] throws on it *)
| Json (v : A).    (* the text of JSON.stringify v *)
Arguments Missing {A}. Arguments Garbled {A}. Arguments Json {A}.

(** The value written by the rate limiter under [ai_rate_limit_<service>]. *)
Record RateData := {
  requests : list Z;
  lastReset : Z;
}.

Record localStorage := {
  ls_sessions : item (list StoredSession);   (* 'vibe-kanban-ai-sessions' *)
  ls_active : item (gmap string string);     (* 'vibe-kanban-active-ai-session' *)
  ls_rate : AIServiceType -> item RateData;  (* 'ai_rate_limit_' + service *)
  ls_settings : item settings.document;      (* 'vibe-kanban-settings' *)
}.

Definition set_sessions (ls : localStorage) (v : item (list StoredSession)) :=
  {| ls_sessions := v; ls_active := ls_active ls; ls_rate := ls_rate ls;
     ls_settings := ls_settings ls |}.

Definition set_active (ls : localStorage) (v : item (gmap string string)) :=
  {| ls_sessions := ls_sessions ls; ls_active := v; ls_rate := ls_rate ls;
     ls_settings := ls_settings ls |}.

Definition set_rate (ls : localStorage) (service : AIServiceType)
    (v : item RateData) :=
  {| ls_sessions := ls_sessions ls; ls_active := ls_active ls;
     ls_rate := fun s => if decide (s = service) then v else ls_rate ls s;
     ls_settings := ls_settings ls |}.

(** ** utils/aiSession *)

(** JavaScript truthiness of an optional number: [undefined] and 0 are
    falsy. *)
Definition truthyZ (x : option Z) : bool :=
  match x with Some z => negb (z =? 0)%Z | None => false end.

Definition truthyQc (x : option Qc) : bool :=
  match x with Some q => negb (Qc_eq_bool q 0) | None => false end.

(** [message.metadata?.tokens] and [message.metadata?.cost] *)
Definition message_tokens (message : AIMessage.t) : option Z :=
  match AIMessage.metadata message with Some md => tokens md | None => None end.

Definition message_cost (message : AIMessage.t) : option Qc :=
  match AIMessage.metadata message with Some md => cost md | None => None end.

(** The block under the comment "Update metadata", which the source writes
    out three times (sessionStorage.addMessage and the two state updaters
    of the hook's addMessage): the assignments made to a metadata object
    [md] of a session that now has [len] messages. *)
Definition update_metadata (md : SessionMetadata) (len : nat) (now : Z)
    (message : AIMessage.t) : SessionMetadata :=
  {| messageCount := len;
     lastActivity := now;
     totalTokens :=
       if truthyZ (message_tokens message)
       then (totalTokens md + default 0 (message_tokens message))%Z
       else totalTokens md;
     totalCost :=
       if truthyQc (message_cost message)
       then (totalCost md + default 0 (message_cost message))%Qc
       else totalCost md |}.

(** [createAISession]; [sessionId] is what generateSessionId returned and
    [localeString] what [new Date().toLocaleString()] returned. *)
Definition createAISession {M} (projectId : string) (service : AIServiceType)
    (title : option string) (sessionId : string) (now : Z)
    (localeString : string) (md : M) : AISession.t M :=
  {| AISession.id := sessionId;
     AISession.title :=
       match title with
       | Some t => if decide (t = "") then "AI Session " +:+ localeString else t
       | None => "AI Session " +:+ localeString
       end;
     AISession.projectId := projectId;
     AISession.service := service;
     AISession.model := None;
     AISession.messages := [];
     AISession.createdAt := now;
     AISession.updatedAt := now;
     AISession.isActive := true;
     AISession.metadata := Some md |}.

(** The metadata object of a new session. *)
Definition new_metadata (now : Z) : SessionMetadata :=
  {| totalTokens := 0; totalCost := 0; messageCount := 0; lastActivity := now |}.

(** [allSessions.findIndex(s => s.id === sessionId)] *)
Fixpoint findIndex {M} (sessionId : string) (l : list (AISession.t M)) : option nat :=
  match l with
  | [] => None
  | s :: r => if decide (AISession.id s = sessionId) then Some 0%nat
              else option_map S (findIndex sessionId r)
  end.

(** [sessions.find(s => s.id === sessionId)] *)
Fixpoint find_session {M} (sessionId : string) (l : list (AISession.t M))
    : option (AISession.t M) :=
  match l with
  | [] => None
  | s :: r => if decide (AISession.id s = sessionId) then Some s
              else find_session sessionId r
  end.

Module sessionStorage.

(** [getSessions]: the revival of the dates is the identity on clock
    readings. *)
Definition getSessions (projectId : string) (ls : localStorage)
    : list StoredSession :=
  match ls_sessions ls with
  | Json allSessions =>
      List.filter (fun s => bool_decide (AISession.projectId s = projectId))
        allSessions
  | _ => []
  end.

Definition saveSessions (projectId : string) (sessions : list StoredSession)
    (ls : localStorage) : bool * localStorage :=
  match ls_sessions ls with
  | Garbled => (false, ls)
  | Missing => (true, set_sessions ls (Json ([] ++ sessions)))
  | Json allSessions =>
      (true,
       set_sessions ls
         (Json (List.filter
                  (fun s => negb (bool_decide (AISession.projectId s = projectId)))
                  allSessions ++ sessions)))
  end.

Definition getSession (sessionId : string) (ls : localStorage)
    : option StoredSession :=
  match ls_sessions ls with
  | Json allSessions => find_session sessionId allSessions
  | _ => None
  end.

Definition updateSession (sessionId : string)
    (updates : AISession.partial SessionMetadata) (now : Z)
    (ls : localStorage) : bool * localStorage :=
  match ls_sessions ls with
  | Missing => (false, ls)
  | Garbled => (false, ls)
  | Json allSessions =>
      match findIndex sessionId allSessions with
      | None => (false, ls)
      | Some sessionIndex =>
          match allSessions !! sessionIndex with
          | Some s =>
              (true,
               set_sessions ls
                 (Json (<[sessionIndex := AISession.with_updates s updates now]>
                          allSessions)))
          | None => (false, ls)
          end
      end
  end.

Definition deleteSession (sessionId : string) (ls : localStorage)
    : bool * localStorage :=
  match ls_sessions ls with
  | Missing => (false, ls)
  | Garbled => (false, ls)
  | Json allSessions =>
      (true,
       set_sessions ls
         (Json (List.filter
                  (fun s => negb (bool_decide (AISession.id s = sessionId)))
                  allSessions)))
  end.

(** What addMessage makes of the session it found. *)
Definition pushed (session : StoredSession) (message : AIMessage.t) (now : Z)
    : StoredSession :=
  let session' := AISession.with_message session message now in
  match AISession.metadata session with
  | Some md =>
      AISession.with_metadata session'
        (Some (update_metadata md (length (AISession.messages session'))
                 now message))
  | None => session'
  end.

Definition addMessage (sessionId : string) (message : AIMessage.t) (now : Z)
    (ls : localStorage) : bool * localStorage :=
  match ls_sessions ls with
  | Missing => (false, ls)
  | Garbled => (false, ls)
  | Json allSessions =>
      match findIndex sessionId allSessions with
      | None => (false, ls)
      | Some sessionIndex =>
          match allSessions !! sessionIndex with
          | Some session =>
              (true,
               set_sessions ls
                 (Json (<[sessionIndex := pushed session message now]>
                          allSessions)))
          | None => (false, ls)
          end
      end
  end.

Definition getActiveSession (projectId : string) (ls : localStorage)
    : option string :=
  match ls_active ls with
  | Json activeSessionMap =>
      match activeSessionMap !! projectId with
      | Some sid => if decide (sid = "") then None else Some sid
      | None => None
      end
  | _ => None
  end.

Definition setActiveSession (projectId sessionId : string)
    (ls : localStorage) : bool * localStorage :=
  match ls_active ls with
  | Garbled => (false, ls)
  | Missing => (true, set_active ls (Json (<[projectId := sessionId]> ∅)))
  | Json activeSessionMap =>
      (true, set_active ls (Json (<[projectId := sessionId]> activeSessionMap)))
  end.

Definition clearActiveSession (projectId : string) (ls : localStorage)
    : bool * localStorage :=
  match ls_active ls with
  | Missing => (true, ls)
  | Garbled => (false, ls)
  | Json activeSessionMap =>
      (true, set_active ls (Json (delete projectId activeSessionMap)))
  end.

End sessionStorage.

Module rateLimiter.

(** [canMakeRequest]; [now] is the value of [Date.now()]. *)
Definition canMakeRequest (service : AIServiceType) (now : Z)
    (ls : localStorage) : bool * localStorage :=
  match ls_rate ls service with
  | Missing =>
      (true,
       set_rate ls service (Json {| requests := [now]; lastReset := now |}))
  | Garbled => (true, ls)                      (* allow request on error *)
  | Json data =>
      let oneMinuteAgo := (now - 60 * 1000)%Z in
      let recent :=
        List.filter (fun timestamp => (oneMinuteAgo <? timestamp)%Z)
          (requests data) in
      if (60 <=? length recent)%nat then (false, ls)
      else
        (true,
         set_rate ls service
           (Json {| requests := recent ++ [now];
                    lastReset := lastReset data |}))
  end.

(** [getRemainingRequests]; the storage is threaded through like in
    [canMakeRequest]. *)
Definition getRemainingRequests (service : AIServiceType) (now : Z)
    (ls : localStorage) : Z * localStorage :=
  match ls_rate ls service with
  | Missing => (60%Z, ls)
  | Garbled => (60%Z, ls)
  | Json data =>
      let oneMinuteAgo := (now - 60 * 1000)%Z in
      let recentRequests :=
        List.filter (fun timestamp => (oneMinuteAgo <? timestamp)%Z)
          (requests data) in
      (Z.max 0 (60 - Z.of_nat (length recentRequests)), ls)
  end.

End rateLimiter.

(** ** hooks/useAISessions.ts *)

Module useAISessions.

(** A session object in memory refers to its metadata object by address:
    the spread [{ ...session }] copies the reference, and the assignments
    to [updatedSession.metadata.messageCount] and its neighbours write
    through it. *)
Abbreviation SessionObj := (AISession.t nat).

Record state := {
  sessions : list SessionObj;
  activeSession : option SessionObj;
  isLoading : bool;
  error : option string;
  heap : list SessionMetadata;        (* the metadata objects *)
  storage : localStorage;
}.

(** The JSON value of a session object: what JSON.stringify writes and
    what a reader of the object sees. *)
Definition view (h : list SessionMetadata) (s : SessionObj) : StoredSession :=
  AISession.with_metadata s
    (match AISession.metadata s with Some a => h !! a | None => None end).

(** A value that enters the memory (JSON.parse, response.json,
    createAISession): its metadata object is new. *)
Definition alloc (s : StoredSession) (h : list SessionMetadata)
    : SessionObj * list SessionMetadata :=
  match AISession.metadata s with
  | Some md => (AISession.with_metadata s (Some (length h)), h ++ [md])
  | None => (AISession.with_metadata s None, h)
  end.

Fixpoint alloc_all (l : list StoredSession) (h : list SessionMetadata)
    : list SessionObj * list SessionMetadata :=
  match l with
  | [] => ([], h)
  | s :: r =>
      let (s', h1) := alloc s h in
      let (r', h2) := alloc_all r h1 in
      (s' :: r', h2)
  end.

(** The body shared by the two state updaters of [addMessage]: the copy
    [updatedSession] with the message appended, and the writes to the
    metadata object it shares with the session it was copied from. *)
Definition appended (s : SessionObj) (message : AIMessage.t) (now : Z)
    (h : list SessionMetadata) : SessionObj * list SessionMetadata :=
  let updatedSession := AISession.with_message s message now in
  match AISession.metadata updatedSession with
  | Some a =>
      match h !! a with
      | Some md =>
          (updatedSession,
           <[a := update_metadata md
                    (length (AISession.messages updatedSession)) now message]> h)
      | None => (updatedSession, h)     (* no object at [a]: does not arise *)
      end
  | None => (updatedSession, h)
  end.

(** [prev.map(session => session.id === sessionId ? ... : session)] of
    [addMessage], left to right. *)
Fixpoint map_appended (sessionId : string) (message : AIMessage.t) (now : Z)
    (prev : list SessionObj) (h : list SessionMetadata)
    : list SessionObj * list SessionMetadata :=
  match prev with
  | [] => ([], h)
  | session :: rest =>
      if decide (AISession.id session = sessionId) then
        let (updatedSession, h1) := appended session message now h in
        let (rest', h2) := map_appended sessionId message now rest h1 in
        (updatedSession :: rest', h2)
      else
        let (rest', h2) := map_appended sessionId message now rest h in
        (session :: rest', h2)
  end.

(** The answer of the remote mirror to [GET /api/ai/sessions]: [Ok] when
    the response is ok and its body is an array of sessions; anything
    else (a rejected fetch, another status, another body) leaves the
    inner [try] without effect. *)
Inductive fetched :=
| Unavailable
| Ok (backendSessions : list StoredSession).

Section Hook.
Variable projectId : string.

(** [loadSessions] *)
Definition loadSessions (response : fetched) (st : state) : state :=
  let ls := storage st in
  let (localSessions, h1) :=
    alloc_all (sessionStorage.getSessions projectId ls) (heap st) in
  let (active1, h2) :=
    match sessionStorage.getActiveSession projectId ls with
    | Some activeSessionId =>
        match sessionStorage.getSession activeSessionId ls with
        | Some activeSessionData =>
            let (a, h) := alloc activeSessionData h1 in (Some a, h)
        | None => (None, h1)
        end
    | None => (activeSession st, h1)
    end in
  match response with
  | Ok backendValues =>
      let (backendSessions, h3) := alloc_all backendValues h2 in
      let mergedSessions :=
        backendSessions
        ++ List.filter
             (fun localSession =>
                negb (bool_decide
                        (is_Some (find_session (AISession.id localSession)
                                    backendSessions))))
             localSessions in
      {| sessions := mergedSessions; activeSession := active1;
         isLoading := false; error := None; heap := h3;
         storage :=
           snd (sessionStorage.saveSessions projectId
                  (map (view h3) mergedSessions) ls) |}
  | Unavailable =>
      {| sessions := localSessions; activeSession := active1;
         isLoading := false; error := None; heap := h2; storage := ls |}
  end.

(** [createSession]; the last three arguments are what
    generateSessionId, the clock and toLocaleString gave. *)
Definition createSession (service : AIServiceType) (title : option string)
    (sessionId : string) (now : Z) (localeString : string) (st : state)
    : option SessionObj * state :=
  let newSession :=
    createAISession projectId service title sessionId now localeString
      (length (heap st)) in
  let h := heap st ++ [new_metadata now] in
  let updatedSessions := sessions st ++ [newSession] in
  let ls1 :=
    snd (sessionStorage.saveSessions projectId
           (map (view h) updatedSessions) (storage st)) in
  let ls2 :=
    snd (sessionStorage.setActiveSession projectId
           (AISession.id newSession) ls1) in
  (Some newSession,
   {| sessions := updatedSessions; activeSession := Some newSession;
      isLoading := isLoading st; error := None; heap := h;
      storage := ls2 |}).

(** [switchSession] *)
Definition switchSession (sessionId : string) (st : state) : bool * state :=
  match find_session sessionId (sessions st) with
  | None =>
      (false,
       {| sessions := sessions st; activeSession := activeSession st;
          isLoading := isLoading st; error := Some "Session not found";
          heap := heap st; storage := storage st |})
  | Some session =>
      (true,
       {| sessions := sessions st; activeSession := Some session;
          isLoading := isLoading st; error := None; heap := heap st;
          storage :=
            snd (sessionStorage.setActiveSession projectId sessionId
                   (storage st)) |})
  end.

(** [deleteSession] *)
Definition deleteSession (sessionId : string) (st : state) : bool * state :=
  let updatedSessions :=
    List.filter (fun s => negb (bool_decide (AISession.id s = sessionId)))
      (sessions st) in
  let ls1 :=
    snd (sessionStorage.saveSessions projectId
           (map (view (heap st)) updatedSessions) (storage st)) in
  let (active', ls2) :=
    match activeSession st with
    | Some a =>
        if decide (AISession.id a = sessionId)
        then (None, snd (sessionStorage.clearActiveSession projectId ls1))
        else (Some a, ls1)
    | None => (None, ls1)
    end in
  let ls3 := snd (sessionStorage.deleteSession sessionId ls2) in
  (true,
   {| sessions := updatedSessions; activeSession := active';
      isLoading := isLoading st; error := None; heap := heap st;
      storage := ls3 |}).

(** [updateSessionTitle] *)
Definition updateSessionTitle (sessionId title : string) (now : Z)
    (st : state) : bool * state :=
  let (success, ls1) :=
    sessionStorage.updateSession sessionId (AISession.only_title title)
      now (storage st) in
  if negb success then
    (false,
     {| sessions := sessions st; activeSession := activeSession st;
        isLoading := isLoading st;
        error := Some "Failed to update session title";
        heap := heap st; storage := ls1 |})
  else
    (true,
     {| sessions :=
          map (fun session =>
                 if decide (AISession.id session = sessionId)
                 then AISession.with_title session title else session)
            (sessions st);
        activeSession :=
          match activeSession st with
          | Some prev =>
              if decide (AISession.id prev = sessionId)
              then Some (AISession.with_title prev title) else Some prev
          | None => None
          end;
        isLoading := isLoading st; error := None; heap := heap st;
        storage := ls1 |}).

(** [addMessage] *)
Definition addMessage (sessionId : string) (message : AIMessage.t)
    (now : Z) (st : state) : bool * state :=
  let (success, ls1) :=
    sessionStorage.addMessage sessionId message now (storage st) in
  if negb success then
    (false,
     {| sessions := sessions st; activeSession := activeSession st;
        isLoading := isLoading st;
        error := Some "Failed to add message to session";
        heap := heap st; storage := ls1 |})
  else
    let (sessions', h1) :=
      map_appended sessionId message now (sessions st) (heap st) in
    let (active', h2) :=
      match activeSession st with
      | Some prev =>
          if decide (AISession.id prev = sessionId) then
            let (updatedSession, h) := appended prev message now h1 in
            (Some updatedSession, h)
          else (Some prev, h1)
      | None => (None, h1)
      end in
    (true,
     {| sessions := sessions'; activeSession := active';
        isLoading := isLoading st; error := None; heap := h2;
        storage := ls1 |}).

(** [getMessages] *)
Definition getMessages (sessionId : string) (st : state)
    : list AIMessage.t :=
  match find_session sessionId (sessions st) with
  | Some session => AISession.messages session
  | None => []
  end.

End Hook.

(** The state of the hook before its first effect runs, over a storage. *)
Definition initial (ls : localStorage) : state :=
  {| sessions := []; activeSession := None; isLoading := false;
     error := None; heap := []; storage := ls |}.

End useAISessions.

(** ** hooks/useSettings: loading and saving *)

Module useSettings.
Import settings.

(** The [apiKey] of a vendor block put through [f]. *)
Definition map_key (f : list N -> list N) (c : AIServiceConfig) : AIServiceConfig :=
  {| name := name c; apiKey := f (apiKey c); baseUrl := baseUrl c;
     enabled := enabled c |}.

(** The [aiServices] value built by [decryptSettings]. *)
Definition decryptServices (services : AIServices) : AIServices :=
  {| aider := map_key Credentials.decryptApiKey (aider services);
     claudeCode := map_key Credentials.decryptApiKey (claudeCode services);
     openRouter := map_key Credentials.decryptApiKey (openRouter services);
     openAI := map_key Credentials.decryptApiKey (openAI services) |}.

(** [decryptSettings] on a parsed document; [None] is the TypeError of
    reading [settings.aiServices.aider] when the document has no
    [aiServices]. *)
Definition decryptSettings (doc : document) : option document :=
  match d_aiServices doc with
  | Some services => Some (with_services doc (decryptServices services))
  | None => None
  end.

(** The state of the hook, the storage and the [dark] class of the
    document root. *)
Record state := {
  settings : AppSettings;
  isLoading : bool;
  error : option string;
  darkClass : bool;
  storage : localStorage;
}.

(** The answer of the remote mirror to [GET /api/settings]: [Ok] when the
    response is ok and its body parses; anything else leaves the inner
    [try] without effect. *)
Inductive fetched :=
| Unavailable
| Ok (backendSettings : document).

(** [applyTheme]: what [root.classList.toggle('dark', ...)] is called
    with; [prefersDark] is the answer of the media query. *)
Definition applyTheme (t : Theme) (prefersDark : bool) : bool :=
  match t with
  | system => prefersDark
  | dark => true
  | light => false
  end.

(** [loadSettings] *)
Definition loadSettings (response : fetched) (prefersDark : bool) (st : state)
    : state :=
  let localSettings := ls_settings (storage st) in
  let loaded1 :=
    match localSettings with
    | Json parsed =>
        match decryptSettings parsed with
        | Some decrypted => spread DEFAULT_SETTINGS decrypted
        | None => DEFAULT_SETTINGS         (* caught: using defaults *)
        end
    | Garbled => DEFAULT_SETTINGS          (* caught: using defaults *)
    | Missing => DEFAULT_SETTINGS
    end in
  let loadedSettings :=
    match response with
    | Ok backendSettings =>
        match decryptSettings backendSettings with
        | Some decrypted => spread loaded1 decrypted
        | None => loaded1                  (* caught *)
        end
    | Unavailable => loaded1
    end in
  {| settings := loadedSettings; isLoading := false; error := None;
     darkClass := applyTheme (theme loadedSettings) prefersDark;
     storage := storage st |}.

(** The state of the hook before its first effect runs. *)
Definition initial (ls : localStorage) (dark0 : bool) : state :=
  {| settings := DEFAULT_SETTINGS; isLoading := true; error := None;
     darkClass := dark0; storage := ls |}.

End useSettings.

(** ** hooks/useSettings: saving, updating, export and import *)

Module useSettingsSave.
Import settings.

(** The document that JSON.stringify makes of settings: every key. *)
Definition complete (s : AppSettings) : document :=
  {| d_theme := Some (theme s);
     d_aiServices := Some (aiServices s);
     d_defaultAIService := Some (defaultAIService s);
     d_autoSave := Some (autoSave s);
     d_autoSaveInterval := Some (autoSaveInterval s);
     d_compactMode := Some (compactMode s);
     d_showTaskCount := Some (showTaskCount s);
     d_enableAnimations := Some (enableAnimations s);
     d_enableAutoBackup := Some (enableAutoBackup s);
     d_backupInterval := Some (backupInterval s);
     d_maxBackups := Some (maxBackups s);
     d_sessionTimeout := Some (sessionTimeout s);
     d_enableSessionHistory := Some (enableSessionHistory s);
     d_maxSessionHistory := Some (maxSessionHistory s) |}.

(** A vendor block with its key put through [encryptApiKey]; [None] when
    that throws. *)
Definition encryptConfig (c : AIServiceConfig) : option AIServiceConfig :=
  match Credentials.encryptApiKey (apiKey c) with
  | Some k => Some (useSettings.map_key (fun _ => k) c)
  | None => None
  end.

(** [encryptSettings]: the four keys are encrypted in the order aider,
    claudeCode, openRouter, openAI; [None] is the exception of the first
    [encryptApiKey] that throws. *)
Definition encryptSettings (s : AppSettings) : option document :=
  match encryptConfig (aider (aiServices s)) with
  | None => None
  | Some a =>
      match encryptConfig (claudeCode (aiServices s)) with
      | None => None
      | Some c =>
          match encryptConfig (openRouter (aiServices s)) with
          | None => None
          | Some r =>
              match encryptConfig (openAI (aiServices s)) with
              | None => None
              | Some o =>
                  Some (with_services (complete s)
                          {| aider := a; claudeCode := c; openRouter := r;
                             openAI := o |})
              end
          end
      end
  end.

Definition set_settings (ls : localStorage) (v : item document) : localStorage :=
  {| ls_sessions := ls_sessions ls; ls_active := ls_active ls;
     ls_rate := ls_rate ls; ls_settings := v |}.

(** [saveSettings]: [None] is the Error it throws when [encryptSettings]
    threw; nothing is written then. *)
Definition saveSettings (newSettings : AppSettings) (prefersDark : bool)
    (st : useSettings.state) : option useSettings.state :=
  match encryptSettings newSettings with
  | Some encryptedSettings =>
      Some {| useSettings.settings := useSettings.settings st;
              useSettings.isLoading := useSettings.isLoading st;
              useSettings.error := useSettings.error st;
              useSettings.darkClass :=
                useSettings.applyTheme (theme newSettings) prefersDark;
              useSettings.storage :=
                set_settings (useSettings.storage st) (Json encryptedSettings) |}
  | None => None
  end.

Definition with_settings (st : useSettings.state) (s : AppSettings)
    : useSettings.state :=
  {| useSettings.settings := s;
     useSettings.isLoading := useSettings.isLoading st;
     useSettings.error := useSettings.error st;
     useSettings.darkClass := useSettings.darkClass st;
     useSettings.storage := useSettings.storage st |}.

Definition with_error (st : useSettings.state) (e : option string)
    : useSettings.state :=
  {| useSettings.settings := useSettings.settings st;
     useSettings.isLoading := useSettings.isLoading st;
     useSettings.error := e;
     useSettings.darkClass := useSettings.darkClass st;
     useSettings.storage := useSettings.storage st |}.

(** [updateSettings]: the boolean tells whether the promise resolves (true)
    or rejects (false); [thrown] is the message of the exception of [btoa]. *)
Definition updateSettings (updates : document) (prefersDark : bool)
    (thrown : string) (st : useSettings.state) : bool * useSettings.state :=
  let st0 := with_error st None in
  let newSettings := spread (useSettings.settings st0) updates in
  match saveSettings newSettings prefersDark st0 with
  | Some st1 => (true, with_settings st1 newSettings)
  | None => (false, with_error st0 (Some thrown))
  end.

(** [resetSettings] *)
Definition resetSettings (prefersDark : bool) (thrown : string)
    (st : useSettings.state) : bool * useSettings.state :=
  let st0 := with_error st None in
  match saveSettings DEFAULT_SETTINGS prefersDark st0 with
  | Some st1 => (true, with_settings st1 DEFAULT_SETTINGS)
  | None => (false, with_error st0 (Some thrown))
  end.

(** [exportSettings]: the JSON text of the settings in memory. *)
Definition exportSettings (st : useSettings.state) : item document :=
  Json (complete (useSettings.settings st)).

(** [importSettings]; the text is given as what JSON.parse makes of it, and
    [thrown] is the message of whichever exception is caught. *)
Definition importSettings (settingsJson : item document) (prefersDark : bool)
    (thrown : string) (st : useSettings.state) : bool * useSettings.state :=
  let st0 := with_error st None in
  match settingsJson with
  | Json importedSettings =>
      let validatedSettings := spread DEFAULT_SETTINGS importedSettings in
      match saveSettings validatedSettings prefersDark st0 with
      | Some st1 => (true, with_settings st1 validatedSettings)
      | None => (false, with_error st0 (Some thrown))
      end
  | _ => (false, with_error st0 (Some thrown))
  end.

End useSettingsSave.

(** ** hooks/useAI and services/aiClients: which vendors can be used *)

Module useAI.

(** [settings.aiServices[service]] *)
Definition config_of (s : settings.AppSettings) (service : AIServiceType)
    : settings.AIServiceConfig :=
  match service with
  | openAI => settings.openAI (settings.aiServices s)
  | claudeCode => settings.claudeCode (settings.aiServices s)
  | openRouter => settings.openRouter (settings.aiServices s)
  | aider => settings.aider (settings.aiServices s)
  end.

(** [!!apiKey]: a string is truthy when it is not empty. *)
Definition has_key (c : settings.AIServiceConfig) : bool :=
  match settings.apiKey c with [] => false | _ => true end.

(** [isConfigured] of the client that [createAIClient service settings]
    makes: the local daemon needs no key. *)
Definition isConfigured (service : AIServiceType) (s : settings.AppSettings)
    : bool :=
  match service with
  | aider => settings.enabled (config_of s aider)
  | _ => has_key (config_of s service) && settings.enabled (config_of s service)
  end.

(** [availableServices]: the entries of [settings.aiServices], in the
    order of its keys, that are enabled and have a key. *)
Definition availableServices (s : settings.AppSettings) : list AIServiceType :=
  List.filter
    (fun service =>
       settings.enabled (config_of s service) && has_key (config_of s service))
    [aider; claudeCode; openRouter; openAI].

(** The effect that follows the settings: the service it sets, if any. *)
Definition followed_service (s : settings.AppSettings) : option AIServiceType :=
  if bool_decide (settings.defaultAIService s ∈ availableServices s)
  then Some (settings.defaultAIService s)
  else match availableServices s with
       | first :: _ => Some first
       | [] => None
       end.

End useAI.

(** ** services/aiClients: the streaming adapters *)

Local Unset Elimination Schemes.

(** A value made by [JSON.parse]; an object lists its keys once. *)
Inductive json :=
| JNull
| JBool (b : bool)
| JNumber (q : Q)
| JString (s : string)
| JArray (items : list json)
| JObject (fields : list (string * json)).

Local Set Elimination Schemes.

Module aiClients.

(** [v.key] for the keys read here, on a value that is neither null nor
    undefined; [None] is undefined. *)
Definition prop (v : json) (key : string) : option json :=
  match v with
  | JObject fields => snd <$> List.find (fun kv => String.eqb (fst kv) key) fields
  | _ => None
  end.

(** [v[0]] on a value that is neither null nor undefined. *)
Definition index0 (v : json) : option json :=
  match v with
  | JArray (x :: _) => Some x
  | JString (String c _) => Some (JString (String c EmptyString))
  | JObject _ => prop v "0"
  | _ => None
  end.

(** [parsed.choices[0]?.delta?.content]: the outer [None] is the TypeError
    of reading a property of null or undefined, the inner one is
    undefined. *)
Definition delta_content (parsed : json) : option (option json) :=
  match parsed with
  | JNull => None
  | _ =>
      match prop parsed "choices" with
      | None | Some JNull => None
      | Some choices =>
          Some match index0 choices with
               | None | Some JNull => None
               | Some choice =>
                   match prop choice "delta" with
                   | None | Some JNull => None
                   | Some delta => prop delta "content"
                   end
               end
      end
  end.

(** JavaScript truthiness. *)
Definition truthy (v : option json) : bool :=
  match v with
  | None | Some JNull => false
  | Some (JBool b) => b
  | Some (JNumber q) => negb (Qeq_bool q 0)
  | Some (JString s) => negb (String.eqb s "")
  | Some (JArray _) | Some (JObject _) => true
  end.

Definition newline : ascii := "010"%char.

(** [s.split('\n')] *)
Fixpoint split_newline (s : string) : list string :=
  match s with
  | EmptyString => [EmptyString]
  | String c r =>
      if Ascii.eqb c newline then EmptyString :: split_newline r
      else match split_newline r with
           | l :: ls => String c l :: ls
           | [] => [String c EmptyString]
           end
  end.

(** [s.slice(n)] *)
Fixpoint slice (n : nat) (s : string) : string :=
  match n, s with
  | O, _ => s
  | S n', String _ r => slice n' r
  | S _, EmptyString => EmptyString
  end.

Section Stream.

(** [JSON.parse]: [None] when it throws. *)
Variable JSON_parse : string -> option json.

(** The body of the [try] inside the loop over the lines: what is yielded
    for the payload [data]. *)
Definition yielded (data : string) : list json :=
  match JSON_parse data with
  | Some parsed =>
      match delta_content parsed with
      | Some (Some content) =>
          if truthy (Some content) then [content] else []
      | Some None => []
      | None => []                      (* caught *)
      end
  | None => []                          (* skip invalid JSON *)
  end.

(** [for (const line of lines)]: the values yielded, and whether the
    [return] of the terminator line was reached. *)
Fixpoint for_lines (lines : list string) : list json * bool :=
  match lines with
  | [] => ([], false)
  | line :: rest =>
      if String.prefix "data: " line then
        let data := slice 6 line in
        if String.eqb data "[DONE]" then ([], true)
        else
          let (ys, returned) := for_lines rest in
          (yielded data ++ ys, returned)
      else for_lines rest
  end.

(** [while (true)] over the reads of the body; [chunks] are the texts that
    the decoder makes of the successive reads, [buffer] is the variable of
    that name. *)
Fixpoint read_loop (chunks : list string) (buffer : string) : list json :=
  match chunks with
  | [] => []                                          (* done: break *)
  | value :: rest =>
      let buffer1 := (buffer ++ value)%string in
      let lines := split_newline buffer1 in
      let buffer2 := List.last lines EmptyString in   (* lines.pop() || '' *)
      let (ys, returned) := for_lines (removelast lines) in
      if returned then ys else ys ++ read_loop rest buffer2
  end.

(** [OpenAIClient.streamMessage] and [OpenRouterClient.streamMessage] (the
    same loop, letter for letter) as the sequence of the values yielded for
    the chunks of the response body. *)
Definition streamMessage (chunks : list string) : list json :=
  read_loop chunks EmptyString.

End Stream.

End aiClients.

(** ** Vocabulary of the statements *)

(** What a message adds to the totals of its session: its reported token
    count and cost, zero when the message reports none. *)
Definition tokens_of (message : AIMessage.t) : Z :=
  default 0%Z (message_tokens message).

Definition cost_of (message : AIMessage.t) : Qc :=
  default 0%Qc (message_cost message).

Definition sum_tokens (ms : list AIMessage.t) : Z :=
  foldr (fun m acc => (tokens_of m + acc)%Z) 0%Z ms.

Definition sum_cost (ms : list AIMessage.t) : Qc :=
  foldr (fun m acc => (cost_of m + acc)%Qc) 0%Qc ms.

(** A sequence of [sessionStorage.addMessage] calls on one session id, each
    with its message and the clock reading of the call; the result tells
    whether every call returned true. *)
Fixpoint addMessage_calls (sessionId : string) (calls : list (AIMessage.t * Z))
    (ls : localStorage) : bool * localStorage :=
  match calls with
  | [] => (true, ls)
  | (message, now) :: rest =>
      let (ok, ls') := sessionStorage.addMessage sessionId message now ls in
      let (oks, ls'') := addMessage_calls sessionId rest ls' in
      (ok && oks, ls'')
  end.

(** The recorded timestamps that fall in the trailing 60-second window of
    [now]. *)
Definition in_window (now : Z) (data : RateData) : list Z :=
  List.filter (fun timestamp => (now - 60 * 1000 <? timestamp)%Z) (requests data).

(** [canMakeRequest] called once at each of the given times; the answers
    are collected in call order. *)
Fixpoint canMakeRequest_at (service : AIServiceType) (times : list Z)
    (ls : localStorage) : list bool * localStorage :=
  match times with
  | [] => ([], ls)
  | now :: rest =>
      let (ok, ls') := rateLimiter.canMakeRequest service now ls in
      let (oks, ls'') := canMakeRequest_at service rest ls' in
      (ok :: oks, ls'')
  end.

(** The union of the remote and the local sessions as the specification
    words it: every remote session, then the local sessions whose id does
    not occur among the remote ones. *)
Definition union_remote_first (remote local : list StoredSession)
    : list StoredSession :=
  remote
  ++ List.filter
       (fun s => bool_decide (AISession.id s ∉ map AISession.id remote)) local.

(** The address held by a session object, if any, is in the heap. *)
Definition valid (h : list SessionMetadata) (s : useAISessions.SessionObj) : Prop :=
  forall a, AISession.metadata s = Some a -> (a < length h)%nat.

(** The metadata object that a session object refers to, read in a heap. *)
Definition deref (h : list SessionMetadata) (s : useAISessions.SessionObj)
    : option SessionMetadata :=
  match AISession.metadata s with Some a => h !! a | None => None end.

(** The addresses of the metadata objects that the session objects of a
    list refer to, in list order. *)
Definition addresses (l : list useAISessions.SessionObj) : list nat :=
  omap AISession.metadata l.

(** The aliasing between session objects that the hook gives rise to: two
    entries of the session list never share a metadata object; the active
    session is an entry of the list (switchSession and createSession make
    it so, and the two are then updated in step) or shares its metadata
    object with no entry (it was read from the storage on its own); every
    address refers to an object. *)
Definition aliasing_ok (st : useAISessions.state) : Prop :=
  NoDup (addresses (useAISessions.sessions st))
  /\ Forall (valid (useAISessions.heap st)) (useAISessions.sessions st)
  /\ forall a, useAISessions.activeSession st = Some a ->
       valid (useAISessions.heap st) a
       /\ (In a (useAISessions.sessions st)
           \/ forall addr, AISession.metadata a = Some addr ->
                addr ∉ addresses (useAISessions.sessions st)).

(** The invariant of C2: the active session, when there is one, has an
    entry of its id in the session list that reads the same. *)
Definition in_sync (st : useAISessions.state) : Prop :=
  forall a, useAISessions.activeSession st = Some a ->
    exists e, In e (useAISessions.sessions st)
              /\ AISession.id e = AISession.id a
              /\ useAISessions.view (useAISessions.heap st) e
                 = useAISessions.view (useAISessions.heap st) a.

(** The heap after the writes of [useAISessions.appended] through the
    session [s]. *)
Definition bump (h : list SessionMetadata) (s : useAISessions.SessionObj)
    (message : AIMessage.t) (now : Z) : list SessionMetadata :=
  match AISession.metadata s with
  | Some a =>
      match h !! a with
      | Some md =>
          <[a := update_metadata md (S (length (AISession.messages s)))
                   now message]> h
      | None => h
      end
  | None => h
  end.

(** The text received: the chunks one after the other. *)
Fixpoint received (chunks : list string) : string :=
  match chunks with
  | [] => EmptyString
  | value :: rest => (value ++ received rest)%string
  end.

(** The complete lines of a text: its pieces between newlines, without the
    piece behind the last newline. *)
Definition complete_lines (text : string) : list string :=
  removelast (aiClients.split_newline text).

(** The payload of a line that starts with 'data: '. *)
Definition payload (line : string) : option string :=
  if String.prefix "data: " line then Some (aiClients.slice 6 line) else None.

Definition is_terminator (line : string) : bool :=
  match payload line with
  | Some data => String.eqb data "[DONE]"
  | None => false
  end.

(** The lines before the first terminator line. *)
Fixpoint until_terminator (lines : list string) : list string :=
  match lines with
  | [] => []
  | line :: rest =>
      if is_terminator line then [] else line :: until_terminator rest
  end.

Section Deltas.
Variable JSON_parse : string -> option json.

(** The delta of a line as C8 states it: the content field of a 'data: '
    line whose payload parses as JSON; nothing for another line, for a
    malformed payload and for a payload without content field. *)
Definition delta_as_stated (line : string) : option json :=
  match payload line with
  | Some data =>
      match JSON_parse data with
      | Some parsed =>
          match aiClients.delta_content parsed with
          | Some (Some content) => Some content
          | _ => None
          end
      | None => None
      end
  | None => None
  end.

(** The delta of a line as amended: the content field has to be truthy
    (an empty string, null, false and 0 are not). *)
Definition delta (line : string) : option json :=
  match delta_as_stated line with
  | Some content => if aiClients.truthy (Some content) then Some content else None
  | None => None
  end.

Definition sse_deltas_as_stated (text : string) : list json :=
  omap delta_as_stated (until_terminator (complete_lines text)).

Definition sse_deltas (text : string) : list json :=
  omap delta (until_terminator (complete_lines text)).

End Deltas.

(** ** Vocabulary of the further properties *)

(** The times of the calls of [canMakeRequest_at] that were admitted, in
    call order. *)
Fixpoint admitted (service : AIServiceType) (times : list Z)
    (ls : localStorage) : list Z :=
  match times with
  | [] => []
  | now :: rest =>
      let (ok, ls') := rateLimiter.canMakeRequest service now ls in
      if ok then now :: admitted service rest ls'
      else admitted service rest ls'
  end.

(** Clock readings that do not go back: each is at least the one before,
    the first at least [start]. *)
Fixpoint nondecreasing (start : Z) (times : list Z) : Prop :=
  match times with
  | [] => True
  | t :: rest => (start <= t)%Z /\ nondecreasing t rest
  end.

(** Every vendor key of the settings has code units up to U+00FF only. *)
Definition keys_latin1 (s : settings.AppSettings) : Prop :=
  forall service,
    Forall (fun c => c <= 255) (settings.apiKey (useAI.config_of s service)).

(** A call of one of the operations of the hook that change its state, with
    the arguments and the readings of the environment that the operation
    takes. *)
Inductive call :=
| LoadSessions (response : useAISessions.fetched)
| CreateSession (service : AIServiceType) (title : option string)
    (sessionId : string) (now : Z) (localeString : string)
| SwitchSession (sessionId : string)
| DeleteSession (sessionId : string)
| UpdateSessionTitle (sessionId title : string) (now : Z)
| AddMessage (sessionId : string) (message : AIMessage.t) (now : Z).

Definition perform (projectId : string) (c : call) (st : useAISessions.state)
    : useAISessions.state :=
  match c with
  | LoadSessions response => useAISessions.loadSessions projectId response st
  | CreateSession service title sessionId now localeString =>
      snd (useAISessions.createSession projectId service title sessionId now
             localeString st)
  | SwitchSession sessionId =>
      snd (useAISessions.switchSession projectId sessionId st)
  | DeleteSession sessionId =>
      snd (useAISessions.deleteSession projectId sessionId st)
  | UpdateSessionTitle sessionId title now =>
      snd (useAISessions.updateSessionTitle sessionId title now st)
  | AddMessage sessionId message now =>
      snd (useAISessions.addMessage sessionId message now st)
  end.

(** The calls of a list one after the other. *)
Definition perform_all (projectId : string) (calls : list call)
    (st : useAISessions.state) : useAISessions.state :=
  fold_left (fun s c => perform projectId c s) calls st.

(** ** Sample data *)

Definition sample_message (n : Z) : AIMessage.t :=
  {| AIMessage.id := "msg_1"; AIMessage.role := assistant;
     AIMessage.content := "hello"; AIMessage.timestamp := 1000;
     AIMessage.metadata :=
       Some {| tokens := Some n; model := None; cost := None;
               processingTime := None |} |}.

Definition sample_session : StoredSession :=
  createAISession "default" openAI None "ai_session_1" 1000%Z "1/1/2025"
    (new_metadata 1000).

Definition sample_storage : localStorage :=
  {| ls_sessions := Json [sample_session]; ls_active := Missing;
     ls_rate := fun _ => Missing;
     ls_settings := Missing |}.

Definition empty_storage : localStorage :=
  {| ls_sessions := Missing; ls_active := Missing; ls_rate := fun _ => Missing;
     ls_settings := Missing |}.

(** Sixty requests of one service, one per second from second 1 on. *)
Definition sixty_requests : RateData :=
  {| requests := map (fun n => (1000 * Z.of_nat n)%Z) (seq 1 60);
     lastReset := 1000%Z |}.

Definition full_storage : localStorage :=
  {| ls_sessions := Missing; ls_active := Missing;
     ls_rate := fun _ => Json sixty_requests;
     ls_settings := Missing |}.

(** A storage whose sessions item does not parse. *)
Definition garbled_storage : localStorage :=
  {| ls_sessions := Garbled; ls_active := Missing; ls_rate := fun _ => Missing;
     ls_settings := Missing |}.

(** A remote copy of [sample_session] under another title, and a session
    that only the remote mirror has. *)
Definition remote_copy : StoredSession :=
  AISession.with_title sample_session "renamed remotely".

Definition remote_only : StoredSession :=
  createAISession "default" claudeCode (Some "remote") "ai_session_2" 500%Z
    "1/1/2025" (new_metadata 500).

(** The hook over [empty_storage] after [createSession] for openAI without
    a title. *)
Definition created_state : useAISessions.state :=
  snd (useAISessions.createSession "default" openAI None "ai_session_9"
         1000%Z "1/1/2025" (useAISessions.initial empty_storage)).

(** Texts of a completion stream.  [first_event] is the payload that opens
    a stream, an object whose [choices[0].delta] has the role assistant
    and the empty string as content; [hello_event] is one whose
    [choices[0].delta.content] is the string Hi. *)
Definition quoted (s : string) : string :=
  (String "034" s ++ String "034" EmptyString)%string.

Definition nl : string := String aiClients.newline EmptyString.

Definition first_event : string :=
  ("{" ++ quoted "choices" ++ ":[{" ++ quoted "delta" ++ ":{" ++ quoted "role"
   ++ ":" ++ quoted "assistant" ++ "," ++ quoted "content" ++ ":" ++ quoted ""
   ++ "}}]}")%string.

Definition hello_event : string :=
  ("{" ++ quoted "choices" ++ ":[{" ++ quoted "delta" ++ ":{"
   ++ quoted "content" ++ ":" ++ quoted "Hi" ++ "}}]}")%string.

(** [JSON.parse] on the two payloads above; it is taken to throw on every
    other text. *)
Definition sample_parse (text : string) : option json :=
  if String.eqb text first_event then
    Some (JObject
            [("choices",
              JArray [JObject [("delta",
                                JObject [("role", JString "assistant");
                                         ("content", JString "")])]])])
  else if String.eqb text hello_event then
    Some (JObject
            [("choices",
              JArray [JObject [("delta",
                                JObject [("content", JString "Hi")])]])])
  else None.

(** A storage whose settings item holds the dark theme and, for openAI, the
    key sk-1 in its stored form. *)
Definition stored_settings : settings.document :=
  settings.with_services
    {| settings.d_theme := Some settings.dark;
       settings.d_aiServices := None;
       settings.d_defaultAIService := None;
       settings.d_autoSave := Some false;
       settings.d_autoSaveInterval := None;
       settings.d_compactMode := None;
       settings.d_showTaskCount := None;
       settings.d_enableAnimations := None;
       settings.d_enableAutoBackup := None;
       settings.d_backupInterval := None;
       settings.d_maxBackups := None;
       settings.d_sessionTimeout := None;
       settings.d_enableSessionHistory := None;
       settings.d_maxSessionHistory := None |}
    {| settings.aider := settings.aider (settings.aiServices settings.DEFAULT_SETTINGS);
       settings.claudeCode :=
         settings.claudeCode (settings.aiServices settings.DEFAULT_SETTINGS);
       settings.openRouter :=
         settings.openRouter (settings.aiServices settings.DEFAULT_SETTINGS);
       settings.openAI :=
         {| settings.name := "OpenAI";
            settings.apiKey := [61; 61; 81; 77; 116; 115; 50; 99];
            settings.baseUrl := Some "https://api.openai.com/v1";
            settings.enabled := true |} |}.

Definition settings_storage : localStorage :=
  {| ls_sessions := Missing; ls_active := Missing; ls_rate := fun _ => Missing;
     ls_settings := Json stored_settings |}.

(** An update that enables openAI with the key sk-1, and one whose key is
    the letter U+0416. *)
Definition empty_document : settings.document :=
  {| settings.d_theme := None; settings.d_aiServices := None;
     settings.d_defaultAIService := None; settings.d_autoSave := None;
     settings.d_autoSaveInterval := None; settings.d_compactMode := None;
     settings.d_showTaskCount := None; settings.d_enableAnimations := None;
     settings.d_enableAutoBackup := None; settings.d_backupInterval := None;
     settings.d_maxBackups := None; settings.d_sessionTimeout := None;
     settings.d_enableSessionHistory := None;
     settings.d_maxSessionHistory := None |}.

Definition services_with_openAI_key (key : list N) : settings.AIServices :=
  {| settings.aider := settings.aider (settings.aiServices settings.DEFAULT_SETTINGS);
     settings.claudeCode :=
       settings.claudeCode (settings.aiServices settings.DEFAULT_SETTINGS);
     settings.openRouter :=
       settings.openRouter (settings.aiServices settings.DEFAULT_SETTINGS);
     settings.openAI :=
       {| settings.name := "OpenAI"; settings.apiKey := key;
          settings.baseUrl := Some "https://api.openai.com/v1";
          settings.enabled := true |} |}.

Definition key_update (key : list N) : settings.document :=
  settings.with_services empty_document (services_with_openAI_key key).

(* ===================================================================== *)
(** * Part II: properties                                                 *)
(* ===================================================================== *)

Section Base64_facts.
Import Base64.

Lemma list_ind3 {A} (P : list A -> Prop) :
  P [] -> (forall a, P [a]) -> (forall a b, P [a; b]) ->
  (forall a b c l, P l -> P (a :: b :: c :: l)) ->
  forall l, P l.
Proof.
  intros H0 H1 H2 H3 l.
  assert (P l /\ (forall a, P (a :: l)) /\ (forall a b, P (a :: b :: l))) as [? _];
    [|assumption].
  induction l as [|x l (IH0 & IH1 & IH2)]; [auto|].
  repeat split; auto.
Qed.

Lemma b64_index_char i : i < 64 -> b64_index (b64_char i) = Some i.
Proof.
  intros Hi. unfold b64_char, b64_index.
  repeat match goal with
         | |- context [N.ltb ?a ?b] => destruct (N.ltb_spec a b)
         | |- context [N.leb ?a ?b] => destruct (N.leb_spec a b)
         | |- context [N.eqb ?a ?b] => destruct (N.eqb_spec a b)
         | _ => progress simpl
         end; try lia; f_equal; lia.
Qed.

Lemma b64_char_not_pad i : b64_char i <> pad_char.
Proof.
  unfold b64_char, pad_char.
  repeat match goal with
         | |- context [N.ltb ?a ?b] => destruct (N.ltb_spec a b)
         | |- context [N.eqb ?a ?b] => destruct (N.eqb_spec a b)
         end; lia.
Qed.

Lemma b64_char_not_whitespace i : is_ascii_whitespace (b64_char i) = false.
Proof.
  unfold b64_char, is_ascii_whitespace.
  destruct (N.ltb_spec i 26), (N.ltb_spec i 52), (N.ltb_spec i 62),
    (N.eqb_spec i 62);
    repeat match goal with
           | |- context [N.eqb ?a ?b] => destruct (N.eqb_spec a b)
           end; simpl; try reflexivity; lia.
Qed.

Lemma mod3_step n : (S (S (S n)) mod 3 = n mod 3)%nat.
Proof.
  change (S (S (S n))) with (3 + n)%nat.
  rewrite Nat.add_comm. apply (Nat.Div0.mod_add n 1 3).
Qed.

Lemma mod4_step n : (S (S (S (S n))) mod 4 = n mod 4)%nat.
Proof.
  change (S (S (S (S n)))) with (4 + n)%nat.
  rewrite Nat.add_comm. apply (Nat.Div0.mod_add n 1 4).
Qed.

Lemma padding_step n : padding (S (S (S n))) = padding n.
Proof. unfold padding. now rewrite mod3_step. Qed.

Lemma sextets_bound bytes :
  Forall (fun b => b <= 255) bytes -> Forall (fun s => s < 64) (sextets bytes).
Proof.
  induction bytes as [|a|a b|a b c l IH] using list_ind3; intros H; simpl.
  - constructor.
  - inversion_clear H. repeat constructor; lia.
  - inversion_clear H as [|? ? ? H']. inversion_clear H'.
    repeat constructor; lia.
  - inversion_clear H as [|? ? ? H']. inversion_clear H' as [|? ? ? H''].
    inversion_clear H''. repeat (constructor; [lia|]). auto.
Qed.

Lemma bytes_of_sextets_sextets bytes :
  Forall (fun b => b <= 255) bytes -> bytes_of_sextets (sextets bytes) = bytes.
Proof.
  induction bytes as [|a|a b|a b c l IH] using list_ind3; intros H; simpl.
  - reflexivity.
  - inversion_clear H. f_equal. lia.
  - inversion_clear H as [|? ? ? H']. inversion_clear H'.
    f_equal; [lia|]. f_equal. lia.
  - inversion_clear H as [|? ? ? H']. inversion_clear H' as [|? ? ? H''].
    inversion_clear H''. rewrite IH by assumption.
    f_equal; [lia|]. f_equal; [lia|]. f_equal. lia.
Qed.

Lemma indices_b64_char ss :
  Forall (fun s => s < 64) ss -> indices (map b64_char ss) = Some ss.
Proof.
  induction 1 as [|s ss Hs _ IH]; simpl; [reflexivity|].
  now rewrite (b64_index_char s Hs), IH.
Qed.

Lemma length_sextets_mod4 bytes : (length (sextets bytes) mod 4 <> 1)%nat.
Proof.
  induction bytes as [|a|a b|a b c l IH] using list_ind3; simpl length;
    [discriminate ..|].
  now rewrite mod4_step.
Qed.

Lemma length_base64_encode bytes : (length (base64_encode bytes) mod 4 = 0)%nat.
Proof.
  unfold base64_encode.
  induction bytes as [|a|a b|a b c l IH] using list_ind3; [reflexivity ..|].
  rewrite length_app, length_map in *.
  change (length (sextets (a :: b :: c :: l)))
    with (S (S (S (S (length (sextets l)))))).
  change (length (a :: b :: c :: l)) with (S (S (S (length l)))).
  rewrite padding_step. cbn [Nat.add]. rewrite mod4_step. exact IH.
Qed.

Lemma last_sextets_char bytes c r :
  rev (map b64_char (sextets bytes)) = c :: r -> c <> pad_char.
Proof.
  intros H. assert (In c (map b64_char (sextets bytes))) as Hin.
  { apply in_rev. rewrite H. now left. }
  apply in_map_iff in Hin as (i & <- & _). apply b64_char_not_pad.
Qed.

Lemma strip_padding_encode bytes :
  strip_padding (base64_encode bytes) = map b64_char (sextets bytes).
Proof.
  unfold strip_padding. rewrite length_base64_encode. simpl.
  unfold base64_encode. rewrite rev_app_distr.
  pose proof (last_sextets_char bytes) as Hlast.
  unfold padding, pad_char in *.
  destruct (length bytes mod 3)%nat as [|[|[|?]]]; simpl.
  - rewrite app_nil_r.
    destruct (rev (map b64_char (sextets bytes))) as [|c r] eqn:E; [reflexivity|].
    specialize (Hlast c r eq_refl).
    destruct c as [|p]; [reflexivity|].
    repeat (destruct p as [p|p|]; try reflexivity). congruence.
  - apply rev_involutive.
  - destruct (rev (map b64_char (sextets bytes))) as [|c r] eqn:E.
    + rewrite <- (rev_involutive (map _ _)), E. reflexivity.
    + specialize (Hlast c r eq_refl).
      rewrite <- (rev_involutive (map _ _)), E.
      destruct c as [|p]; [reflexivity|].
      repeat (destruct p as [p|p|]; try reflexivity). congruence.
  - rewrite app_nil_r.
    destruct (rev (map b64_char (sextets bytes))) as [|c r] eqn:E; [reflexivity|].
    specialize (Hlast c r eq_refl).
    destruct c as [|p]; [reflexivity|].
    repeat (destruct p as [p|p|]; try reflexivity). congruence.
Qed.

Lemma filter_whitespace_encode bytes :
  List.filter (fun c => negb (is_ascii_whitespace c)) (base64_encode bytes)
  = base64_encode bytes.
Proof.
  apply forallb_filter_id, forallb_forall. intros c Hc.
  unfold base64_encode in Hc. apply in_app_or in Hc as [Hc|Hc].
  - apply in_map_iff in Hc as (i & <- & _).
    now rewrite b64_char_not_whitespace.
  - unfold padding, pad_char in Hc.
    destruct (length bytes mod 3)%nat as [|[|[|?]]]; simpl in Hc;
      intuition (subst; reflexivity).
Qed.

Lemma atob_btoa data :
  Forall (fun c => c <= 255) data ->
  btoa data = Some (base64_encode data) /\ atob (base64_encode data) = Some data.
Proof.
  intros H. split.
  - unfold btoa.
    assert (forallb (fun c => c <=? 255) data = true) as ->; [|reflexivity].
    apply forallb_forall. intros c Hc.
    rewrite Forall_forall in H. apply N.leb_le, H.
    now apply list_elem_of_In.
  - unfold atob. rewrite filter_whitespace_encode, strip_padding_encode.
    rewrite length_map.
    destruct (Nat.eqb_spec (length (sextets data) mod 4) 1) as [E|_].
    + now apply length_sextets_mod4 in E.
    + rewrite indices_b64_char by now apply sextets_bound.
      simpl. now rewrite bytes_of_sextets_sextets.
Qed.

End Base64_facts.

(** ** The credential transform *)

(** C4, as the specification states it, fails: [btoa] rejects a key with a
    code unit above U+00FF (here the one-letter key U+0416), and
    [encryptApiKey] lets the exception escape. *)
Lemma encryptApiKey_throws_beyond_latin1 :
  ~ (forall key, key <> [] ->
       exists e, Credentials.encryptApiKey key = Some e
                 /\ Credentials.decryptApiKey e = key).
Proof.
  intros H. destruct (H [1046] ltac:(discriminate)) as (e & He & _).
  discriminate He.
Qed.

(** C4 (amended).  For every non-empty key whose code units are all at most
    U+00FF, [encryptApiKey] returns a value and [decryptApiKey] takes that
    value back to the key. *)
Theorem decryptApiKey_encryptApiKey key :
  key <> [] -> Forall (fun c => c <= 255) key ->
  exists e, Credentials.encryptApiKey key = Some e
            /\ Credentials.decryptApiKey e = key.
Proof.
  intros Hne Hlatin. destruct (atob_btoa key Hlatin) as [Hbtoa Hatob].
  exists (rev (Base64.base64_encode key)). split.
  - unfold Credentials.encryptApiKey. rewrite Hbtoa.
    now destruct key.
  - unfold Credentials.decryptApiKey.
    destruct (rev (Base64.base64_encode key)) as [|c r] eqn:E.
    + apply (f_equal (@rev N)) in E. rewrite rev_involutive in E. simpl in E.
      destruct key as [|a [|b [|c l]]]; [congruence|discriminate E ..].
    + rewrite <- E, rev_involutive, Hatob. reflexivity.
Qed.

Lemma decryptApiKey_encryptApiKey_witness :
  [115; 107; 45; 49] <> []
  /\ Forall (fun c => c <= 255) [115; 107; 45; 49]
  /\ exists e, Credentials.encryptApiKey [115; 107; 45; 49] = Some e
               /\ Credentials.decryptApiKey e = [115; 107; 45; 49].
Proof.
  assert ([115; 107; 45; 49] <> []) as Hne by discriminate.
  assert (Forall (fun c => c <= 255) [115; 107; 45; 49]) as Hlatin
    by (repeat constructor; lia).
  exact (conj Hne (conj Hlatin
           (decryptApiKey_encryptApiKey [115; 107; 45; 49] Hne Hlatin))).
Defined.

(** "sk-1" is stored as "==QMts2c", the reversed base64 text "c2stMQ==". *)
Example encryptApiKey_sk1 :
  Credentials.encryptApiKey [115; 107; 45; 49]
  = Some [61; 61; 81; 77; 116; 115; 50; 99].
Proof. reflexivity. Qed.

(** ** sessionStorage *)

Section Lookup_facts.
Context {M : Type}.
Implicit Types (l : list (AISession.t M)) (s : AISession.t M).

Lemma findIndex_Some sessionId l i :
  findIndex sessionId l = Some i ->
  exists s, l !! i = Some s /\ find_session sessionId l = Some s
            /\ AISession.id s = sessionId.
Proof.
  revert i. induction l as [|x l IH]; intros i; simpl; [discriminate|].
  destruct (decide (AISession.id x = sessionId)) as [E|NE].
  - intros [= <-]. now exists x.
  - destruct (findIndex sessionId l) as [j|]; [|discriminate].
    intros [= <-]. destruct (IH j eq_refl) as (s & ? & ? & ?). now exists s.
Qed.

Lemma find_session_Some sessionId l s :
  find_session sessionId l = Some s ->
  exists i, findIndex sessionId l = Some i /\ l !! i = Some s.
Proof.
  induction l as [|x l IH]; simpl; [discriminate|].
  destruct (decide (AISession.id x = sessionId)) as [E|NE].
  - intros [= <-]. now exists 0%nat.
  - intros H. destruct (IH H) as (i & -> & ?). now exists (S i).
Qed.

Lemma findIndex_None sessionId l :
  findIndex sessionId l = None <-> find_session sessionId l = None.
Proof.
  induction l as [|x l IH]; simpl; [tauto|].
  destruct (decide (AISession.id x = sessionId)); [split; discriminate|].
  destruct (findIndex sessionId l); simpl.
  - split; [discriminate|]. intros H. apply IH in H. discriminate.
  - split; [|reflexivity]. intros _. now apply IH.
Qed.

Lemma find_session_id sessionId l s :
  find_session sessionId l = Some s -> AISession.id s = sessionId.
Proof.
  intros H. apply find_session_Some in H as (i & Hi & Hl).
  apply findIndex_Some in Hi as (s' & Hl' & _ & ?). congruence.
Qed.

Lemma find_session_insert sessionId l i s' :
  findIndex sessionId l = Some i -> AISession.id s' = sessionId ->
  find_session sessionId (<[i := s']> l) = Some s'
  /\ findIndex sessionId (<[i := s']> l) = Some i.
Proof.
  revert i. induction l as [|x l IH]; intros i; simpl; [discriminate|].
  destruct (decide (AISession.id x = sessionId)) as [E|NE].
  - intros [= <-] Hid. simpl. rewrite !decide_True by assumption. now split.
  - destruct (findIndex sessionId l) as [j|]; [|discriminate].
    intros [= <-] Hid. simpl. rewrite !decide_False by assumption.
    destruct (IH j eq_refl Hid) as [-> ->]. now split.
Qed.

Lemma find_session_In sessionId l s :
  find_session sessionId l = Some s -> In s l.
Proof.
  induction l as [|x l IH]; simpl; [discriminate|].
  destruct (decide (AISession.id x = sessionId)).
  - intros [= <-]. now left.
  - intros H. right. auto.
Qed.

Lemma find_session_filter_out sessionId l :
  find_session sessionId
    (List.filter (fun s => negb (bool_decide (AISession.id s = sessionId))) l)
  = None.
Proof.
  induction l as [|x l IH]; simpl; [reflexivity|].
  destruct (bool_decide_reflect (AISession.id x = sessionId)); simpl;
    [assumption|].
  now rewrite decide_False.
Qed.

End Lookup_facts.

Section Storage_facts.
Import sessionStorage.

Lemma pushed_id session message now :
  AISession.id (pushed session message now) = AISession.id session.
Proof. unfold pushed. now destruct (AISession.metadata session). Qed.

Lemma pushed_messages session message now :
  AISession.messages (pushed session message now)
  = AISession.messages session ++ [message].
Proof. unfold pushed. now destruct (AISession.metadata session). Qed.

Lemma pushed_metadata session md message now :
  AISession.metadata session = Some md ->
  AISession.metadata (pushed session message now)
  = Some (update_metadata md (S (length (AISession.messages session)))
            now message).
Proof.
  intros H. unfold pushed. rewrite H. simpl.
  rewrite length_app. simpl. now rewrite Nat.add_1_r.
Qed.

Lemma update_metadata_tokens md len now message :
  totalTokens (update_metadata md len now message)
  = (totalTokens md + tokens_of message)%Z.
Proof.
  unfold update_metadata, tokens_of, truthyZ. simpl.
  destruct (message_tokens message) as [z|]; simpl; [|lia].
  destruct (Z.eqb_spec z 0); simpl; lia.
Qed.

Lemma update_metadata_cost md len now message :
  totalCost (update_metadata md len now message)
  = (totalCost md + cost_of message)%Qc.
Proof.
  unfold update_metadata, cost_of, truthyQc. simpl.
  destruct (message_cost message) as [q|]; simpl; [|now rewrite Qcplus_0_r].
  destruct (Qc_eq_bool q 0) eqn:E; simpl; [|reflexivity].
  apply Qc_eq_bool_correct in E. subst q. now rewrite Qcplus_0_r.
Qed.

Lemma addMessage_found ls allSessions sessionId session message now :
  ls_sessions ls = Json allSessions ->
  find_session sessionId allSessions = Some session ->
  exists allSessions',
    addMessage sessionId message now ls
    = (true, set_sessions ls (Json allSessions'))
    /\ find_session sessionId allSessions'
       = Some (pushed session message now).
Proof.
  intros Hls Hfind. unfold addMessage. rewrite Hls.
  destruct (find_session_Some _ _ _ Hfind) as (i & Hi & Hl).
  rewrite Hi, Hl. eexists. split; [reflexivity|].
  apply find_session_insert; [assumption|].
  rewrite pushed_id. eapply find_session_id, Hfind.
Qed.

End Storage_facts.

(** C1.  Let the stored collection hold a session under [sessionId] that
    has a metadata record.  Every call of a sequence of
    [sessionStorage.addMessage] calls on [sessionId] returns true, and after
    the sequence the stored session has the appended messages behind its
    old ones, its [totalTokens] (resp. [totalCost]) is the initial value
    plus the sum of the tokens (resp. costs) that the appended messages
    report, a message that reports none counting zero, and its
    [messageCount] is the number of its messages (after at least one call,
    or when the count was right to begin with). *)
Theorem addMessage_calls_metadata ls allSessions sessionId session md calls :
  ls_sessions ls = Json allSessions ->
  find_session sessionId allSessions = Some session ->
  AISession.metadata session = Some md ->
  exists ls' allSessions' session' md',
    addMessage_calls sessionId calls ls = (true, ls')
    /\ ls_sessions ls' = Json allSessions'
    /\ find_session sessionId allSessions' = Some session'
    /\ AISession.metadata session' = Some md'
    /\ AISession.messages session' = AISession.messages session ++ map fst calls
    /\ (calls <> [] \/ messageCount md = length (AISession.messages session) ->
        messageCount md' = length (AISession.messages session'))
    /\ totalTokens md' = (totalTokens md + sum_tokens (map fst calls))%Z
    /\ totalCost md' = (totalCost md + sum_cost (map fst calls))%Qc.
Proof.
  revert ls allSessions session md.
  induction calls as [|[message now] calls IH];
    intros ls allSessions session md Hls Hfind Hmd.
  - exists ls, allSessions, session, md. simpl.
    rewrite app_nil_r, Z.add_0_r, Qcplus_0_r.
    repeat split; try assumption. now intros [?|?].
  - destruct (addMessage_found ls allSessions sessionId session message now
                Hls Hfind) as (all1 & Hadd & Hfind1).
    pose proof (pushed_metadata session md message now Hmd) as Hmd1.
    destruct (IH (set_sessions ls (Json all1)) all1 _ _ eq_refl Hfind1 Hmd1)
      as (ls' & all' & s' & md' & Hrun & Hls' & Hfind' & Hmd' & Hmsgs
          & Hcount & Htok & Hcost).
    exists ls', all', s', md'. simpl. rewrite Hadd, Hrun. simpl.
    repeat split; try assumption.
    + rewrite Hmsgs, pushed_messages, <- app_assoc. reflexivity.
    + intros _. apply Hcount. right. simpl.
      rewrite pushed_messages, length_app. simpl. lia.
    + rewrite Htok, update_metadata_tokens. lia.
    + rewrite Hcost, update_metadata_cost. ring.
Qed.

Lemma addMessage_calls_metadata_witness :
  exists ls' allSessions' session' md',
    addMessage_calls "ai_session_1"
      [(sample_message 10, 2000%Z); (sample_message 5, 3000%Z)] sample_storage
    = (true, ls')
    /\ ls_sessions ls' = Json allSessions'
    /\ find_session "ai_session_1" allSessions' = Some session'
    /\ AISession.metadata session' = Some md'
    /\ AISession.messages session'
       = AISession.messages sample_session
         ++ map fst [(sample_message 10, 2000%Z); (sample_message 5, 3000%Z)]
    /\ (  [(sample_message 10, 2000%Z); (sample_message 5, 3000%Z)] <> []
        \/ messageCount (new_metadata 1000)
           = length (AISession.messages sample_session) ->
        messageCount md' = length (AISession.messages session'))
    /\ totalTokens md'
       = (totalTokens (new_metadata 1000)
          + sum_tokens (map fst [(sample_message 10, 2000%Z);
                                 (sample_message 5, 3000%Z)]))%Z
    /\ totalCost md'
       = (totalCost (new_metadata 1000)
          + sum_cost (map fst [(sample_message 10, 2000%Z);
                               (sample_message 5, 3000%Z)]))%Qc.
Proof.
  apply (addMessage_calls_metadata sample_storage [sample_session]
           "ai_session_1" sample_session (new_metadata 1000));
    reflexivity.
Defined.

(** C7, as the specification states it, fails: on a stored collection that
    parses (here the empty array) [addMessage] and [updateSession] return
    false because no session has the id, and on an absent item
    [deleteSession] returns false. *)
Lemma storage_failure_without_corruption :
  ~ (forall ls sessionId message updates now,
        ls_sessions ls <> Garbled ->
        fst (sessionStorage.addMessage sessionId message now ls) = true
        /\ fst (sessionStorage.updateSession sessionId updates now ls) = true
        /\ fst (sessionStorage.deleteSession sessionId ls) = true).
Proof.
  intros H.
  destruct (H {| ls_sessions := Json []; ls_active := Missing;
                 ls_rate := fun _ => Missing;
     ls_settings := Missing |}
              "ai_session_1" (sample_message 10)
              (AISession.only_title "t") 0%Z ltac:(discriminate))
    as [Hadd _].
  discriminate Hadd.
Qed.

(** C7 (amended).  [sessionStorage.addMessage] and
    [sessionStorage.updateSession] return false exactly when the stored
    item is absent, or is unparseable, or parses to a collection in which no
    session has the given id; [sessionStorage.deleteSession] returns false
    exactly when the stored item is absent or unparseable.  In every other
    case the operation returns true. *)
Theorem storage_failure_cases ls sessionId message updates now :
  (fst (sessionStorage.addMessage sessionId message now ls) = false <->
     ls_sessions ls = Missing \/ ls_sessions ls = Garbled
     \/ exists allSessions, ls_sessions ls = Json allSessions
                            /\ find_session sessionId allSessions = None)
  /\ (fst (sessionStorage.updateSession sessionId updates now ls) = false <->
     ls_sessions ls = Missing \/ ls_sessions ls = Garbled
     \/ exists allSessions, ls_sessions ls = Json allSessions
                            /\ find_session sessionId allSessions = None)
  /\ (fst (sessionStorage.deleteSession sessionId ls) = false <->
     ls_sessions ls = Missing \/ ls_sessions ls = Garbled).
Proof.
  unfold sessionStorage.addMessage, sessionStorage.updateSession,
    sessionStorage.deleteSession.
  destruct (ls_sessions ls) as [| |allSessions] eqn:Hls; simpl.
  - repeat split; auto.
  - repeat split; auto.
  - destruct (findIndex sessionId allSessions) as [i|] eqn:Hi.
    + destruct (findIndex_Some _ _ _ Hi) as (s & Hl & Hfind & _).
      rewrite Hl. simpl.
      repeat split; try discriminate; intros H;
        repeat (destruct H as [H|H]); try discriminate H;
        destruct H as (all & [= <-] & Hnone); congruence.
    + apply findIndex_None in Hi. simpl.
      repeat split; try discriminate; intros; eauto 6;
        intuition discriminate.
Qed.

Section Project_filters.
Context {M : Type}.
Implicit Types (l : list (AISession.t M)) (p q : string).

Local Abbreviation of_project p :=
  (fun s : AISession.t M => bool_decide (AISession.projectId s = p)).
Local Abbreviation off_project p :=
  (fun s : AISession.t M => negb (bool_decide (AISession.projectId s = p))).

Lemma filter_other_project p q l :
  q <> p ->
  List.filter (of_project q) (List.filter (off_project p) l)
  = List.filter (of_project q) l.
Proof.
  intros Hq.
  induction l as [|x l IH]; simpl; [reflexivity|].
  destruct (bool_decide_reflect (AISession.projectId x = p)) as [E|NE]; simpl.
  - rewrite bool_decide_false by congruence. exact IH.
  - destruct (bool_decide (AISession.projectId x = q)); [f_equal|]; exact IH.
Qed.

Lemma filter_same_project p l :
  List.filter (of_project p) (List.filter (off_project p) l)
  = [].
Proof.
  induction l as [|x l IH]; simpl; [reflexivity|].
  destruct (bool_decide_reflect (AISession.projectId x = p)) as [E|NE]; simpl;
    [exact IH|].
  rewrite bool_decide_false by assumption. exact IH.
Qed.

Lemma filter_all_of_project p l :
  Forall (fun s => AISession.projectId s = p) l ->
  List.filter (of_project p) l = l.
Proof.
  induction 1 as [|x l Hx _ IH]; simpl; [reflexivity|].
  rewrite bool_decide_true by assumption. f_equal. exact IH.
Qed.

Lemma filter_none_of_project p q l :
  q <> p -> Forall (fun s => AISession.projectId s = p) l ->
  List.filter (of_project q) l = [].
Proof.
  intros Hq.
  induction 1 as [|x l Hx _ IH]; simpl; [reflexivity|].
  rewrite bool_decide_false by congruence. exact IH.
Qed.

End Project_filters.

(** C10.  On a stored collection [allSessions], [saveSessions p ss] returns
    true and writes the sessions of [allSessions] that belong to another
    project, in their order, followed by [ss]; the other items of the
    storage are untouched.  Read back per project: another project [q] gets
    what it had (followed by whatever [ss] holds for [q], which is nothing
    when [ss] are sessions of [p]), and [p] gets the sessions of [ss]. *)
Theorem saveSessions_frame ls allSessions p ss :
  ls_sessions ls = Json allSessions ->
  exists ls',
    sessionStorage.saveSessions p ss ls = (true, ls')
    /\ ls_sessions ls'
       = Json (List.filter
                 (fun s => negb (bool_decide (AISession.projectId s = p)))
                 allSessions ++ ss)
    /\ ls_active ls' = ls_active ls
    /\ ls_rate ls' = ls_rate ls
    /\ (forall q, q <> p ->
          sessionStorage.getSessions q ls'
          = sessionStorage.getSessions q ls
            ++ List.filter (fun s => bool_decide (AISession.projectId s = q)) ss)
    /\ sessionStorage.getSessions p ls'
       = List.filter (fun s => bool_decide (AISession.projectId s = p)) ss
    /\ (Forall (fun s => AISession.projectId s = p) ss ->
          sessionStorage.getSessions p ls' = ss
          /\ forall q, q <> p ->
               sessionStorage.getSessions q ls' = sessionStorage.getSessions q ls).
Proof.
  intros Hls. unfold sessionStorage.saveSessions. rewrite Hls.
  eexists. split; [reflexivity|]. simpl.
  unfold sessionStorage.getSessions. simpl. rewrite Hls.
  repeat split.
  - intros q Hq. rewrite List.filter_app. f_equal.
    now apply (filter_other_project p q allSessions).
  - rewrite List.filter_app.
    now rewrite (filter_same_project p allSessions).
  - rewrite List.filter_app, (filter_same_project p allSessions). simpl.
    now apply (filter_all_of_project p ss).
  - intros q Hq. rewrite List.filter_app.
    rewrite (filter_other_project p q allSessions) by assumption.
    rewrite (filter_none_of_project p q ss) by assumption.
    apply app_nil_r.
Qed.

Lemma saveSessions_frame_witness :
  ls_sessions sample_storage = Json [sample_session]
  /\ exists ls',
       sessionStorage.saveSessions "other" [] sample_storage = (true, ls')
       /\ ls_sessions ls' = Json [sample_session].
Proof.
  split; [reflexivity|].
  destruct (saveSessions_frame sample_storage [sample_session] "other" []
              eq_refl) as (ls' & Hsave & Hls' & _).
  exists ls'. split; [exact Hsave|exact Hls'].
Defined.

(** ** rateLimiter *)

(** C3, as the specification states it, fails in its third part: a call
    that finds the window full returns false without appending the current
    time and without writing. *)
Lemma canMakeRequest_rejected_not_recorded :
  ~ (forall service now ls data,
       ls_rate ls service = Json data ->
       ls_rate (snd (rateLimiter.canMakeRequest service now ls)) service
       = Json {| requests := in_window now data ++ [now];
                 lastReset := lastReset data |}).
Proof.
  intros H. specialize (H openAI 60500%Z full_storage sixty_requests eq_refl).
  vm_compute in H. discriminate H.
Qed.

(** C3 (amended).  For every vendor tag whose item parses: (1) with 60 (or
    more) recorded timestamps in the trailing 60-second window
    [canMakeRequest] returns false, and leaves the storage as it is: the
    rejected attempt is not recorded; (2) once every recorded timestamp is
    60 seconds old or older it returns true; (3) a call that finds fewer
    than 60 timestamps in the window returns true and writes back the
    timestamps of the window followed by the current time, touching the
    item of no other vendor and no other key; (4) on an absent item it
    returns true and records the current time alone, on an unparseable one
    it returns true and writes nothing; (5) [getRemainingRequests] never
    modifies the storage. *)
Theorem canMakeRequest_fixed_window service now ls :
  (forall data, ls_rate ls service = Json data ->
     (60 <= length (in_window now data))%nat ->
     rateLimiter.canMakeRequest service now ls = (false, ls))
  /\ (forall data, ls_rate ls service = Json data ->
        Forall (fun t => (t <= now - 60 * 1000)%Z) (requests data) ->
        fst (rateLimiter.canMakeRequest service now ls) = true)
  /\ (forall data, ls_rate ls service = Json data ->
        (length (in_window now data) < 60)%nat ->
        exists ls',
          rateLimiter.canMakeRequest service now ls = (true, ls')
          /\ ls_rate ls' service
             = Json {| requests := in_window now data ++ [now];
                       lastReset := lastReset data |}
          /\ (forall other, other <> service ->
                ls_rate ls' other = ls_rate ls other)
          /\ ls_sessions ls' = ls_sessions ls
          /\ ls_active ls' = ls_active ls)
  /\ (ls_rate ls service = Missing ->
        exists ls',
          rateLimiter.canMakeRequest service now ls = (true, ls')
          /\ ls_rate ls' service
             = Json {| requests := [now]; lastReset := now |})
  /\ (ls_rate ls service = Garbled ->
        rateLimiter.canMakeRequest service now ls = (true, ls))
  /\ snd (rateLimiter.getRemainingRequests service now ls) = ls.
Proof.
  unfold rateLimiter.canMakeRequest, rateLimiter.getRemainingRequests, in_window.
  repeat split.
  - intros data -> Hfull.
    destruct (Nat.leb_spec 60 (length (List.filter
      (fun timestamp => (now - 60 * 1000 <? timestamp)%Z) (requests data))));
      [reflexivity|lia].
  - intros data -> Hold.
    assert (List.filter (fun timestamp => (now - 60 * 1000 <? timestamp)%Z)
              (requests data) = []) as ->; [|reflexivity].
    induction Hold as [|t l Ht _ IH]; simpl; [reflexivity|].
    destruct (Z.ltb_spec (now - 60 * 1000) t); [lia|exact IH].
  - intros data -> Hroom.
    destruct (Nat.leb_spec 60 (length (List.filter
      (fun timestamp => (now - 60 * 1000 <? timestamp)%Z) (requests data))));
      [lia|].
    eexists. split; [reflexivity|]. simpl.
    rewrite decide_True by reflexivity.
    repeat split. intros other Hother. now rewrite decide_False.
  - intros ->. eexists. split; [reflexivity|]. simpl.
    now rewrite decide_True.
  - now intros ->.
  - now destruct (ls_rate ls service).
Qed.

Lemma canMakeRequest_fixed_window_witness :
  ls_rate full_storage openAI = Json sixty_requests
  /\ (60 <= length (in_window 60500 sixty_requests))%nat
  /\ rateLimiter.canMakeRequest openAI 60500 full_storage = (false, full_storage)
  /\ Forall (fun t => (t <= 120000 - 60 * 1000)%Z) (requests sixty_requests)
  /\ fst (rateLimiter.canMakeRequest openAI 120000 full_storage) = true.
Proof.
  assert (60 <= length (in_window 60500 sixty_requests))%nat as Hfull
    by (vm_compute; lia).
  assert (Forall (fun t => (t <= 120000 - 60 * 1000)%Z) (requests sixty_requests))
    as Hold by (apply (bool_decide_unpack _); vm_compute; exact I).
  destruct (canMakeRequest_fixed_window openAI 60500 full_storage)
    as (Hreject & _).
  destruct (canMakeRequest_fixed_window openAI 120000 full_storage)
    as (_ & Hagain & _).
  exact (conj eq_refl (conj Hfull (conj (Hreject _ eq_refl Hfull)
           (conj Hold (Hagain _ eq_refl Hold))))).
Defined.

(** From an empty storage: sixty calls, one per second, are all admitted;
    the 61st, half a second later, is refused; a call made when the window has
    rolled over is admitted again. *)
Example sixty_one_calls :
  let times := map (fun n => (1000 * Z.of_nat n)%Z) (seq 1 60) in
  let (answers, ls) := canMakeRequest_at openAI times empty_storage in
  answers = repeat true 60
  /\ ls_rate ls openAI = Json sixty_requests
  /\ fst (rateLimiter.canMakeRequest openAI 60500 ls) = false
  /\ fst (rateLimiter.canMakeRequest openAI 120000 ls) = true.
Proof. vm_compute. repeat split. Qed.

(** ** useAISessions: the heap of metadata objects *)

Section Heap_facts.
Import useAISessions.
Implicit Types (h : list SessionMetadata) (s : SessionObj) (l : list SessionObj).

Lemma view_id h s : AISession.id (view h s) = AISession.id s.
Proof. reflexivity. Qed.

Lemma view_app h ext s : valid h s -> view (h ++ ext) s = view h s.
Proof.
  intros Hv. unfold view. destruct (AISession.metadata s) as [a|] eqn:E;
    [|reflexivity].
  rewrite lookup_app_l by now apply Hv. reflexivity.
Qed.

Lemma valid_app h ext s : valid h s -> valid (h ++ ext) s.
Proof. intros Hv a Ha. rewrite length_app. specialize (Hv a Ha). lia. Qed.

Lemma map_view_app h ext l :
  Forall (valid h) l -> map (view (h ++ ext)) l = map (view h) l.
Proof.
  induction 1 as [|s l Hs _ IH]; simpl; [reflexivity|].
  now rewrite view_app, IH.
Qed.

Lemma with_metadata_same (v : StoredSession) :
  AISession.with_metadata v (AISession.metadata v) = v.
Proof. now destruct v. Qed.

Lemma alloc_spec (v : StoredSession) h s h' :
  alloc v h = (s, h') ->
  exists ext, h' = h ++ ext /\ view h' s = v /\ valid h' s
              /\ AISession.id s = AISession.id v.
Proof.
  unfold alloc. destruct (AISession.metadata v) as [md|] eqn:E; intros [= <- <-].
  - exists [md]. repeat split.
    + unfold view. simpl. rewrite lookup_app_r by lia.
      rewrite Nat.sub_diag. simpl. rewrite <- E. apply with_metadata_same.
    + intros a [= <-]. rewrite length_app. simpl. lia.
  - exists []. rewrite app_nil_r. repeat split.
    + unfold view. simpl. rewrite <- E. apply with_metadata_same.
    + intros a Ha. discriminate Ha.
Qed.

Lemma alloc_all_spec (vs : list StoredSession) h l h' :
  alloc_all vs h = (l, h') ->
  exists ext, h' = h ++ ext /\ map (view h') l = vs /\ Forall (valid h') l
              /\ map AISession.id l = map AISession.id vs.
Proof.
  revert h l h'. induction vs as [|v vs IH]; intros h l h'; simpl.
  - intros [= <- <-]. exists []. rewrite app_nil_r. repeat split. constructor.
  - destruct (alloc v h) as [s h1] eqn:E1.
    destruct (alloc_all vs h1) as [r h2] eqn:E2. intros [= <- <-].
    destruct (alloc_spec _ _ _ _ E1) as (e1 & -> & Hv1 & Hval1 & Hid1).
    destruct (IH _ _ _ E2) as (e2 & -> & Hv2 & Hval2 & Hid2).
    exists (e1 ++ e2). rewrite <- app_assoc. repeat split.
    + simpl. rewrite app_assoc, view_app by assumption.
      now rewrite Hv1, Hv2.
    + constructor; [|now rewrite <- app_assoc in Hval2].
      rewrite app_assoc. now apply valid_app.
    + simpl. now rewrite Hid1, Hid2.
Qed.

(** Whether a list holds a session under an id depends on its ids only. *)
Lemma find_session_ids {M M'} sessionId (l : list (AISession.t M))
    (l' : list (AISession.t M')) :
  map AISession.id l = map AISession.id l' ->
  is_Some (find_session sessionId l) <-> is_Some (find_session sessionId l').
Proof.
  revert l'. induction l as [|x l IH]; intros [|x' l']; simpl; try discriminate.
  - intros _. split; intros [? [=]].
  - intros [= Hx Hl]. rewrite Hx.
    destruct (decide (AISession.id x' = sessionId)); [|now apply IH].
    split; intros _; eauto.
Qed.

Lemma find_session_None_ids {M} sessionId (l : list (AISession.t M)) :
  find_session sessionId l = None <->
  forall r, In r l -> AISession.id r <> sessionId.
Proof.
  induction l as [|x l IH]; simpl.
  - split; [intros _ r []|reflexivity].
  - destruct (decide (AISession.id x = sessionId)) as [E|NE].
    + split; [discriminate|]. intros H. now destruct (H x (or_introl eq_refl)).
    + rewrite IH. split.
      * intros H r [<-|Hr]; auto.
      * intros H r Hr. apply H. now right.
Qed.

End Heap_facts.

(** ** useAISessions: delete, switch and load *)

Section Hook_facts.
Import useAISessions.
Variable projectId : string.

Lemma deleteSession_sessions sessionId st :
  sessions (snd (deleteSession projectId sessionId st))
  = List.filter (fun s => negb (bool_decide (AISession.id s = sessionId)))
      (sessions st)
  /\ fst (deleteSession projectId sessionId st) = true.
Proof.
  unfold deleteSession. destruct (activeSession st) as [a|]; [|now split].
  now destruct (decide (AISession.id a = sessionId)).
Qed.

Lemma find_session_elem_of {M} sessionId (l : list (AISession.t M)) :
  is_Some (find_session sessionId l) <-> sessionId ∈ map AISession.id l.
Proof.
  induction l as [|x l IH]; simpl.
  - split; [intros [? [=]]|intros H; inversion H].
  - destruct (decide (AISession.id x = sessionId)) as [E|NE].
    + split; [intros _; rewrite E; left|eauto].
    + rewrite IH. split; [now right|].
      intros H. inversion H; subst; [congruence|assumption].
Qed.

Lemma filter_local_view h (backendSessions localSessions : list SessionObj)
    (backendValues : list StoredSession) :
  map AISession.id backendSessions = map AISession.id backendValues ->
  map (view h)
    (List.filter
       (fun localSession =>
          negb (bool_decide
                  (is_Some (find_session (AISession.id localSession)
                              backendSessions))))
       localSessions)
  = List.filter
      (fun s => bool_decide (AISession.id s ∉ map AISession.id backendValues))
      (map (view h) localSessions).
Proof.
  intros Hids. induction localSessions as [|x l IH]; simpl; [reflexivity|].
  rewrite <- bool_decide_not.
  rewrite (bool_decide_ext
             (¬ is_Some (find_session (AISession.id x) backendSessions))
             (AISession.id x ∉ map AISession.id backendValues)).
  - destruct (bool_decide (AISession.id x ∉ map AISession.id backendValues));
      simpl; now rewrite IH.
  - now rewrite find_session_elem_of, Hids.
Qed.

End Hook_facts.

(** C5.  Whatever the state, after [deleteSession id] (which returns true)
    [switchSession id] returns false and sets the error; and in any state
    whose session list holds no session under [id], [switchSession id]
    returns false, sets the error to "Session not found" and changes
    nothing else. *)
Theorem deleteSession_then_switchSession projectId sessionId st :
  let st1 := snd (useAISessions.deleteSession projectId sessionId st) in
  fst (useAISessions.deleteSession projectId sessionId st) = true
  /\ fst (useAISessions.switchSession projectId sessionId st1) = false
  /\ useAISessions.error
       (snd (useAISessions.switchSession projectId sessionId st1))
     = Some "Session not found"
  /\ (forall st0,
        find_session sessionId (useAISessions.sessions st0) = None ->
        useAISessions.switchSession projectId sessionId st0
        = (false,
           {| useAISessions.sessions := useAISessions.sessions st0;
              useAISessions.activeSession := useAISessions.activeSession st0;
              useAISessions.isLoading := useAISessions.isLoading st0;
              useAISessions.error := Some "Session not found";
              useAISessions.heap := useAISessions.heap st0;
              useAISessions.storage := useAISessions.storage st0 |})).
Proof.
  intros st1.
  destruct (deleteSession_sessions projectId sessionId st) as [Hsessions Htrue].
  assert (find_session sessionId (useAISessions.sessions st1) = None) as Hgone.
  { subst st1. rewrite Hsessions. apply find_session_filter_out. }
  unfold useAISessions.switchSession. rewrite Hgone. simpl.
  repeat split; [exact Htrue|].
  intros st0 ->. reflexivity.
Qed.

Lemma deleteSession_then_switchSession_witness :
  find_session "ai_session_1"
    (useAISessions.sessions (useAISessions.initial sample_storage)) = None
  /\ fst (useAISessions.switchSession "default" "ai_session_1"
            (useAISessions.initial sample_storage)) = false.
Proof.
  destruct (deleteSession_then_switchSession "default" "ai_session_1"
              (useAISessions.initial sample_storage)) as (_ & _ & _ & Hnone).
  split; [reflexivity|].
  now rewrite (Hnone (useAISessions.initial sample_storage) eq_refl).
Defined.

(** C6.  When the remote fetch of [loadSessions] succeeds with
    [backendSessions], the session list of the hook reads as the union of
    the remote and the local sessions: every remote session as it came,
    followed by the local sessions of the project whose id does not occur
    among the remote ones.  That union is what [saveSessions] is called
    with: on a stored collection it replaces the sessions of the project, on
    an absent item it becomes the collection. *)
Theorem loadSessions_merge projectId backendSessions st :
  let ls := useAISessions.storage st in
  let st' := useAISessions.loadSessions projectId
               (useAISessions.Ok backendSessions) st in
  let merged :=
    union_remote_first backendSessions
      (sessionStorage.getSessions projectId ls) in
  map (useAISessions.view (useAISessions.heap st')) (useAISessions.sessions st')
  = merged
  /\ useAISessions.storage st'
     = snd (sessionStorage.saveSessions projectId merged ls)
  /\ (forall allSessions, ls_sessions ls = Json allSessions ->
        ls_sessions (useAISessions.storage st')
        = Json (List.filter
                  (fun s => negb (bool_decide (AISession.projectId s = projectId)))
                  allSessions ++ merged))
  /\ (ls_sessions ls = Missing ->
        ls_sessions (useAISessions.storage st') = Json merged).
Proof.
  intros ls st' merged.
  assert (map (useAISessions.view (useAISessions.heap st'))
            (useAISessions.sessions st') = merged
          /\ useAISessions.storage st'
             = snd (sessionStorage.saveSessions projectId merged ls))
    as [Hview Hsave].
  { subst st' merged. unfold useAISessions.loadSessions. fold ls.
    destruct (useAISessions.alloc_all (sessionStorage.getSessions projectId ls)
                (useAISessions.heap st)) as [localSessions h1] eqn:E1.
    destruct (alloc_all_spec _ _ _ _ E1) as (e1 & -> & Hv1 & Hval1 & _).
    set (act := match sessionStorage.getActiveSession projectId ls with
                | Some activeSessionId => _
                | None => _
                end).
    assert (exists e2, snd act = (useAISessions.heap st ++ e1) ++ e2)
      as [e2 He2].
    { subst act. destruct (sessionStorage.getActiveSession projectId ls);
        [|exists []; now rewrite app_nil_r].
      destruct (sessionStorage.getSession s ls) as [v|];
        [|exists []; now rewrite app_nil_r].
      destruct (useAISessions.alloc v (useAISessions.heap st ++ e1))
        as [a h] eqn:Ea.
      destruct (alloc_spec _ _ _ _ Ea) as (e & -> & _). now exists e. }
    destruct act as [active1 h2]. simpl in He2. subst h2.
    destruct (useAISessions.alloc_all backendSessions
                ((useAISessions.heap st ++ e1) ++ e2)) as [backendObjs h3] eqn:E3.
    destruct (alloc_all_spec _ _ _ _ E3) as (e3 & -> & Hv3 & Hval3 & Hid3).
    cbn [useAISessions.heap useAISessions.sessions useAISessions.storage].
    assert (map (useAISessions.view
                   (((useAISessions.heap st ++ e1) ++ e2) ++ e3))
              (backendObjs
               ++ List.filter
                    (fun localSession =>
                       negb (bool_decide
                               (is_Some (find_session (AISession.id localSession)
                                           backendObjs))))
                    localSessions)
            = union_remote_first backendSessions
                (sessionStorage.getSessions projectId ls)) as Hm.
    { unfold union_remote_first. rewrite map_app, Hv3. f_equal.
      rewrite (filter_local_view _ backendObjs localSessions backendSessions Hid3).
      f_equal. rewrite <- app_assoc, map_view_app by assumption. exact Hv1. }
    split; [exact Hm|]. now rewrite Hm. }
  repeat split; try assumption.
  - intros allSessions Hls. rewrite Hsave.
    unfold sessionStorage.saveSessions. now rewrite Hls.
  - intros Hls. rewrite Hsave.
    unfold sessionStorage.saveSessions. now rewrite Hls.
Qed.

Lemma loadSessions_merge_witness :
  ls_sessions sample_storage = Json [sample_session]
  /\ ls_sessions
       (useAISessions.storage
          (useAISessions.loadSessions "default"
             (useAISessions.Ok [remote_only])
             (useAISessions.initial sample_storage)))
     = Json [remote_only; sample_session].
Proof.
  split; [reflexivity|].
  destruct (loadSessions_merge "default" [remote_only]
              (useAISessions.initial sample_storage)) as (_ & _ & Hstored & _).
  exact (Hstored [sample_session] eq_refl).
Defined.

(** On an id collision the remote entry wins; a local-only entry is kept
    behind the remote ones. *)
Example loadSessions_remote_wins :
  let st' := useAISessions.loadSessions "default"
               (useAISessions.Ok [remote_copy])
               (useAISessions.initial sample_storage) in
  map (useAISessions.view (useAISessions.heap st')) (useAISessions.sessions st')
  = [remote_copy].
Proof. reflexivity. Qed.

(** ** useAISessions: the active session and its list entry *)

Section Sync_facts.
Import useAISessions.
Implicit Types (h : list SessionMetadata) (s e : SessionObj)
  (l : list SessionObj).

Lemma appended_bump s message now h :
  appended s message now h
  = (AISession.with_message s message now, bump h s message now).
Proof.
  unfold appended, bump. simpl.
  destruct (AISession.metadata s) as [a|]; [|reflexivity].
  destruct (h !! a); [|reflexivity].
  rewrite length_app. simpl. now rewrite Nat.add_1_r.
Qed.

Lemma length_bump h s message now : length (bump h s message now) = length h.
Proof.
  unfold bump. destruct (AISession.metadata s) as [a|]; [|reflexivity].
  destruct (h !! a); [|reflexivity]. apply length_insert.
Qed.

Lemma bump_lookup_eq h s message now a :
  AISession.metadata s = Some a ->
  bump h s message now !! a
  = (fun md => update_metadata md (S (length (AISession.messages s))) now message)
      <$> h !! a.
Proof.
  intros E. unfold bump. rewrite E.
  destruct (h !! a) as [md|] eqn:Ea; simpl; [|now rewrite Ea].
  apply list_lookup_insert_eq. now apply lookup_lt_Some in Ea.
Qed.

Lemma bump_lookup_ne h s message now a :
  AISession.metadata s <> Some a ->
  bump h s message now !! a = h !! a.
Proof.
  intros NE. unfold bump. destruct (AISession.metadata s) as [b|]; [|reflexivity].
  destruct (h !! b); [|reflexivity].
  apply list_lookup_insert_ne. congruence.
Qed.

Lemma addresses_spec l addr :
  addr ∈ addresses l <->
  exists e, In e l /\ AISession.metadata e = Some addr.
Proof.
  unfold addresses. rewrite list_elem_of_omap. split.
  - intros (e & He & Hm). exists e. split; [|assumption].
    now apply list_elem_of_In.
  - intros (e & He & Hm). exists e. split; [|assumption].
    now apply list_elem_of_In.
Qed.

Lemma addresses_cons s l :
  addresses (s :: l)
  = match AISession.metadata s with
    | Some a => a :: addresses l
    | None => addresses l
    end.
Proof. reflexivity. Qed.

Lemma addresses_unique l x e addr :
  NoDup (addresses l) -> In x l -> In e l ->
  AISession.metadata x = Some addr -> AISession.metadata e = Some addr ->
  x = e.
Proof.
  induction l as [|s l IH]; intros Hnd Hx He Mx Me; [destruct Hx|].
  rewrite addresses_cons in Hnd.
  destruct Hx as [<-|Hx], He as [<-|He]; [reflexivity| | |].
  - rewrite Mx in Hnd. apply NoDup_cons in Hnd as [Hnot _].
    destruct Hnot. apply addresses_spec. eauto.
  - rewrite Me in Hnd. apply NoDup_cons in Hnd as [Hnot _].
    destruct Hnot. apply addresses_spec. eauto.
  - apply IH; try assumption.
    destruct (AISession.metadata s); [|assumption].
    now apply NoDup_cons in Hnd as [_ ?].
Qed.

(** What the updater of the session list does to the list and to the
    heap. *)
Lemma map_appended_spec sessionId message now l h l' h' :
  map_appended sessionId message now l h = (l', h') ->
  l' = map (fun s => if decide (AISession.id s = sessionId)
                     then AISession.with_message s message now else s) l
  /\ length h' = length h
  /\ (forall addr,
        (forall e, In e l -> AISession.id e = sessionId ->
                   AISession.metadata e <> Some addr) ->
        h' !! addr = h !! addr)
  /\ (NoDup (addresses l) ->
      forall e addr, In e l -> AISession.id e = sessionId ->
        AISession.metadata e = Some addr ->
        h' !! addr
        = (fun md => update_metadata md (S (length (AISession.messages e)))
                       now message) <$> h !! addr).
Proof.
  revert h l' h'. induction l as [|s l IH]; intros h l' h'; cbn [map_appended].
  - intros [= <- <-]. repeat split. intros _ e addr [].
  - destruct (decide (AISession.id s = sessionId)) as [E|NE].
    + rewrite appended_bump.
      destruct (map_appended sessionId message now l (bump h s message now))
        as [r h2] eqn:Er. intros [= <- <-].
      destruct (IH _ _ _ Er) as (-> & Hlen & Hframe & Hhit).
      split; [simpl; now rewrite decide_True|].
      split; [now rewrite Hlen, length_bump|]. split.
      * intros addr Hfree.
        rewrite Hframe
          by (intros x Hx Hid; apply Hfree; [now right|assumption]).
        apply bump_lookup_ne. apply Hfree; [now left|assumption].
      * intros Hnd e addr He Hid Hm. rewrite addresses_cons in Hnd.
        destruct He as [<-|He].
        -- rewrite Hm in Hnd. apply NoDup_cons in Hnd as [Hnot _].
           rewrite Hframe; [now apply bump_lookup_eq|].
           intros x Hx _ Mx. apply Hnot, addresses_spec. eauto.
        -- assert (NoDup (addresses l)) as Hnd'.
           { destruct (AISession.metadata s); [|assumption].
             now apply NoDup_cons in Hnd as [_ ?]. }
           rewrite (Hhit Hnd' e addr He Hid Hm). f_equal.
           apply bump_lookup_ne. intros Ms. rewrite Ms in Hnd.
           apply NoDup_cons in Hnd as [Hnot _].
           apply Hnot, addresses_spec. eauto.
    + destruct (map_appended sessionId message now l h) as [r h2] eqn:Er.
      intros [= <- <-].
      destruct (IH _ _ _ Er) as (-> & Hlen & Hframe & Hhit).
      split; [simpl; now rewrite decide_False|].
      split; [assumption|]. split.
      * intros addr Hfree. apply Hframe.
        intros x Hx Hid. apply Hfree; [now right|assumption].
      * intros Hnd e addr He Hid Hm. rewrite addresses_cons in Hnd.
        destruct He as [<-|He]; [congruence|].
        apply Hhit; try assumption.
        destruct (AISession.metadata s); [|assumption].
        now apply NoDup_cons in Hnd as [_ ?].
Qed.

End Sync_facts.

Section View_facts.
Import useAISessions.
Implicit Types (h : list SessionMetadata) (s e : SessionObj)
  (l : list SessionObj) (g : SessionObj -> SessionObj).

Lemma view_deref h s : view h s = AISession.with_metadata s (deref h s).
Proof. reflexivity. Qed.

Lemma view_eq_parts h e s :
  view h e = view h s ->
  AISession.messages e = AISession.messages s /\ deref h e = deref h s.
Proof.
  rewrite !view_deref. destruct e, s; simpl. intros [=]. now subst.
Qed.

Lemma view_heap_change h h' e s :
  view h e = view h s -> deref h' e = deref h' s -> view h' e = view h' s.
Proof.
  rewrite !view_deref. intros Hv ->. destruct e, s; simpl in *.
  injection Hv as -> -> -> -> -> -> -> -> -> _. reflexivity.
Qed.

Lemma view_with_title h e s title :
  view h e = view h s ->
  view h (AISession.with_title e title) = view h (AISession.with_title s title).
Proof.
  rewrite !view_deref. destruct e, s; unfold deref; simpl.
  intros [=]. subst.
  unfold AISession.with_metadata, AISession.with_title,
    AISession.with_message; simpl. congruence.
Qed.

Lemma view_with_message h e s message now :
  view h e = view h s ->
  view h (AISession.with_message e message now)
  = view h (AISession.with_message s message now).
Proof.
  rewrite !view_deref. destruct e, s; unfold deref; simpl.
  intros [=]. subst.
  unfold AISession.with_metadata, AISession.with_title,
    AISession.with_message; simpl. congruence.
Qed.

Lemma valid_lookup h s a :
  valid h s -> AISession.metadata s = Some a -> is_Some (h !! a).
Proof. intros Hv Ha. apply lookup_lt_is_Some_2, Hv, Ha. Qed.

Lemma addresses_map g l :
  (forall s, AISession.metadata (g s) = AISession.metadata s) ->
  addresses (map g l) = addresses l.
Proof.
  intros Hg. induction l as [|s l IH]; [reflexivity|].
  simpl map. rewrite !addresses_cons, Hg, IH. reflexivity.
Qed.

Lemma Forall_valid_map g h h' l :
  (forall s, AISession.metadata (g s) = AISession.metadata s) ->
  length h' = length h ->
  Forall (valid h) l -> Forall (valid h') (map g l).
Proof.
  intros Hg Hlen. induction 1 as [|s l Hs _ IH]; simpl; constructor;
    [|assumption].
  intros a Ha. rewrite Hg in Ha. rewrite Hlen. now apply Hs.
Qed.

Lemma addresses_filter (P : SessionObj -> bool) l addr :
  addr ∈ addresses (List.filter P l) -> addr ∈ addresses l.
Proof.
  rewrite !addresses_spec. intros (e & He & Hm).
  apply filter_In in He as [He _]. eauto.
Qed.

Lemma NoDup_addresses_filter (P : SessionObj -> bool) l :
  NoDup (addresses l) -> NoDup (addresses (List.filter P l)).
Proof.
  induction l as [|s l IH]; [trivial|]. rewrite addresses_cons. simpl.
  intros Hnd.
  assert (NoDup (addresses l)) as Hnd'.
  { destruct (AISession.metadata s); [|assumption].
    now apply NoDup_cons in Hnd as [_ ?]. }
  destruct (P s); [|auto]. rewrite addresses_cons.
  destruct (AISession.metadata s) as [a|]; [|auto].
  apply NoDup_cons in Hnd as [Hnot _]. apply NoDup_cons. split; [|auto].
  intros Hin. apply Hnot. eapply addresses_filter, Hin.
Qed.

Lemma Forall_valid_filter (P : SessionObj -> bool) h l :
  Forall (valid h) l -> Forall (valid h) (List.filter P l).
Proof.
  induction 1 as [|s l Hs _ IH]; simpl; [constructor|].
  destruct (P s); [constructor|]; assumption.
Qed.

Lemma addresses_app l l' : addresses (l ++ l') = addresses l ++ addresses l'.
Proof.
  induction l as [|s l IH]; [reflexivity|].
  simpl app. rewrite !addresses_cons, IH.
  now destruct (AISession.metadata s).
Qed.

Lemma addresses_valid h l addr :
  Forall (valid h) l -> addr ∈ addresses l -> (addr < length h)%nat.
Proof.
  intros Hall Hin. apply addresses_spec in Hin as (e & He & Hm).
  rewrite Forall_forall in Hall. apply (Hall e); [|assumption].
  now apply list_elem_of_In.
Qed.

End View_facts.

Section Preservation.
Import useAISessions.
Variable projectId : string.

(** Both properties read the session list, the active session and the heap
    only. *)
Lemma same_memory st st' :
  sessions st' = sessions st -> activeSession st' = activeSession st ->
  heap st' = heap st ->
  aliasing_ok st /\ in_sync st -> aliasing_ok st' /\ in_sync st'.
Proof.
  unfold aliasing_ok, in_sync. intros -> -> ->. trivial.
Qed.

Lemma createSession_preserves service title sessionId now localeString st :
  aliasing_ok st ->
  let st' := snd (createSession projectId service title sessionId now
                    localeString st) in
  aliasing_ok st' /\ in_sync st'.
Proof.
  intros (Hnd & Hval & Hact). unfold aliasing_ok, in_sync. simpl.
  set (new := createAISession projectId service title sessionId now
                localeString (length (heap st))).
  split; [split; [|split]|].
  - rewrite addresses_app. apply NoDup_app. split; [assumption|].
    split; [|apply NoDup_singleton].
    intros x Hx Hin. apply list_elem_of_singleton in Hin. subst x.
    apply (addresses_valid _ _ _ Hval) in Hx. lia.
  - apply Forall_app. split.
    + eapply Forall_impl; [exact Hval|]. intros s Hs. now apply valid_app.
    + constructor; [|constructor]. intros a [= <-].
      rewrite length_app. simpl. lia.
  - intros a [= <-]. split.
    + intros a [= <-]. rewrite length_app. simpl. lia.
    + left. apply in_or_app. right. now left.
  - intros a [= <-]. exists new. split; [|now split].
    apply in_or_app. right. now left.
Qed.

Lemma switchSession_preserves sessionId st :
  aliasing_ok st -> in_sync st ->
  let st' := snd (switchSession projectId sessionId st) in
  aliasing_ok st' /\ in_sync st'.
Proof.
  intros Hok Hsync. unfold switchSession.
  destruct (find_session sessionId (sessions st)) as [session|] eqn:Hfind; simpl.
  - destruct Hok as (Hnd & Hval & Hact).
    pose proof (find_session_In _ _ _ Hfind) as Hin.
    unfold aliasing_ok, in_sync. simpl. split; [split; [|split]|];
      try assumption.
    + intros a [= <-]. split; [|now left].
      rewrite Forall_forall in Hval. apply Hval. now apply list_elem_of_In.
    + intros a [= <-]. exists session. now repeat split.
  - now apply (same_memory st).
Qed.

Lemma deleteSession_preserves sessionId st :
  aliasing_ok st -> in_sync st ->
  let st' := snd (deleteSession projectId sessionId st) in
  aliasing_ok st' /\ in_sync st'.
Proof.
  intros (Hnd & Hval & Hact) Hsync. unfold deleteSession.
  set (keep := fun s : SessionObj =>
                 negb (bool_decide (AISession.id s = sessionId))).
  assert (forall s, In s (sessions st) -> AISession.id s <> sessionId ->
                    In s (List.filter keep (sessions st))) as Hkept.
  { intros s Hs Hid. apply filter_In. split; [assumption|].
    unfold keep. now rewrite bool_decide_false. }
  destruct (activeSession st) as [a|] eqn:Ea.
  - destruct (decide (AISession.id a = sessionId)) as [E|NE];
      unfold aliasing_ok, in_sync; simpl.
    + split; [split; [|split]|]; try discriminate.
      * now apply NoDup_addresses_filter.
      * now apply Forall_valid_filter.
    + destruct (Hact a eq_refl) as [Hva Hali].
      split; [split; [|split]|].
      * now apply NoDup_addresses_filter.
      * now apply Forall_valid_filter.
      * intros ? [= <-]. split; [assumption|].
        destruct Hali as [Hin|Hfree]; [left; now apply Hkept|].
        right. intros addr Hm Hin. apply (Hfree addr Hm).
        eapply addresses_filter, Hin.
      * intros ? [= <-]. destruct (Hsync a Ea) as (e & He & Hid & Hv).
        exists e. split; [|now split]. apply Hkept; [assumption|congruence].
  - unfold aliasing_ok, in_sync; simpl.
    split; [split; [|split]|]; try discriminate.
    + now apply NoDup_addresses_filter.
    + now apply Forall_valid_filter.
Qed.

Lemma updateSessionTitle_preserves sessionId title now st :
  aliasing_ok st -> in_sync st ->
  let st' := snd (updateSessionTitle sessionId title now st) in
  aliasing_ok st' /\ in_sync st'.
Proof.
  intros Hok Hsync. unfold updateSessionTitle.
  destruct (sessionStorage.updateSession sessionId
              (AISession.only_title title) now (storage st))
    as [[|] ls1]; simpl; [|now apply (same_memory st)].
  destruct Hok as (Hnd & Hval & Hact).
  set (g := fun session : SessionObj =>
              if decide (AISession.id session = sessionId)
              then AISession.with_title session title else session).
  assert (forall s, AISession.metadata (g s) = AISession.metadata s) as Hg.
  { intros s. unfold g. now destruct (decide (AISession.id s = sessionId)). }
  assert (forall s, AISession.id (g s) = AISession.id s) as Hgid.
  { intros s. unfold g. now destruct (decide (AISession.id s = sessionId)). }
  assert (match activeSession st with
          | Some prev =>
              if decide (AISession.id prev = sessionId)
              then Some (AISession.with_title prev title) else Some prev
          | None => None
          end = g <$> activeSession st) as Hactive.
  { destruct (activeSession st) as [prev|]; [|reflexivity]. simpl. unfold g.
    now destruct (decide (AISession.id prev = sessionId)). }
  unfold aliasing_ok, in_sync. simpl. rewrite Hactive.
  split; [split; [|split]|].
  - now rewrite addresses_map.
  - now apply (Forall_valid_map g (heap st)).
  - intros a' Ha'. destruct (activeSession st) as [a|] eqn:Ea; [|discriminate].
    injection Ha' as <-. destruct (Hact a eq_refl) as [Hva Hali]. split.
    + intros addr Hm. rewrite Hg in Hm. now apply Hva.
    + rewrite addresses_map by assumption. rewrite Hg.
      destruct Hali as [Hin|Hfree]; [left; now apply in_map|now right].
  - intros a' Ha'. destruct (activeSession st) as [a|] eqn:Ea; [|discriminate].
    injection Ha' as <-. destruct (Hsync a Ea) as (e & He & Hid & Hv).
    exists (g e). split; [now apply in_map|]. split; [now rewrite !Hgid|].
    unfold g. rewrite Hid.
    destruct (decide (AISession.id a = sessionId)); [|assumption].
    now apply view_with_title.
Qed.

Lemma addMessage_preserves sessionId message now st :
  aliasing_ok st -> in_sync st ->
  let st' := snd (addMessage sessionId message now st) in
  aliasing_ok st' /\ in_sync st'.
Proof.
  intros Hok Hsync. unfold addMessage.
  destruct (sessionStorage.addMessage sessionId message now (storage st))
    as [[|] ls1]; simpl; [|now apply (same_memory st)].
  destruct Hok as (Hnd & Hval & Hact).
  destruct (map_appended sessionId message now (sessions st) (heap st))
    as [sessions' h1] eqn:Em.
  destruct (map_appended_spec _ _ _ _ _ _ _ Em) as (-> & Hlen1 & Hframe & Hhit).
  specialize (Hhit Hnd).
  set (f := fun s : SessionObj =>
              if decide (AISession.id s = sessionId)
              then AISession.with_message s message now else s) in *.
  assert (forall s, AISession.metadata (f s) = AISession.metadata s) as Hf.
  { intros s. unfold f. now destruct (decide (AISession.id s = sessionId)). }
  assert (forall s, AISession.id s = sessionId ->
                    f s = AISession.with_message s message now) as Hf_hit.
  { intros s Hs. unfold f. now rewrite decide_True. }
  assert (forall s, AISession.id s <> sessionId -> f s = s) as Hf_miss.
  { intros s Hs. unfold f. now rewrite decide_False. }
  assert (NoDup (addresses (map f (sessions st)))) as Hnd'
    by now rewrite addresses_map.
  destruct (activeSession st) as [a|] eqn:Ea.
  2: { unfold aliasing_ok, in_sync. simpl.
       split; [split; [|split]|]; try discriminate; [assumption|].
       now apply (Forall_valid_map f (heap st)). }
  destruct (Hact a eq_refl) as [Hva Hali].
  destruct (Hsync a Ea) as (e & He & Hid & Hv).
  destruct (view_eq_parts _ _ _ Hv) as [Hmsgs Hd].
  destruct (decide (AISession.id a = sessionId)) as [E|NE].
  - rewrite appended_bump. unfold aliasing_ok, in_sync. simpl.
    split; [split; [|split]|].
    + assumption.
    + apply (Forall_valid_map f (heap st)); try assumption.
      now rewrite length_bump.
    + intros ? [= <-]. split.
      * intros addr Hm. rewrite length_bump, Hlen1. now apply Hva.
      * rewrite addresses_map by assumption.
        destruct Hali as [Hin|Hfree]; [left|now right].
        rewrite <- (Hf_hit a E). now apply in_map.
    + intros ? [= <-]. destruct Hali as [Hin|Hfree].
      * exists (AISession.with_message a message now).
        split; [|now split]. rewrite <- (Hf_hit a E). now apply in_map.
      * exists (AISession.with_message e message now).
        split; [rewrite <- (Hf_hit e) by congruence; now apply in_map|].
        split; [exact Hid|].
        apply view_with_message.
        apply (view_heap_change (heap st)); [exact Hv|].
        unfold deref in *.
        destruct (AISession.metadata a) as [addr|] eqn:Ma.
        -- destruct (valid_lookup _ _ _ Hva Ma) as [md Hmd]. rewrite Hmd in Hd.
           destruct (AISession.metadata e) as [ae|] eqn:Me; [|discriminate Hd].
           assert (ae <> addr) as Hne.
           { intros ->. apply (Hfree addr eq_refl), addresses_spec. eauto. }
           rewrite bump_lookup_ne by (rewrite Ma; congruence).
           rewrite (bump_lookup_eq _ _ _ _ _ Ma).
           rewrite (Hhit e ae He) by congruence.
           rewrite Hframe.
           ++ rewrite Hd, Hmd, Hmsgs. reflexivity.
           ++ intros x Hx _ Mx. apply (Hfree addr eq_refl), addresses_spec. eauto.
        -- destruct (AISession.metadata e) as [ae|] eqn:Me; [|reflexivity].
           rewrite Forall_forall in Hval.
           destruct (valid_lookup (heap st) e ae) as [md Hmd];
             [apply Hval; now apply list_elem_of_In|assumption|].
           congruence.
  - unfold aliasing_ok, in_sync. simpl.
    assert (forall x ax, In x (sessions st) -> AISession.id x <> sessionId ->
                         AISession.metadata x = Some ax ->
                         h1 !! ax = heap st !! ax) as Hentry.
    { intros x ax Hx Hxid Mx. apply Hframe. intros y Hy Hyid My.
      apply Hxid. rewrite <- Hyid. f_equal.
      now apply (addresses_unique (sessions st) x y ax). }
    split; [split; [|split]|].
    + assumption.
    + now apply (Forall_valid_map f (heap st)).
    + intros ? [= <-]. split.
      * intros addr Hm. rewrite Hlen1. now apply Hva.
      * rewrite addresses_map by assumption.
        destruct Hali as [Hin|Hfree]; [left|now right].
        rewrite <- (Hf_miss a NE). now apply in_map.
    + intros ? [= <-]. exists e.
      split; [rewrite <- (Hf_miss e) by congruence; now apply in_map|].
      split; [exact Hid|].
      apply (view_heap_change (heap st)); [exact Hv|].
      unfold deref in *.
      assert (match AISession.metadata e with
              | Some x => h1 !! x
              | None => None
              end
              = match AISession.metadata e with
                | Some x => heap st !! x
                | None => None
                end) as ->.
      { destruct (AISession.metadata e) as [ae|] eqn:Me; [|reflexivity].
        apply (Hentry e ae); [assumption|congruence|assumption]. }
      rewrite Hd.
      destruct (AISession.metadata a) as [addr|] eqn:Ma; [|reflexivity].
      symmetry. destruct Hali as [Hin|Hfree].
      * now apply (Hentry a addr).
      * apply Hframe. intros x Hx _ Mx.
        apply (Hfree addr eq_refl), addresses_spec. eauto.
Qed.

End Preservation.

(** The aliasing discipline holds of the first state of the hook and
    [loadSessions] keeps it, like the five operations above: every state
    that the hook reaches satisfies it. *)

Section Loading.
Import useAISessions.

Lemma initial_ok ls : aliasing_ok (initial ls) /\ in_sync (initial ls).
Proof.
  unfold aliasing_ok, in_sync. simpl.
  split; [split; [|split]|]; try discriminate; constructor.
Qed.

Lemma alloc_address (v : StoredSession) h s h' addr :
  alloc v h = (s, h') -> AISession.metadata s = Some addr -> addr = length h.
Proof.
  unfold alloc. destruct (AISession.metadata v); intros [= <- <-]; simpl;
    congruence.
Qed.

Lemma alloc_all_addresses (vs : list StoredSession) h l h' :
  alloc_all vs h = (l, h') ->
  NoDup (addresses l)
  /\ forall addr, addr ∈ addresses l -> (length h <= addr < length h')%nat.
Proof.
  revert h l h'. induction vs as [|v vs IH]; intros h l h'; simpl.
  - intros [= <- <-]. split; [constructor|]. intros addr Hin. inversion Hin.
  - destruct (alloc v h) as [s h1] eqn:E1.
    destruct (alloc_all vs h1) as [r h2] eqn:E2. intros [= <- <-].
    destruct (alloc_spec _ _ _ _ E1) as (e1 & Hh1 & _ & Hval1 & _).
    destruct (alloc_all_spec _ _ _ _ E2) as (e2 & Hh2 & _).
    destruct (IH _ _ _ E2) as [Hnd Hrange].
    assert (length h <= length h1 <= length h2)%nat as Hlens.
    { subst h1 h2. rewrite !length_app. lia. }
    rewrite addresses_cons.
    destruct (AISession.metadata s) as [a|] eqn:Ms.
    + pose proof (alloc_address _ _ _ _ _ E1 Ms) as ->.
      pose proof (Hval1 _ Ms) as Hlt. split.
      * apply NoDup_cons. split; [|assumption].
        intros Hin. apply Hrange in Hin. lia.
      * intros addr Hin. apply elem_of_cons in Hin as [->|Hin]; [lia|].
        apply Hrange in Hin. lia.
    + split; [assumption|]. intros addr Hin. apply Hrange in Hin. lia.
Qed.

Lemma loadSessions_preserves projectId response st :
  aliasing_ok st -> aliasing_ok (loadSessions projectId response st).
Proof.
  intros (_ & _ & Hact). unfold loadSessions.
  destruct (alloc_all (sessionStorage.getSessions projectId (storage st))
              (heap st)) as [localSessions h1] eqn:E1.
  destruct (alloc_all_spec _ _ _ _ E1) as (e1 & Hh1 & _ & Hval1 & _).
  destruct (alloc_all_addresses _ _ _ _ E1) as [Hnd1 Hrange1].
  set (act := match sessionStorage.getActiveSession projectId (storage st) with
              | Some activeSessionId => _
              | None => _
              end).
  assert (exists e2, snd act = h1 ++ e2
            /\ forall a, fst act = Some a ->
                 valid (snd act) a
                 /\ forall addr, AISession.metadata a = Some addr ->
                      (addr < length (heap st) \/ addr = length h1)%nat)
    as (e2 & Hh2 & Hact1).
  { subst act.
    destruct (sessionStorage.getActiveSession projectId (storage st)) as [i|].
    - destruct (sessionStorage.getSession i (storage st)) as [v|].
      + destruct (alloc v h1) as [a h] eqn:Ea.
        destruct (alloc_spec _ _ _ _ Ea) as (e & -> & _ & Hva & _).
        exists e. split; [reflexivity|]. simpl. intros ? [= <-].
        split; [assumption|]. intros addr Hm. right.
        eapply alloc_address; eassumption.
      + exists []. simpl. split; [now rewrite app_nil_r|]. discriminate.
    - exists []. simpl. split; [now rewrite app_nil_r|].
      intros a Ea. destruct (Hact a Ea) as [Hva _]. split.
      + subst h1. now apply valid_app.
      + intros addr Hm. left. now apply Hva. }
  destruct act as [active1 h2]. simpl in Hh2, Hact1.
  assert (length (heap st) <= length h1 <= length h2)%nat as Hlens.
  { subst h1 h2. rewrite !length_app. lia. }
  assert (forall a, active1 = Some a -> forall addr,
            AISession.metadata a = Some addr -> addr ∉ addresses localSessions)
    as Hfree1.
  { intros a Ea addr Hm Hin. apply Hrange1 in Hin.
    destruct (Hact1 a Ea) as [_ Hwhere]. destruct (Hwhere addr Hm); lia. }
  destruct response as [|backendValues].
  - unfold aliasing_ok. simpl. split; [assumption|]. split.
    + subst h2. eapply Forall_impl; [exact Hval1|].
      intros s Hs. now apply valid_app.
    + intros a Ea. split; [now apply Hact1|]. right. now apply Hfree1.
  - destruct (alloc_all backendValues h2) as [backendSessions h3] eqn:E3.
    destruct (alloc_all_spec _ _ _ _ E3) as (e3 & Hh3 & _ & Hval3 & _).
    destruct (alloc_all_addresses _ _ _ _ E3) as [Hnd3 Hrange3].
    unfold aliasing_ok. simpl. split; [|split].
    + rewrite addresses_app. apply NoDup_app. split; [assumption|].
      split; [|now apply NoDup_addresses_filter].
      intros addr Hb Hl. apply Hrange3 in Hb.
      apply addresses_filter, Hrange1 in Hl. lia.
    + apply Forall_app. split; [assumption|].
      apply Forall_valid_filter. subst h3 h2.
      eapply Forall_impl; [exact Hval1|].
      intros s Hs. now apply valid_app, valid_app.
    + intros a Ea. destruct (Hact1 a Ea) as [Hva Hwhere]. split.
      * subst h3. now apply valid_app.
      * right. intros addr Hm. rewrite addresses_app.
        intros Hin. apply elem_of_app in Hin as [Hin|Hin].
        -- apply Hrange3 in Hin. pose proof (Hva addr Hm).
           destruct (Hwhere addr Hm); lia.
        -- apply addresses_filter in Hin. now apply (Hfree1 a Ea addr Hm).
Qed.

End Loading.

(** C2.  In a state of the hook in which the active session, when there is
    one, has an entry of its id in the session list that reads the same
    (same messages, title, metadata and all other fields), each of
    createSession, switchSession, deleteSession, updateSessionTitle and
    addMessage, with any arguments and whether it succeeds or fails, leads
    to a state in which that holds again.  The states are those with the
    aliasing between session objects that the hook produces
    ([aliasing_ok], which the first state has and every operation of the
    hook keeps). *)
Theorem active_session_in_sync projectId st :
  aliasing_ok st -> in_sync st ->
  (forall service title sessionId now localeString,
     let st' := snd (useAISessions.createSession projectId service title
                       sessionId now localeString st) in
     aliasing_ok st' /\ in_sync st')
  /\ (forall sessionId,
        let st' := snd (useAISessions.switchSession projectId sessionId st) in
        aliasing_ok st' /\ in_sync st')
  /\ (forall sessionId,
        let st' := snd (useAISessions.deleteSession projectId sessionId st) in
        aliasing_ok st' /\ in_sync st')
  /\ (forall sessionId title now,
        let st' := snd (useAISessions.updateSessionTitle sessionId title now st) in
        aliasing_ok st' /\ in_sync st')
  /\ (forall sessionId message now,
        let st' := snd (useAISessions.addMessage sessionId message now st) in
        aliasing_ok st' /\ in_sync st').
Proof.
  intros Hok Hsync. repeat split;
    first [ now apply createSession_preserves
          | now apply switchSession_preserves
          | now apply deleteSession_preserves
          | now apply updateSessionTitle_preserves
          | now apply addMessage_preserves ].
Qed.

Lemma active_session_in_sync_witness :
  aliasing_ok created_state
  /\ in_sync created_state
  /\ in_sync (snd (useAISessions.addMessage "ai_session_9" (sample_message 10)
                     2000%Z created_state)).
Proof.
  destruct (initial_ok empty_storage) as [Hok0 Hsync0].
  destruct (active_session_in_sync "default" (useAISessions.initial empty_storage)
              Hok0 Hsync0) as (Hcreate & _).
  destruct (Hcreate openAI None "ai_session_9" 1000%Z "1/1/2025")
    as [Hok1 Hsync1].
  destruct (active_session_in_sync "default" created_state Hok1 Hsync1)
    as (_ & _ & _ & _ & Hadd).
  destruct (Hadd "ai_session_9" (sample_message 10) 2000%Z) as [_ Hsync2].
  exact (conj Hok1 (conj Hsync1 Hsync2)).
Defined.

(** The session made by [createSession] is the active session and the list
    entry at once, so the two updaters of [addMessage] write to one
    metadata object: after a message of 10 tokens the hook reads 20 in
    both places, the storage 10. *)
Example addMessage_after_createSession :
  let st := snd (useAISessions.addMessage "ai_session_9" (sample_message 10)
                   2000%Z created_state) in
  option_map (fun a => option_map totalTokens (deref (useAISessions.heap st) a))
    (useAISessions.activeSession st)
  = Some (Some 20%Z)
  /\ map (fun s => option_map totalTokens (deref (useAISessions.heap st) s))
       (useAISessions.sessions st) = [Some 20%Z]
  /\ map (fun s => option_map totalTokens (AISession.metadata s))
       (sessionStorage.getSessions "default" (useAISessions.storage st))
     = [Some 10%Z].
Proof. vm_compute. repeat split. Qed.

(** ** aiClients: the streaming adapters *)

Section Split_facts.
Import aiClients.

Lemma split_newline_nonempty s : split_newline s <> [].
Proof.
  destruct s as [|c r]; simpl; [discriminate|].
  destruct (Ascii.eqb c newline); [discriminate|].
  destruct (split_newline r); discriminate.
Qed.

Lemma removelast_cons {A} (x : A) l : l <> [] -> removelast (x :: l) = x :: removelast l.
Proof. now destruct l. Qed.

Lemma last_cons {A} (x d : A) l : l <> [] -> List.last (x :: l) d = List.last l d.
Proof. now destruct l. Qed.

(** The buffer carried from one read to the next does what splitting the
    whole text does. *)
Lemma split_newline_app s t :
  split_newline (s ++ t)
  = removelast (split_newline s)
    ++ split_newline (List.last (split_newline s) EmptyString ++ t).
Proof.
  induction s as [|c r IH]; [reflexivity|]. simpl.
  pose proof (split_newline_nonempty r) as Hne.
  destruct (Ascii.eqb c newline) eqn:Ec.
  - rewrite removelast_cons, last_cons by assumption. simpl. now rewrite IH.
  - rewrite IH. destruct (split_newline r) as [|l [|x xs]]; [congruence| |].
    + simpl. rewrite Ec. reflexivity.
    + rewrite removelast_cons, last_cons by discriminate.
      rewrite (removelast_cons (String c l)) by discriminate.
      rewrite (last_cons (String c l)) by discriminate. reflexivity.
Qed.

(** The piece behind the last newline holds no newline. *)
Lemma split_newline_last s :
  split_newline (List.last (split_newline s) EmptyString)
  = [List.last (split_newline s) EmptyString].
Proof.
  induction s as [|c r IH]; [reflexivity|]. simpl.
  pose proof (split_newline_nonempty r) as Hne.
  destruct (Ascii.eqb c newline) eqn:Ec.
  - now rewrite last_cons.
  - destruct (split_newline r) as [|l [|x xs]]; [congruence| |].
    + simpl in *. rewrite Ec, IH. reflexivity.
    + rewrite last_cons by discriminate. rewrite last_cons in IH by discriminate.
      exact IH.
Qed.

Lemma append_cons c (r t : string) :
  (String c r ++ t)%string = String c (r ++ t)%string.
Proof. reflexivity. Qed.

Lemma append_empty_r s : (s ++ EmptyString)%string = s.
Proof.
  induction s as [|c r IH]; [reflexivity|]. now rewrite append_cons, IH.
Qed.

Lemma append_assoc s t u : ((s ++ t) ++ u)%string = (s ++ t ++ u)%string.
Proof.
  induction s as [|c r IH]; [reflexivity|]. now rewrite !append_cons, IH.
Qed.

Lemma complete_lines_app s t :
  complete_lines (s ++ t)
  = complete_lines s
    ++ complete_lines (List.last (split_newline s) EmptyString ++ t).
Proof.
  unfold complete_lines. rewrite split_newline_app.
  apply removelast_app, split_newline_nonempty.
Qed.

End Split_facts.

Section Stream_facts.
Import aiClients.
Variable JSON_parse : string -> option json.

Lemma for_lines_app l1 l2 :
  for_lines JSON_parse (l1 ++ l2)
  = let (ys1, returned1) := for_lines JSON_parse l1 in
    if returned1 then (ys1, true)
    else let (ys2, returned2) := for_lines JSON_parse l2 in
         (ys1 ++ ys2, returned2).
Proof.
  induction l1 as [|line rest IH]; cbn [for_lines app].
  - now destruct (for_lines JSON_parse l2).
  - destruct (String.prefix "data: " line); [|exact IH].
    destruct (String.eqb (slice 6 line) "[DONE]"); [reflexivity|].
    rewrite IH. destruct (for_lines JSON_parse rest) as [ys1 [|]];
      [reflexivity|].
    destruct (for_lines JSON_parse l2) as [ys2 r2]. now rewrite app_assoc.
Qed.

Lemma yielded_delta line data :
  payload line = Some data ->
  yielded JSON_parse data = option_list (delta JSON_parse line).
Proof.
  intros Hp. unfold yielded, delta, delta_as_stated. rewrite Hp.
  destruct (JSON_parse data) as [parsed|]; [|reflexivity].
  destruct (delta_content parsed) as [[content|]|]; try reflexivity.
  now destruct (truthy (Some content)).
Qed.

Lemma omap_cons_list {A B} (f : A -> option B) x l :
  omap f (x :: l) = option_list (f x) ++ omap f l.
Proof. cbn [omap list_omap]. now destruct (f x). Qed.

Lemma for_lines_deltas lines :
  fst (for_lines JSON_parse lines)
  = omap (delta JSON_parse) (until_terminator lines).
Proof.
  induction lines as [|line rest IH]; [reflexivity|].
  cbn [for_lines until_terminator]. unfold is_terminator.
  destruct (String.prefix "data: " line) eqn:Hpre.
  - assert (payload line = Some (slice 6 line)) as Hp
      by (unfold payload; now rewrite Hpre).
    rewrite Hp.
    destruct (String.eqb (slice 6 line) "[DONE]"); [reflexivity|].
    destruct (for_lines JSON_parse rest) as [ys returned]. cbn [fst] in *.
    now rewrite omap_cons_list, (yielded_delta _ _ Hp), IH.
  - assert (payload line = None) as Hp by (unfold payload; now rewrite Hpre).
    rewrite Hp, omap_cons_list, IH.
    assert (delta JSON_parse line = None) as ->; [|reflexivity].
    unfold delta, delta_as_stated. now rewrite Hp.
Qed.

Lemma read_loop_deltas chunks buffer :
  split_newline buffer = [buffer] ->
  read_loop JSON_parse chunks buffer
  = fst (for_lines JSON_parse (complete_lines (buffer ++ received chunks))).
Proof.
  revert buffer. induction chunks as [|value rest IH]; intros buffer Hbuf.
  - simpl. rewrite append_empty_r. unfold complete_lines. now rewrite Hbuf.
  - cbn [read_loop received].
    rewrite <- append_assoc, complete_lines_app, for_lines_app.
    fold (complete_lines (buffer ++ value)).
    destruct (for_lines JSON_parse (complete_lines (buffer ++ value)))
      as [ys [|]]; [reflexivity|].
    rewrite (IH _ (split_newline_last (buffer ++ value))).
    now destruct (for_lines JSON_parse
                    (complete_lines
                       (List.last (split_newline (buffer ++ value)) EmptyString
                        ++ received rest))).
Qed.

End Stream_facts.

(** C8, as the specification states it, fails: the line that opens a
    completion stream parses as JSON and has a content field, the empty
    string; the adapter yields nothing for it. *)
Lemma streamMessage_skips_empty_content :
  ~ (forall JSON_parse chunks,
       aiClients.streamMessage JSON_parse chunks
       = sse_deltas_as_stated JSON_parse (received chunks)).
Proof.
  intros H.
  specialize (H sample_parse [("data: " ++ first_event ++ nl)%string]).
  vm_compute in H. discriminate H.
Qed.

(** C8 (amended).  For every sequence of chunks, the adapter yields what
    the complete lines of the concatenated chunks give, line by line up to
    the first line whose payload is [DONE]: of a line that starts with
    'data: ', whose payload parses as JSON and whose
    [choices[0].delta.content] is truthy, that content; nothing of any other
    line (no 'data: ' prefix, malformed JSON, no content field, or an
    empty, null, false or zero content).  Where the chunk boundaries fall
    makes no difference, and the text behind the last newline is never
    read as a line. *)
Theorem streamMessage_deltas JSON_parse chunks :
  aiClients.streamMessage JSON_parse chunks
  = sse_deltas JSON_parse (received chunks).
Proof.
  unfold aiClients.streamMessage, sse_deltas.
  rewrite read_loop_deltas by reflexivity.
  apply for_lines_deltas.
Qed.

(** A line cut by a chunk boundary, the terminator, and a line behind the
    terminator that is not read any more. *)
Example streamMessage_sample :
  aiClients.streamMessage sample_parse
    [("data: " ++ first_event ++ nl ++ "data: " ++ hello_event ++ nl ++ "da")%string;
     ("ta: " ++ hello_event ++ nl ++ "data: [DONE]" ++ nl)%string;
     ("data: " ++ hello_event ++ nl)%string]
  = [JString "Hi"; JString "Hi"].
Proof. reflexivity. Qed.

(** ** useSettings *)

(** C9.  With no remote backend, [loadSettings] leaves the storage as it
    found it, and a second load yields the settings of the first (whatever
    the system colour preference at either load); with the same preference
    the whole state of the hook is the same after the second load. *)
Theorem loadSettings_idempotent prefersDark1 prefersDark2 st :
  let st1 := useSettings.loadSettings useSettings.Unavailable prefersDark1 st in
  let st2 := useSettings.loadSettings useSettings.Unavailable prefersDark2 st1 in
  useSettings.settings st2 = useSettings.settings st1
  /\ useSettings.storage st1 = useSettings.storage st
  /\ useSettings.storage st2 = useSettings.storage st
  /\ useSettings.loadSettings useSettings.Unavailable prefersDark1 st1 = st1.
Proof.
  intros st1 st2. subst st1 st2. unfold useSettings.loadSettings. simpl.
  repeat split.
Qed.

(** The load reads the stored document over the defaults and takes the
    stored key back to sk-1. *)
Example loadSettings_sample :
  let st := useSettings.loadSettings useSettings.Unavailable false
              (useSettings.initial settings_storage false) in
  settings.theme (useSettings.settings st) = settings.dark
  /\ settings.autoSave (useSettings.settings st) = false
  /\ settings.autoSaveInterval (useSettings.settings st) = 30%Z
  /\ settings.apiKey (settings.openAI (settings.aiServices (useSettings.settings st)))
     = [115; 107; 45; 49]
  /\ useSettings.darkClass st = true.
Proof. vm_compute. repeat split. Qed.

(* ===================================================================== *)
(** * Part III: further properties of the code                            *)
(* ===================================================================== *)

(** ** sessionStorage: the pointer to the active session *)

(** X1.  On an item that is absent or parses, [setActiveSession p sid]
    returns true, [getActiveSession p] then gives [sid] (nothing when
    [sid] is the empty string, which reads as falsy), the pointer of every
    other project is what it was, and the stored sessions are untouched. *)
Theorem setActiveSession_getActiveSession ls p sid :
  ls_active ls <> Garbled ->
  exists ls',
    sessionStorage.setActiveSession p sid ls = (true, ls')
    /\ sessionStorage.getActiveSession p ls'
       = (if decide (sid = "") then None else Some sid)
    /\ (forall q, q <> p ->
          sessionStorage.getActiveSession q ls'
          = sessionStorage.getActiveSession q ls)
    /\ ls_sessions ls' = ls_sessions ls.
Proof.
  intros Hok. unfold sessionStorage.setActiveSession.
  destruct (ls_active ls) as [| |activeSessionMap] eqn:Ha; [|congruence|];
    (eexists; split; [reflexivity|]);
    unfold sessionStorage.getActiveSession; simpl; rewrite ?Ha.
  - rewrite lookup_insert_eq. repeat split.
    intros q Hq. now rewrite lookup_insert_ne, lookup_empty.
  - rewrite lookup_insert_eq. repeat split.
    intros q Hq. now rewrite lookup_insert_ne.
Qed.

Lemma setActiveSession_getActiveSession_witness :
  ls_active sample_storage <> Garbled
  /\ exists ls',
       sessionStorage.setActiveSession "default" "ai_session_1" sample_storage
       = (true, ls')
       /\ sessionStorage.getActiveSession "default" ls' = Some "ai_session_1".
Proof.
  assert (ls_active sample_storage <> Garbled) as Hok by discriminate.
  split; [exact Hok|].
  destruct (setActiveSession_getActiveSession sample_storage "default"
              "ai_session_1" Hok) as (ls' & Hset & Hget & _).
  exists ls'. split; [exact Hset|exact Hget].
Defined.

(** X2.  On an item that is absent or parses, [clearActiveSession p]
    returns true, [getActiveSession p] then gives nothing, and the pointer
    of every other project is what it was. *)
Theorem clearActiveSession_getActiveSession ls p :
  ls_active ls <> Garbled ->
  exists ls',
    sessionStorage.clearActiveSession p ls = (true, ls')
    /\ sessionStorage.getActiveSession p ls' = None
    /\ (forall q, q <> p ->
          sessionStorage.getActiveSession q ls'
          = sessionStorage.getActiveSession q ls)
    /\ ls_sessions ls' = ls_sessions ls.
Proof.
  intros Hok. unfold sessionStorage.clearActiveSession.
  destruct (ls_active ls) as [| |activeSessionMap] eqn:Ha; [|congruence|];
    (eexists; split; [reflexivity|]);
    unfold sessionStorage.getActiveSession; simpl; rewrite ?Ha.
  - repeat split.
  - rewrite lookup_delete_eq. repeat split.
    intros q Hq. now rewrite lookup_delete_ne.
Qed.

Lemma clearActiveSession_getActiveSession_witness :
  ls_active sample_storage <> Garbled
  /\ exists ls',
       sessionStorage.clearActiveSession "default" sample_storage = (true, ls')
       /\ sessionStorage.getActiveSession "default" ls' = None.
Proof.
  assert (ls_active sample_storage <> Garbled) as Hok by discriminate.
  split; [exact Hok|].
  destruct (clearActiveSession_getActiveSession sample_storage "default" Hok)
    as (ls' & Hclear & Hget & _).
  exists ls'. split; [exact Hclear|exact Hget].
Defined.

(** ** sessionStorage: one session at a time *)

Section Frame_facts.
Context {M : Type}.
Implicit Types (l : list (AISession.t M)) (s : AISession.t M).

Lemma find_session_insert_other sessionId other l i s' :
  findIndex sessionId l = Some i -> AISession.id s' = sessionId ->
  other <> sessionId ->
  find_session other (<[i := s']> l) = find_session other l.
Proof.
  revert i. induction l as [|x l IH]; intros i; simpl; [discriminate|].
  destruct (decide (AISession.id x = sessionId)) as [E|NE].
  - intros [= <-] Hid Hother. simpl.
    rewrite !decide_False by congruence. reflexivity.
  - destruct (findIndex sessionId l) as [j|]; [|discriminate].
    intros [= <-] Hid Hother. simpl.
    destruct (decide (AISession.id x = other)); [reflexivity|].
    now apply IH.
Qed.

Lemma find_session_filter_other sessionId other l :
  other <> sessionId ->
  find_session other
    (List.filter (fun s => negb (bool_decide (AISession.id s = sessionId))) l)
  = find_session other l.
Proof.
  intros Hother. induction l as [|x l IH]; simpl; [reflexivity|].
  destruct (bool_decide_reflect (AISession.id x = sessionId)) as [E|NE]; simpl.
  - rewrite decide_False by congruence. exact IH.
  - destruct (decide (AISession.id x = other)); [reflexivity|exact IH].
Qed.

Lemma filter_filter_comm (P Q : AISession.t M -> bool) l :
  List.filter P (List.filter Q l) = List.filter Q (List.filter P l).
Proof.
  induction l as [|x l IH]; simpl; [reflexivity|].
  destruct (P x) eqn:HP, (Q x) eqn:HQ; simpl; rewrite ?HP, ?HQ, IH; reflexivity.
Qed.

End Frame_facts.

(** X3.  On a stored collection, [sessionStorage.deleteSession id] returns
    true and removes every session stored under [id]: [getSession id]
    then finds nothing, [getSession] of any other id finds what it found
    before, and each project reads its former sessions without those of
    [id]. *)
Theorem deleteSession_getSession ls allSessions sessionId :
  ls_sessions ls = Json allSessions ->
  exists ls',
    sessionStorage.deleteSession sessionId ls = (true, ls')
    /\ sessionStorage.getSession sessionId ls' = None
    /\ (forall other, other <> sessionId ->
          sessionStorage.getSession other ls'
          = sessionStorage.getSession other ls)
    /\ (forall p,
          sessionStorage.getSessions p ls'
          = List.filter
              (fun s => negb (bool_decide (AISession.id s = sessionId)))
              (sessionStorage.getSessions p ls))
    /\ ls_active ls' = ls_active ls.
Proof.
  intros Hls. unfold sessionStorage.deleteSession. rewrite Hls.
  eexists. split; [reflexivity|].
  unfold sessionStorage.getSession, sessionStorage.getSessions. simpl.
  rewrite Hls. repeat split.
  - apply find_session_filter_out.
  - intros other Hother. now apply find_session_filter_other.
  - intros p. apply filter_filter_comm.
Qed.

Lemma deleteSession_getSession_witness :
  ls_sessions sample_storage = Json [sample_session]
  /\ exists ls',
       sessionStorage.deleteSession "ai_session_1" sample_storage = (true, ls')
       /\ sessionStorage.getSession "ai_session_1" ls' = None.
Proof.
  split; [reflexivity|].
  destruct (deleteSession_getSession sample_storage [sample_session]
              "ai_session_1" eq_refl) as (ls' & Hdel & Hget & _).
  exists ls'. split; [exact Hdel|exact Hget].
Defined.

(** X4.  When a session is stored under [id] and the update leaves the id
    alone, [sessionStorage.updateSession id updates] returns true;
    [getSession id] then gives the session with the keys of [updates]
    written over it and [updatedAt] set to the time of the call (so an
    update of the title alone keeps the messages and the metadata), and
    [getSession] of any other id gives what it gave before. *)
Theorem updateSession_getSession ls allSessions sessionId session updates now :
  ls_sessions ls = Json allSessions ->
  find_session sessionId allSessions = Some session ->
  AISession.p_id updates = None ->
  exists ls',
    sessionStorage.updateSession sessionId updates now ls = (true, ls')
    /\ sessionStorage.getSession sessionId ls'
       = Some (AISession.with_updates session updates now)
    /\ (forall other, other <> sessionId ->
          sessionStorage.getSession other ls'
          = sessionStorage.getSession other ls)
    /\ (AISession.p_messages updates = None ->
        AISession.p_metadata updates = None ->
        forall s', sessionStorage.getSession sessionId ls' = Some s' ->
          AISession.messages s' = AISession.messages session
          /\ AISession.metadata s' = AISession.metadata session)
    /\ ls_active ls' = ls_active ls.
Proof.
  intros Hls Hfind Hid. unfold sessionStorage.updateSession. rewrite Hls.
  destruct (find_session_Some _ _ _ Hfind) as (i & Hi & Hl). rewrite Hi, Hl.
  eexists. split; [reflexivity|].
  unfold sessionStorage.getSession. simpl. rewrite Hls.
  assert (AISession.id (AISession.with_updates session updates now) = sessionId)
    as Hid'.
  { simpl. rewrite Hid. simpl. eapply find_session_id, Hfind. }
  destruct (find_session_insert sessionId allSessions i _ Hi Hid') as [Hnew _].
  rewrite Hnew. split; [reflexivity|]. split; [|split; [|reflexivity]].
  - intros other Hother. now apply (find_session_insert_other sessionId).
  - intros Hmsgs Hmeta s' [= <-]. simpl. now rewrite Hmsgs, Hmeta.
Qed.

Lemma updateSession_getSession_witness :
  ls_sessions sample_storage = Json [sample_session]
  /\ find_session "ai_session_1" [sample_session] = Some sample_session
  /\ AISession.p_id (AISession.only_title (M:=SessionMetadata) "renamed") = None
  /\ exists ls',
       sessionStorage.updateSession "ai_session_1"
         (AISession.only_title "renamed") 2000%Z sample_storage = (true, ls')
       /\ sessionStorage.getSession "ai_session_1" ls'
          = Some (AISession.with_updates sample_session
                    (AISession.only_title "renamed") 2000%Z).
Proof.
  repeat split.
  destruct (updateSession_getSession sample_storage [sample_session]
              "ai_session_1" sample_session (AISession.only_title "renamed")
              2000%Z eq_refl eq_refl eq_refl) as (ls' & Hupd & Hget & _).
  exists ls'. split; [exact Hupd|exact Hget].
Defined.

(** X5.  When a session is stored under [id], [sessionStorage.addMessage
    id message] changes the first session stored under [id] and nothing
    else: [getSession] of any other id, the pointer to the active session
    and the counters of the rate limiter are what they were. *)
Theorem addMessage_frame ls allSessions sessionId session message now :
  ls_sessions ls = Json allSessions ->
  find_session sessionId allSessions = Some session ->
  exists ls',
    sessionStorage.addMessage sessionId message now ls = (true, ls')
    /\ sessionStorage.getSession sessionId ls'
       = Some (sessionStorage.pushed session message now)
    /\ (forall other, other <> sessionId ->
          sessionStorage.getSession other ls'
          = sessionStorage.getSession other ls)
    /\ ls_active ls' = ls_active ls
    /\ ls_rate ls' = ls_rate ls
    /\ ls_settings ls' = ls_settings ls.
Proof.
  intros Hls Hfind. unfold sessionStorage.addMessage. rewrite Hls.
  destruct (find_session_Some _ _ _ Hfind) as (i & Hi & Hl). rewrite Hi, Hl.
  eexists. split; [reflexivity|].
  unfold sessionStorage.getSession. simpl. rewrite Hls.
  assert (AISession.id (sessionStorage.pushed session message now) = sessionId)
    as Hid'.
  { rewrite pushed_id. eapply find_session_id, Hfind. }
  destruct (find_session_insert sessionId allSessions i _ Hi Hid') as [Hnew _].
  rewrite Hnew. repeat split.
  intros other Hother. now apply (find_session_insert_other sessionId).
Qed.

Lemma addMessage_frame_witness :
  ls_sessions sample_storage = Json [sample_session]
  /\ find_session "ai_session_1" [sample_session] = Some sample_session
  /\ exists ls',
       sessionStorage.addMessage "ai_session_1" (sample_message 10) 2000%Z
         sample_storage = (true, ls')
       /\ sessionStorage.getSession "ai_session_1" ls'
          = Some (sessionStorage.pushed sample_session (sample_message 10) 2000%Z).
Proof.
  repeat split.
  destruct (addMessage_frame sample_storage [sample_session] "ai_session_1"
              sample_session (sample_message 10) 2000%Z eq_refl eq_refl)
    as (ls' & Hadd & Hget & _).
  exists ls'. split; [exact Hadd|exact Hget].
Defined.

(** ** rateLimiter: the two functions together *)

Section Rate_facts.

Lemma filter_idem {A} (f : A -> bool) l :
  List.filter f (List.filter f l) = List.filter f l.
Proof.
  induction l as [|x l IH]; simpl; [reflexivity|].
  destruct (f x) eqn:E; simpl; rewrite ?E, IH; reflexivity.
Qed.

Lemma filter_window_later (L now : Z) l :
  (L <= now)%Z ->
  List.filter (fun u => (now - 60 * 1000 <? u)%Z)
    (List.filter (fun u => (L - 60 * 1000 <? u)%Z) l)
  = List.filter (fun u => (now - 60 * 1000 <? u)%Z) l.
Proof.
  intros HL. induction l as [|x l IH]; simpl; [reflexivity|].
  destruct (Z.ltb_spec (L - 60 * 1000) x), (Z.ltb_spec (now - 60 * 1000) x);
    simpl; try lia.
  - destruct (Z.ltb_spec (now - 60 * 1000) x); [|lia]. now rewrite IH.
  - destruct (Z.ltb_spec (now - 60 * 1000) x); [lia|]. exact IH.
  - exact IH.
Qed.

Lemma nondecreasing_weaken L L' times :
  (L <= L')%Z -> nondecreasing L' times -> nondecreasing L times.
Proof. destruct times as [|t r]; simpl; [trivial|]. intros ? [? ?]. split; [lia|assumption]. Qed.

End Rate_facts.

(** X6.  [canMakeRequest] admits a request exactly when
    [getRemainingRequests], asked at the same time on the same storage,
    reports a positive number; and when the item of the vendor is absent
    or parses, an admitted request lowers that number by one. *)
Theorem canMakeRequest_getRemainingRequests service now ls :
  (fst (rateLimiter.canMakeRequest service now ls) = true <->
     (0 < fst (rateLimiter.getRemainingRequests service now ls))%Z)
  /\ (ls_rate ls service <> Garbled ->
      fst (rateLimiter.canMakeRequest service now ls) = true ->
      fst (rateLimiter.getRemainingRequests service now
             (snd (rateLimiter.canMakeRequest service now ls)))
      = (fst (rateLimiter.getRemainingRequests service now ls) - 1)%Z).
Proof.
  unfold rateLimiter.canMakeRequest, rateLimiter.getRemainingRequests.
  destruct (ls_rate ls service) as [| |data] eqn:Hrate.
  - cbn [fst snd]. split; [split; [lia|reflexivity]|]. intros _ _.
    unfold set_rate. cbn [ls_rate]. rewrite decide_True by reflexivity.
    cbn [requests List.filter fst].
    destruct (Z.ltb_spec (now - 60 * 1000) now); [reflexivity|lia].
  - cbn [fst snd]. split; [split; [lia|reflexivity]|]. congruence.
  - cbv zeta.
    set (recent := List.filter (fun timestamp => (now - 60 * 1000 <? timestamp)%Z)
                     (requests data)).
    destruct (Nat.leb_spec 60 (length recent)) as [Hfull|Hroom]; cbn [fst snd].
    + split; [split; [discriminate|lia]|]. intros _ [=].
    + split; [split; [lia|reflexivity]|]. intros _ _.
      unfold set_rate. cbn [ls_rate]. rewrite decide_True by reflexivity.
      cbn [requests fst].
      rewrite List.filter_app. unfold recent at 1.
      rewrite filter_idem. fold recent. cbn [List.filter].
      destruct (Z.ltb_spec (now - 60 * 1000) now); [|lia].
      rewrite length_app. cbn [length]. lia.
Qed.

Lemma canMakeRequest_getRemainingRequests_witness :
  ls_rate empty_storage openAI <> Garbled
  /\ fst (rateLimiter.canMakeRequest openAI 1000 empty_storage) = true
  /\ fst (rateLimiter.getRemainingRequests openAI 1000
            (snd (rateLimiter.canMakeRequest openAI 1000 empty_storage)))
     = (fst (rateLimiter.getRemainingRequests openAI 1000 empty_storage) - 1)%Z.
Proof.
  assert (ls_rate empty_storage openAI <> Garbled) as Hok by discriminate.
  assert (fst (rateLimiter.canMakeRequest openAI 1000 empty_storage) = true)
    as Hadm by reflexivity.
  destruct (canMakeRequest_getRemainingRequests openAI 1000 empty_storage)
    as [_ Hless].
  exact (conj Hok (conj Hadm (Hless Hok Hadm))).
Defined.

(** ** rateLimiter: what a sequence of calls admits *)

Section Rate_guarantee.
Variable service : AIServiceType.

Local Abbreviation in_window_of t :=
  (fun u : Z => (t - 60 * 1000 <? u)%Z).

(** The stored timestamps are the admitted requests [hist] that lie in the
    window of the latest admission [L]; no later call comes before [L]. *)
Lemma admitted_bound times : forall ls data hist L,
  ls_rate ls service = Json data ->
  requests data = List.filter (in_window_of L) hist ->
  nondecreasing L times ->
  forall before t after,
    admitted service times ls = before ++ t :: after ->
    (length (List.filter (in_window_of t) (hist ++ before ++ [t])) <= 60)%nat.
Proof.
  induction times as [|now rest IH]; intros ls data hist L Hrate Hreq Hmono
    before t after Hadm.
  - destruct before; discriminate Hadm.
  - destruct Hmono as [HL Hrest]. cbn [admitted] in Hadm.
    unfold rateLimiter.canMakeRequest in Hadm. rewrite Hrate in Hadm.
    cbv zeta in Hadm. rewrite Hreq, (filter_window_later L now hist HL) in Hadm.
    destruct (Nat.leb_spec 60 (length (List.filter (in_window_of now) hist)))
      as [Hfull|Hroom].
    + apply (IH ls data hist L Hrate Hreq
               (nondecreasing_weaken L now rest HL Hrest) before t after Hadm).
    + set (ls' := set_rate ls service _) in Hadm.
      assert (ls_rate ls' service
              = Json {| requests := List.filter (in_window_of now) hist ++ [now];
                        lastReset := lastReset data |}) as Hrate'.
      { subst ls'. unfold set_rate. cbn [ls_rate].
        now rewrite decide_True. }
      assert (List.filter (in_window_of now) hist ++ [now]
              = List.filter (in_window_of now) (hist ++ [now])) as Hreq'.
      { rewrite List.filter_app. cbn [List.filter].
        destruct (Z.ltb_spec (now - 60 * 1000) now); [reflexivity|lia]. }
      destruct before as [|b before'].
      * injection Hadm as <- _. cbn [app]. rewrite <- Hreq', length_app.
        cbn [length]. lia.
      * injection Hadm as <- Hadm.
        pose proof (IH ls' _ (hist ++ [now]) now Hrate' Hreq' Hrest
                      before' t after Hadm) as Hbound.
        rewrite <- app_assoc in Hbound. exact Hbound.
Qed.

End Rate_guarantee.

(** X7.  Starting from an absent item, over calls of [canMakeRequest] at
    times that do not go back, every admitted request has at most 59
    admitted requests before it that are less than 60 seconds older: one
    trailing 60-second window never holds more than 60 admitted requests. *)
Theorem at_most_60_admitted_per_window service now rest ls before t after :
  ls_rate ls service = Missing ->
  nondecreasing now rest ->
  admitted service (now :: rest) ls = before ++ t :: after ->
  (length (List.filter (fun u => (t - 60 * 1000 <? u)%Z) (before ++ [t]))
   <= 60)%nat.
Proof.
  intros Hrate Hmono Hadm. cbn [admitted] in Hadm.
  unfold rateLimiter.canMakeRequest in Hadm. rewrite Hrate in Hadm.
  set (ls' := set_rate ls service _) in Hadm.
  assert (ls_rate ls' service = Json {| requests := [now]; lastReset := now |})
    as Hrate'.
  { subst ls'. unfold set_rate. cbn [ls_rate]. now rewrite decide_True. }
  assert ([now] = List.filter (fun u => (now - 60 * 1000 <? u)%Z) [now]) as Hreq.
  { cbn [List.filter]. destruct (Z.ltb_spec (now - 60 * 1000) now);
      [reflexivity|lia]. }
  destruct before as [|b before'].
  - injection Hadm as <- _. cbn [app List.filter].
    destruct (now - 60 * 1000 <? now)%Z; cbn [length]; lia.
  - injection Hadm as <- Hadm.
    exact (admitted_bound service rest ls' _ [now] now Hrate' Hreq Hmono
             before' t after Hadm).
Qed.

Lemma at_most_60_admitted_per_window_witness :
  ls_rate empty_storage openAI = Missing
  /\ nondecreasing 1000 [2000; 3000]%Z
  /\ admitted openAI [1000; 2000; 3000]%Z empty_storage
     = [1000; 2000]%Z ++ 3000%Z :: []
  /\ (length (List.filter (fun u => (3000 - 60 * 1000 <? u)%Z)
                ([1000; 2000]%Z ++ [3000%Z])) <= 60)%nat.
Proof.
  assert (nondecreasing 1000 [2000; 3000]%Z) as Hmono by (simpl; lia).
  assert (admitted openAI [1000; 2000; 3000]%Z empty_storage
          = [1000; 2000]%Z ++ 3000%Z :: []) as Hadm by reflexivity.
  exact (conj eq_refl (conj Hmono (conj Hadm
           (at_most_60_admitted_per_window openAI 1000 [2000; 3000]%Z
              empty_storage [1000; 2000]%Z 3000 [] eq_refl Hmono Hadm)))).
Defined.

(** ** aiClients: more on the streaming adapters *)

Section Stream_more.
Import aiClients.
Variable JSON_parse : string -> option json.

Lemma split_newline_no_newline_app a b :
  split_newline a = [a] -> split_newline b = [b] ->
  split_newline (a ++ b) = [(a ++ b)%string].
Proof.
  induction a as [|c r IH]; intros Ha Hb; [exact Hb|].
  rewrite append_cons. cbn [split_newline] in *.
  destruct (Ascii.eqb c newline).
  - discriminate Ha.
  - destruct (split_newline r) as [|l ls] eqn:Er.
    + now apply split_newline_nonempty in Er.
    + injection Ha as -> ->. now rewrite IH.
Qed.

Lemma received_app chunks more :
  received (chunks ++ more) = (received chunks ++ received more)%string.
Proof.
  induction chunks as [|value rest IH]; [reflexivity|].
  cbn [app received]. now rewrite IH, append_assoc.
Qed.

Lemma streamMessage_lines chunks :
  streamMessage JSON_parse chunks
  = omap (delta JSON_parse) (until_terminator (complete_lines (received chunks))).
Proof.
  unfold streamMessage. rewrite read_loop_deltas by reflexivity.
  apply for_lines_deltas.
Qed.

Lemma until_terminator_app l1 l2 :
  existsb is_terminator l1 = true ->
  until_terminator (l1 ++ l2) = until_terminator l1.
Proof.
  induction l1 as [|line rest IH]; [discriminate|]. cbn [existsb app until_terminator].
  destruct (is_terminator line); [reflexivity|]. cbn [orb].
  intros H. now rewrite IH.
Qed.

Lemma delta_truthy line v :
  delta JSON_parse line = Some v -> truthy (Some v) = true.
Proof.
  unfold delta. destruct (delta_as_stated JSON_parse line) as [content|];
    [|discriminate].
  destruct (truthy (Some content)) eqn:E; [|discriminate].
  now intros [= <-].
Qed.

End Stream_more.

(** X8.  The text behind the last newline is never read as a line: a last
    chunk without a newline adds nothing to what the adapter yields, so an
    event that the server does not end with a newline is lost. *)
Theorem streamMessage_unterminated_tail JSON_parse chunks tail :
  aiClients.split_newline tail = [tail] ->
  aiClients.streamMessage JSON_parse (chunks ++ [tail])
  = aiClients.streamMessage JSON_parse chunks.
Proof.
  intros Htail. rewrite !streamMessage_lines, received_app.
  cbn [received]. rewrite append_empty_r, complete_lines_app.
  unfold complete_lines at 2.
  rewrite (split_newline_no_newline_app _ tail
             (split_newline_last (received chunks)) Htail).
  cbn [removelast]. now rewrite app_nil_r.
Qed.

Lemma streamMessage_unterminated_tail_witness :
  aiClients.split_newline ("data: " ++ hello_event) = [("data: " ++ hello_event)%string]
  /\ aiClients.streamMessage sample_parse ([] ++ [("data: " ++ hello_event)%string])
     = aiClients.streamMessage sample_parse [].
Proof.
  assert (aiClients.split_newline ("data: " ++ hello_event)
          = [("data: " ++ hello_event)%string]) as Htail by reflexivity.
  exact (conj Htail
           (streamMessage_unterminated_tail sample_parse []
              ("data: " ++ hello_event)%string Htail)).
Defined.

(** X9.  Once the chunks received hold a complete terminator line, nothing
    that arrives later is yielded. *)
Theorem streamMessage_after_terminator JSON_parse chunks more :
  existsb is_terminator (complete_lines (received chunks)) = true ->
  aiClients.streamMessage JSON_parse (chunks ++ more)
  = aiClients.streamMessage JSON_parse chunks.
Proof.
  intros Hdone. rewrite !streamMessage_lines, received_app, complete_lines_app.
  now rewrite until_terminator_app.
Qed.

Lemma streamMessage_after_terminator_witness :
  existsb is_terminator
    (complete_lines (received [("data: [DONE]" ++ nl)%string])) = true
  /\ aiClients.streamMessage sample_parse
       ([("data: [DONE]" ++ nl)%string] ++ [("data: " ++ hello_event ++ nl)%string])
     = aiClients.streamMessage sample_parse [("data: [DONE]" ++ nl)%string].
Proof.
  assert (existsb is_terminator
            (complete_lines (received [("data: [DONE]" ++ nl)%string])) = true)
    as Hdone by reflexivity.
  exact (conj Hdone
           (streamMessage_after_terminator sample_parse
              [("data: [DONE]" ++ nl)%string]
              [("data: " ++ hello_event ++ nl)%string] Hdone)).
Defined.

(** X10.  Whatever the body and whatever JSON.parse makes of its lines,
    every value the adapter yields is truthy: it never yields an empty
    string, null, false or zero. *)
Theorem streamMessage_yields_truthy JSON_parse chunks v :
  In v (aiClients.streamMessage JSON_parse chunks) ->
  aiClients.truthy (Some v) = true.
Proof.
  rewrite streamMessage_lines. intros Hin.
  apply list_elem_of_In, list_elem_of_omap in Hin as (line & _ & Hdelta).
  eapply delta_truthy, Hdelta.
Qed.

Lemma streamMessage_yields_truthy_witness :
  In (JString "Hi")
    (aiClients.streamMessage sample_parse [("data: " ++ hello_event ++ nl)%string])
  /\ aiClients.truthy (Some (JString "Hi")) = true.
Proof.
  assert (In (JString "Hi")
            (aiClients.streamMessage sample_parse
               [("data: " ++ hello_event ++ nl)%string])) as Hin
    by (left; reflexivity).
  exact (conj Hin
           (streamMessage_yields_truthy sample_parse
              [("data: " ++ hello_event ++ nl)%string] (JString "Hi") Hin)).
Defined.

(** ** useSettings: saving and loading *)

Section Settings_facts.

Lemma encryptApiKey_latin1 key :
  Forall (fun c => c <= 255) key ->
  exists e, Credentials.encryptApiKey key = Some e
            /\ Credentials.decryptApiKey e = key.
Proof.
  intros Hlatin. destruct key as [|a key]; [now exists []|].
  destruct (atob_btoa (a :: key) Hlatin) as [Hbtoa Hatob].
  exists (rev (Base64.base64_encode (a :: key))). split.
  - unfold Credentials.encryptApiKey. now rewrite Hbtoa.
  - unfold Credentials.decryptApiKey.
    destruct (rev (Base64.base64_encode (a :: key))) as [|c r] eqn:E.
    + apply (f_equal (@rev N)) in E. rewrite rev_involutive in E.
      destruct key as [|b [|c l]]; discriminate E.
    + rewrite <- E, rev_involutive, Hatob. reflexivity.
Qed.

Lemma encryptApiKey_beyond_latin1 key :
  Exists (fun c => 255 < c) key -> Credentials.encryptApiKey key = None.
Proof.
  intros Hex. unfold Credentials.encryptApiKey, Base64.btoa.
  destruct key as [|a key]; [inversion Hex|].
  destruct (forallb (fun c => c <=? 255) (a :: key)) eqn:E; [|reflexivity].
  rewrite forallb_forall in E. apply Exists_exists in Hex as (c & Hc & Hbig).
  apply list_elem_of_In, E, N.leb_le in Hc. lia.
Qed.

Lemma encryptConfig_latin1 c :
  Forall (fun u => u <= 255) (settings.apiKey c) ->
  exists c', useSettingsSave.encryptConfig c = Some c'
             /\ useSettings.map_key Credentials.decryptApiKey c' = c.
Proof.
  intros Hlatin. destruct (encryptApiKey_latin1 _ Hlatin) as (e & Henc & Hdec).
  unfold useSettingsSave.encryptConfig. rewrite Henc. eexists.
  split; [reflexivity|]. unfold useSettings.map_key. simpl. rewrite Hdec.
  now destruct c.
Qed.

Lemma spread_complete base s :
  settings.spread base (useSettingsSave.complete s) = s.
Proof. now destruct s. Qed.

(** Saving settings with Latin-1 keys writes a document from which the
    load makes the same settings again. *)
Lemma saveSettings_loadSettings s prefersDark prefersDark' st :
  keys_latin1 s ->
  exists st',
    useSettingsSave.saveSettings s prefersDark st = Some st'
    /\ useSettings.settings st' = useSettings.settings st
    /\ useSettings.settings
         (useSettings.loadSettings useSettings.Unavailable prefersDark' st') = s
    /\ forall st'', useSettings.storage st'' = useSettings.storage st' ->
         useSettings.settings
           (useSettings.loadSettings useSettings.Unavailable prefersDark' st'')
         = s.
Proof.
  intros Hkeys. unfold useSettingsSave.saveSettings, useSettingsSave.encryptSettings.
  pose proof (Hkeys aider) as Ka. pose proof (Hkeys claudeCode) as Kc.
  pose proof (Hkeys openRouter) as Kr. pose proof (Hkeys openAI) as Ko.
  cbn [useAI.config_of] in Ka, Kc, Kr, Ko.
  destruct (encryptConfig_latin1 _ Ka) as (a & -> & Ha).
  destruct (encryptConfig_latin1 _ Kc) as (c & -> & Hc).
  destruct (encryptConfig_latin1 _ Kr) as (r & -> & Hr).
  destruct (encryptConfig_latin1 _ Ko) as (o & -> & Ho).
  eexists. split; [reflexivity|]. split; [reflexivity|].
  assert (forall ls,
            ls_settings ls
            = Json (settings.with_services (useSettingsSave.complete s)
                      {| settings.aider := a; settings.claudeCode := c;
                         settings.openRouter := r; settings.openAI := o |}) ->
            match ls_settings ls with
            | Json parsed =>
                match useSettings.decryptSettings parsed with
                | Some decrypted => settings.spread settings.DEFAULT_SETTINGS decrypted
                | None => settings.DEFAULT_SETTINGS
                end
            | _ => settings.DEFAULT_SETTINGS
            end = s) as Hload.
  { intros ls ->. unfold useSettings.decryptSettings, useSettings.decryptServices.
    simpl in *. rewrite Ha, Hc, Hr, Ho.
    destruct s as [t [sa sc sr so] ? ? ? ? ? ? ? ? ? ? ? ?]. reflexivity. }
  split.
  - unfold useSettings.loadSettings. cbn [useSettings.storage useSettings.settings].
    apply Hload. reflexivity.
  - intros st'' Hst. unfold useSettings.loadSettings.
    cbn [useSettings.settings]. apply Hload. rewrite Hst. reflexivity.
Qed.

Lemma saveSettings_beyond_latin1 s service prefersDark st :
  Exists (fun c => 255 < c) (settings.apiKey (useAI.config_of s service)) ->
  useSettingsSave.saveSettings s prefersDark st = None.
Proof.
  intros Hex. apply encryptApiKey_beyond_latin1 in Hex.
  unfold useSettingsSave.saveSettings, useSettingsSave.encryptSettings,
    useSettingsSave.encryptConfig.
  destruct service; simpl in Hex; rewrite ?Hex;
    repeat (destruct (Credentials.encryptApiKey _); try reflexivity;
            rewrite ?Hex; try reflexivity).
Qed.

End Settings_facts.

(** X11.  When the settings in memory with the update written over them
    have Latin-1 keys only, [updateSettings] resolves, the settings in
    memory are those, no error is set, and a later [loadSettings] (no
    backend) yields the same settings from the storage: the keys come back
    as they were entered. *)
Theorem updateSettings_then_loadSettings updates prefersDark prefersDark'
    thrown st :
  keys_latin1 (settings.spread (useSettings.settings st) updates) ->
  exists st',
    useSettingsSave.updateSettings updates prefersDark thrown st = (true, st')
    /\ useSettings.settings st'
       = settings.spread (useSettings.settings st) updates
    /\ useSettings.error st' = None
    /\ useSettings.settings
         (useSettings.loadSettings useSettings.Unavailable prefersDark' st')
       = settings.spread (useSettings.settings st) updates.
Proof.
  intros Hkeys. unfold useSettingsSave.updateSettings.
  cbn [useSettingsSave.with_error useSettings.settings].
  destruct (saveSettings_loadSettings _ prefersDark prefersDark'
              (useSettingsSave.with_error st None) Hkeys)
    as (st1 & Hsave & _ & _ & Hload).
  cbn [useSettingsSave.with_error] in Hsave. rewrite Hsave.
  eexists. split; [reflexivity|]. split; [reflexivity|]. split.
  - unfold useSettingsSave.saveSettings in Hsave.
    destruct (useSettingsSave.encryptSettings _); [|discriminate].
    now injection Hsave as <-.
  - now apply Hload.
Qed.

Lemma updateSettings_then_loadSettings_witness :
  keys_latin1
    (settings.spread
       (useSettings.settings (useSettings.initial empty_storage false))
       (key_update [115; 107; 45; 49]))
  /\ exists st',
       useSettingsSave.updateSettings (key_update [115; 107; 45; 49]) false
         "InvalidCharacterError" (useSettings.initial empty_storage false)
       = (true, st')
       /\ settings.apiKey
            (settings.openAI
               (settings.aiServices
                  (useSettings.settings
                     (useSettings.loadSettings useSettings.Unavailable false st'))))
          = [115; 107; 45; 49].
Proof.
  assert (keys_latin1
            (settings.spread
               (useSettings.settings (useSettings.initial empty_storage false))
               (key_update [115; 107; 45; 49]))) as Hkeys
    by (intros []; simpl; repeat constructor; lia).
  split; [exact Hkeys|].
  destruct (updateSettings_then_loadSettings (key_update [115; 107; 45; 49])
              false false "InvalidCharacterError"
              (useSettings.initial empty_storage false) Hkeys)
    as (st' & Hupd & _ & _ & Hload).
  exists st'. split; [exact Hupd|]. now rewrite Hload.
Defined.

(** X12.  When a vendor key of the updated settings has a code unit above
    U+00FF, [updateSettings] rejects: the error is set to the message
    thrown, and neither the settings in memory nor the storage change. *)
Theorem updateSettings_rejected updates prefersDark thrown st service :
  Exists (fun c => 255 < c)
    (settings.apiKey
       (useAI.config_of (settings.spread (useSettings.settings st) updates)
          service)) ->
  exists st',
    useSettingsSave.updateSettings updates prefersDark thrown st = (false, st')
    /\ useSettings.error st' = Some thrown
    /\ useSettings.settings st' = useSettings.settings st
    /\ useSettings.storage st' = useSettings.storage st
    /\ useSettings.darkClass st' = useSettings.darkClass st.
Proof.
  intros Hex. unfold useSettingsSave.updateSettings.
  cbn [useSettingsSave.with_error useSettings.settings].
  rewrite (saveSettings_beyond_latin1 _ service prefersDark _ Hex).
  eexists. repeat split.
Qed.

Lemma updateSettings_rejected_witness :
  Exists (fun c => 255 < c)
    (settings.apiKey
       (useAI.config_of
          (settings.spread
             (useSettings.settings (useSettings.initial empty_storage false))
             (key_update [1046])) openAI))
  /\ fst (useSettingsSave.updateSettings (key_update [1046]) false
            "InvalidCharacterError" (useSettings.initial empty_storage false))
     = false.
Proof.
  assert (Exists (fun c => 255 < c)
            (settings.apiKey
               (useAI.config_of
                  (settings.spread
                     (useSettings.settings (useSettings.initial empty_storage false))
                     (key_update [1046])) openAI))) as Hex
    by (left; simpl; lia).
  split; [exact Hex|].
  destruct (updateSettings_rejected (key_update [1046]) false
              "InvalidCharacterError" (useSettings.initial empty_storage false)
              openAI Hex) as (st' & Hupd & _).
  now rewrite Hupd.
Defined.

(** X13.  Export and import are a round trip: importing the text that
    [exportSettings] gives of settings with Latin-1 keys returns true and
    makes those settings the settings in memory, and the ones a later load
    reads, whatever the settings were before. *)
Theorem importSettings_exportSettings src prefersDark prefersDark' thrown st :
  keys_latin1 (useSettings.settings src) ->
  exists st',
    useSettingsSave.importSettings (useSettingsSave.exportSettings src)
      prefersDark thrown st = (true, st')
    /\ useSettings.settings st' = useSettings.settings src
    /\ useSettings.settings
         (useSettings.loadSettings useSettings.Unavailable prefersDark' st')
       = useSettings.settings src.
Proof.
  intros Hkeys.
  unfold useSettingsSave.importSettings, useSettingsSave.exportSettings.
  rewrite spread_complete.
  destruct (saveSettings_loadSettings _ prefersDark prefersDark'
              (useSettingsSave.with_error st None) Hkeys)
    as (st1 & Hsave & _ & _ & Hload).
  rewrite Hsave. eexists. split; [reflexivity|]. split; [reflexivity|].
  now apply Hload.
Qed.

Lemma importSettings_exportSettings_witness :
  keys_latin1 (useSettings.settings (useSettings.initial empty_storage false))
  /\ fst (useSettingsSave.importSettings
            (useSettingsSave.exportSettings (useSettings.initial empty_storage false))
            false "SyntaxError" (useSettings.initial settings_storage true))
     = true.
Proof.
  assert (keys_latin1
            (useSettings.settings (useSettings.initial empty_storage false)))
    as Hkeys by (intros []; simpl; constructor).
  split; [exact Hkeys|].
  destruct (importSettings_exportSettings (useSettings.initial empty_storage false)
              false false "SyntaxError" (useSettings.initial settings_storage true)
              Hkeys) as (st' & Himp & _).
  now rewrite Himp.
Defined.

(** X14.  A stored document without the [aiServices] key is dropped as a
    whole: [decryptSettings] throws on it inside the [try], and the load
    (no backend) yields the defaults, whatever other keys the document
    holds; the same when the item is absent or unparseable. *)
Theorem loadSettings_without_aiServices prefersDark st :
  (ls_settings (useSettings.storage st) = Missing
   \/ ls_settings (useSettings.storage st) = Garbled
   \/ exists doc, ls_settings (useSettings.storage st) = Json doc
                  /\ settings.d_aiServices doc = None) ->
  useSettings.settings
    (useSettings.loadSettings useSettings.Unavailable prefersDark st)
  = settings.DEFAULT_SETTINGS
  /\ useSettings.darkClass
       (useSettings.loadSettings useSettings.Unavailable prefersDark st)
     = prefersDark.
Proof.
  unfold useSettings.loadSettings. cbn [useSettings.settings useSettings.darkClass].
  intros [->|[->|(doc & -> & Hnone)]]; [now split ..|].
  unfold useSettings.decryptSettings. rewrite Hnone. now split.
Qed.

Lemma loadSettings_without_aiServices_witness :
  (ls_settings (useSettings.storage (useSettings.initial empty_storage false))
   = Missing
   \/ ls_settings (useSettings.storage (useSettings.initial empty_storage false))
      = Garbled
   \/ exists doc,
        ls_settings (useSettings.storage (useSettings.initial empty_storage false))
        = Json doc /\ settings.d_aiServices doc = None)
  /\ useSettings.settings
       (useSettings.loadSettings useSettings.Unavailable true
          (useSettings.initial empty_storage false))
     = settings.DEFAULT_SETTINGS.
Proof.
  split; [now left|].
  now destruct (loadSettings_without_aiServices true
                  (useSettings.initial empty_storage false) (or_introl eq_refl)).
Defined.

(** ** useAI: available and configured vendors *)

(** X15.  Every vendor that [useAI] lists as available has a client that
    [isConfigured] accepts; for the three vendors with a key the converse
    holds too, while the local daemon is configured as soon as it is
    enabled but available only when it has a key as well. *)
Theorem availableServices_isConfigured s service :
  (In service (useAI.availableServices s) ->
   useAI.isConfigured service s = true)
  /\ (service <> aider -> useAI.isConfigured service s = true ->
      In service (useAI.availableServices s))
  /\ (In aider (useAI.availableServices s) <->
      useAI.isConfigured aider s = true
      /\ settings.apiKey (useAI.config_of s aider) <> []).
Proof.
  unfold useAI.availableServices, useAI.isConfigured, useAI.has_key.
  split; [|split].
  - intros Hin. apply filter_In in Hin as [_ Hok].
    apply andb_true_iff in Hok as [He Hk].
    destruct service; rewrite ?He, ?Hk; reflexivity.
  - intros Hne Hconf. apply filter_In. split.
    + destruct service; simpl; auto 6.
    + destruct service; try congruence;
        apply andb_true_iff in Hconf as [-> ->]; reflexivity.
  - rewrite filter_In. split.
    + intros [_ Hok]. apply andb_true_iff in Hok as [He Hk].
      split; [exact He|].
      destruct (settings.apiKey (useAI.config_of s aider)); [discriminate|].
      discriminate.
    + intros [He Hk]. split; [now left|]. rewrite He.
      destruct (settings.apiKey (useAI.config_of s aider)); [congruence|].
      reflexivity.
Qed.

Lemma availableServices_isConfigured_witness :
  In openAI
    (useAI.availableServices
       (settings.spread settings.DEFAULT_SETTINGS (key_update [115; 107; 45; 49])))
  /\ useAI.isConfigured openAI
       (settings.spread settings.DEFAULT_SETTINGS (key_update [115; 107; 45; 49]))
     = true.
Proof.
  assert (In openAI
            (useAI.availableServices
               (settings.spread settings.DEFAULT_SETTINGS
                  (key_update [115; 107; 45; 49])))) as Hin
    by (left; reflexivity).
  destruct (availableServices_isConfigured
              (settings.spread settings.DEFAULT_SETTINGS
                 (key_update [115; 107; 45; 49])) openAI) as [Hconf _].
  exact (conj Hin (Hconf Hin)).
Defined.

(** ** useAISessions: what addMessage does in memory *)

Section Memory_facts.
Import useAISessions.

Lemma find_session_map {M} (g : AISession.t M -> AISession.t M) sessionId
    (l : list (AISession.t M)) :
  (forall s, AISession.id (g s) = AISession.id s) ->
  find_session sessionId (map g l) = g <$> find_session sessionId l.
Proof.
  intros Hg. induction l as [|x l IH]; [reflexivity|]. simpl.
  rewrite Hg. now destruct (decide (AISession.id x = sessionId)).
Qed.

Lemma addMessage_failed sessionId message now st :
  fst (addMessage sessionId message now st) = false ->
  addMessage sessionId message now st
  = (false,
     {| sessions := sessions st; activeSession := activeSession st;
        isLoading := isLoading st;
        error := Some "Failed to add message to session";
        heap := heap st;
        storage := snd (sessionStorage.addMessage sessionId message now
                          (storage st)) |}).
Proof.
  unfold addMessage.
  destruct (sessionStorage.addMessage sessionId message now (storage st))
    as [[|] ls1]; [|reflexivity].
  cbn [negb]. destruct (map_appended _ _ _ _ _) as [sessions' h1].
  destruct (activeSession st) as [prev|]; [|discriminate].
  destruct (decide (AISession.id prev = sessionId)); [|discriminate].
  destruct (appended prev message now h1). discriminate.
Qed.

Lemma addMessage_succeeded sessionId message now st :
  fst (addMessage sessionId message now st) = true ->
  exists h1,
    map_appended sessionId message now (sessions st) (heap st)
    = (sessions (snd (addMessage sessionId message now st)), h1)
    /\ heap (snd (addMessage sessionId message now st))
       = match activeSession st with
         | Some prev =>
             if decide (AISession.id prev = sessionId)
             then bump h1 prev message now else h1
         | None => h1
         end.
Proof.
  unfold addMessage.
  destruct (sessionStorage.addMessage sessionId message now (storage st))
    as [[|] ls1]; [|discriminate].
  cbn [negb]. destruct (map_appended _ _ _ _ _) as [sessions' h1].
  intros _. exists h1.
  destruct (activeSession st) as [prev|]; [|now split].
  destruct (decide (AISession.id prev = sessionId)); [|now split].
  rewrite appended_bump. now split.
Qed.

End Memory_facts.

(** X16.  When the active session is an entry of the session list, as it
    is after [createSession] and [switchSession], the two state updaters
    of a successful [addMessage] write to one metadata object: the tokens
    and the cost of the message are added twice to the totals that the
    hook shows, while the storage adds them once. *)
Theorem addMessage_counts_shared_metadata_twice sessionId message now st a
    addr md :
  aliasing_ok st ->
  useAISessions.activeSession st = Some a ->
  In a (useAISessions.sessions st) ->
  AISession.id a = sessionId ->
  AISession.metadata a = Some addr ->
  useAISessions.heap st !! addr = Some md ->
  fst (useAISessions.addMessage sessionId message now st) = true ->
  exists md',
    useAISessions.heap (snd (useAISessions.addMessage sessionId message now st))
      !! addr = Some md'
    /\ totalTokens md' = (totalTokens md + 2 * tokens_of message)%Z
    /\ totalCost md' = (totalCost md + cost_of message + cost_of message)%Qc
    /\ messageCount md' = S (length (AISession.messages a)).
Proof.
  intros (Hnd & _ & _) Hactive Hin Hid Hmeta Hmd Hok.
  destruct (addMessage_succeeded _ _ _ _ Hok) as (h1 & Hmap & Hheap).
  destruct (map_appended_spec _ _ _ _ _ _ _ Hmap) as (_ & _ & _ & Hhit).
  rewrite Hheap, Hactive, decide_True by assumption.
  rewrite (bump_lookup_eq _ _ _ _ _ Hmeta).
  rewrite (Hhit Hnd a addr Hin Hid Hmeta), Hmd. cbn [fmap option_fmap option_map].
  eexists. split; [reflexivity|].
  rewrite !update_metadata_tokens, !update_metadata_cost.
  repeat split. lia.
Qed.

Lemma addMessage_counts_shared_metadata_twice_witness :
  exists md',
    useAISessions.heap
      (snd (useAISessions.addMessage "ai_session_9" (sample_message 10) 2000%Z
              created_state)) !! 0%nat = Some md'
    /\ totalTokens md' = (totalTokens (new_metadata 1000) + 2 * tokens_of (sample_message 10))%Z.
Proof.
  destruct (initial_ok empty_storage) as [Hok0 _].
  destruct (createSession_preserves "default" openAI None "ai_session_9" 1000%Z
              "1/1/2025" _ Hok0) as [Hok1 _].
  destruct (addMessage_counts_shared_metadata_twice "ai_session_9"
              (sample_message 10) 2000%Z created_state
              (createAISession "default" openAI None "ai_session_9" 1000%Z
                 "1/1/2025" 0%nat)
              0%nat (new_metadata 1000) Hok1 eq_refl (or_introl eq_refl)
              eq_refl eq_refl eq_refl eq_refl) as (md' & Hmd' & Htok & _).
  exists md'. split; [exact Hmd'|exact Htok].
Defined.

(** X17.  A successful [addMessage] of the hook makes [getMessages] of the
    session return its former messages followed by the new one (nothing,
    when the session is stored but not in the list of the hook) and leaves
    [getMessages] of every other id alone; a failed one sets the error and
    changes neither the list, nor the active session, nor their metadata. *)
Theorem addMessage_getMessages sessionId message now st :
  let st' := snd (useAISessions.addMessage sessionId message now st) in
  (fst (useAISessions.addMessage sessionId message now st) = true ->
   useAISessions.getMessages sessionId st'
   = match find_session sessionId (useAISessions.sessions st) with
     | Some session => AISession.messages session ++ [message]
     | None => []
     end
   /\ forall other, other <> sessionId ->
        useAISessions.getMessages other st' = useAISessions.getMessages other st)
  /\ (fst (useAISessions.addMessage sessionId message now st) = false ->
      useAISessions.sessions st' = useAISessions.sessions st
      /\ useAISessions.activeSession st' = useAISessions.activeSession st
      /\ useAISessions.heap st' = useAISessions.heap st
      /\ useAISessions.error st' = Some "Failed to add message to session").
Proof.
  intros st'. subst st'. split.
  - intros Hok. destruct (addMessage_succeeded _ _ _ _ Hok) as (h1 & Hmap & _).
    destruct (map_appended_spec _ _ _ _ _ _ _ Hmap) as (Hlist & _).
    unfold useAISessions.getMessages. rewrite Hlist.
    rewrite !find_session_map
      by (intros s; now destruct (decide (AISession.id s = sessionId))).
    split.
    + destruct (find_session sessionId (useAISessions.sessions st)) as [s|] eqn:E;
        [|reflexivity].
      cbn [fmap option_fmap option_map].
      rewrite decide_True by (eapply find_session_id, E). reflexivity.
    + intros other Hother.
      rewrite find_session_map
        by (intros s; now destruct (decide (AISession.id s = sessionId))).
      destruct (find_session other (useAISessions.sessions st)) as [s|] eqn:E;
        [|reflexivity].
      cbn [fmap option_fmap option_map].
      rewrite decide_False; [reflexivity|].
      rewrite (find_session_id _ _ _ E). exact Hother.
  - intros Hfail. rewrite (addMessage_failed _ _ _ _ Hfail). now repeat split.
Qed.

Lemma addMessage_getMessages_witness :
  fst (useAISessions.addMessage "ai_session_9" (sample_message 10) 2000%Z
         created_state) = true
  /\ useAISessions.getMessages "ai_session_9"
       (snd (useAISessions.addMessage "ai_session_9" (sample_message 10) 2000%Z
               created_state))
     = [sample_message 10].
Proof.
  assert (fst (useAISessions.addMessage "ai_session_9" (sample_message 10)
                 2000%Z created_state) = true) as Hok by reflexivity.
  destruct (addMessage_getMessages "ai_session_9" (sample_message 10) 2000%Z
              created_state) as [Hsucc _].
  destruct (Hsucc Hok) as [Hget _].
  exact (conj Hok Hget).
Defined.

(** ** useAISessions: sequences of operations *)

Section Sequence_facts.
Import useAISessions.
Variable projectId : string.

Lemma setActiveSession_sessions p sid ls :
  ls_sessions (snd (sessionStorage.setActiveSession p sid ls)) = ls_sessions ls.
Proof.
  unfold sessionStorage.setActiveSession. now destruct (ls_active ls).
Qed.

Lemma clearActiveSession_sessions p ls :
  ls_sessions (snd (sessionStorage.clearActiveSession p ls)) = ls_sessions ls.
Proof.
  unfold sessionStorage.clearActiveSession. now destruct (ls_active ls).
Qed.

Lemma garbled_writes ls :
  ls_sessions ls = Garbled ->
  (forall p ss, sessionStorage.saveSessions p ss ls = (false, ls))
  /\ (forall i u now, sessionStorage.updateSession i u now ls = (false, ls))
  /\ (forall i, sessionStorage.deleteSession i ls = (false, ls))
  /\ (forall i m now, sessionStorage.addMessage i m now ls = (false, ls)).
Proof.
  intros Hg. unfold sessionStorage.saveSessions, sessionStorage.updateSession,
    sessionStorage.deleteSession, sessionStorage.addMessage.
  rewrite Hg. repeat split.
Qed.

Lemma perform_garbled c st :
  ls_sessions (storage st) = Garbled ->
  ls_sessions (storage (perform projectId c st)) = Garbled.
Proof.
  intros Hg. destruct (garbled_writes _ Hg) as (Hsave & Hupd & Hdel & Hadd).
  destruct c as [response|service title sessionId now localeString|sessionId
                |sessionId|sessionId title now|sessionId message now];
    cbn [perform].
  - unfold loadSessions.
    destruct (alloc_all _ _) as [localSessions h1].
    destruct (match sessionStorage.getActiveSession projectId (storage st) with
              | Some _ => _ | None => _ end) as [active1 h2].
    destruct response as [|backendValues]; [exact Hg|].
    destruct (alloc_all backendValues h2) as [backendSessions h3].
    cbn [storage]. now rewrite Hsave.
  - unfold createSession. cbn [snd storage].
    now rewrite setActiveSession_sessions, Hsave.
  - unfold switchSession.
    destruct (find_session sessionId (sessions st)); cbn [snd storage];
      [|exact Hg].
    now rewrite setActiveSession_sessions.
  - unfold deleteSession. rewrite Hsave. cbn [snd].
    destruct (activeSession st) as [a|];
      [destruct (decide (AISession.id a = sessionId))|]; cbn [snd storage].
    + assert (ls_sessions (snd (sessionStorage.clearActiveSession projectId
                                  (storage st))) = Garbled) as Hg'
        by now rewrite clearActiveSession_sessions.
      destruct (garbled_writes _ Hg') as (_ & _ & Hdel' & _).
      now rewrite Hdel'.
    + now rewrite Hdel.
    + now rewrite Hdel.
  - unfold updateSessionTitle. now rewrite Hupd.
  - unfold addMessage. now rewrite Hadd.
Qed.

End Sequence_facts.

(** X18.  An unparseable sessions item is never repaired: after any
    sequence of operations of the hook (load, create, switch, delete,
    rename, add message) the item is still unparseable, so the storage
    holds no session of any project, whatever the hook shows. *)
Theorem garbled_sessions_stay_garbled projectId calls st :
  ls_sessions (useAISessions.storage st) = Garbled ->
  ls_sessions (useAISessions.storage (perform_all projectId calls st)) = Garbled
  /\ forall p,
       sessionStorage.getSessions p
         (useAISessions.storage (perform_all projectId calls st)) = [].
Proof.
  intros Hg.
  assert (ls_sessions (useAISessions.storage (perform_all projectId calls st))
          = Garbled) as Hend.
  { unfold perform_all. revert st Hg.
    induction calls as [|c calls IH]; intros st Hg; [exact Hg|].
    cbn [fold_left]. apply IH. now apply perform_garbled. }
  split; [exact Hend|].
  intros p. unfold sessionStorage.getSessions. now rewrite Hend.
Qed.

Lemma garbled_sessions_stay_garbled_witness :
  ls_sessions (useAISessions.storage (useAISessions.initial garbled_storage))
  = Garbled
  /\ ls_sessions
       (useAISessions.storage
          (perform_all "default"
             [CreateSession openAI None "ai_session_9" 1000%Z "1/1/2025";
              AddMessage "ai_session_9" (sample_message 10) 2000%Z]
             (useAISessions.initial garbled_storage)))
     = Garbled.
Proof.
  split; [reflexivity|].
  now destruct (garbled_sessions_stay_garbled "default"
                  [CreateSession openAI None "ai_session_9" 1000%Z "1/1/2025";
                   AddMessage "ai_session_9" (sample_message 10) 2000%Z]
                  (useAISessions.initial garbled_storage) eq_refl).
Defined.

(** X19.  From the first state of the hook, over any storage, after any
    sequence of createSession, switchSession, deleteSession,
    updateSessionTitle and addMessage calls the active session, when there
    is one, has an entry of its id in the session list that reads the
    same. *)
Theorem in_sync_without_reload projectId calls ls :
  Forall (fun c => forall response, c <> LoadSessions response) calls ->
  in_sync (perform_all projectId calls (useAISessions.initial ls)).
Proof.
  intros Hcalls.
  assert (forall st, aliasing_ok st /\ in_sync st ->
            aliasing_ok (perform_all projectId calls st)
            /\ in_sync (perform_all projectId calls st)) as Hall.
  { unfold perform_all. induction Hcalls as [|c calls Hc _ IH];
      intros st [Hok Hsync]; [now split|].
    cbn [fold_left]. apply IH.
    destruct c as [response|service title sessionId now localeString|sessionId
                  |sessionId|sessionId title now|sessionId message now];
      cbn [perform].
    - now destruct (Hc response).
    - now apply createSession_preserves.
    - now apply switchSession_preserves.
    - now apply deleteSession_preserves.
    - now apply updateSessionTitle_preserves.
    - now apply addMessage_preserves. }
  apply Hall, initial_ok.
Qed.

Lemma in_sync_without_reload_witness :
  Forall (fun c => forall response, c <> LoadSessions response)
    [CreateSession openAI None "ai_session_9" 1000%Z "1/1/2025";
     AddMessage "ai_session_9" (sample_message 10) 2000%Z]
  /\ in_sync
       (perform_all "default"
          [CreateSession openAI None "ai_session_9" 1000%Z "1/1/2025";
           AddMessage "ai_session_9" (sample_message 10) 2000%Z]
          (useAISessions.initial empty_storage)).
Proof.
  assert (Forall (fun c => forall response, c <> LoadSessions response)
            [CreateSession openAI None "ai_session_9" 1000%Z "1/1/2025";
             AddMessage "ai_session_9" (sample_message 10) 2000%Z]) as Hcalls
    by (repeat constructor; discriminate).
  exact (conj Hcalls (in_sync_without_reload "default" _ empty_storage Hcalls)).
Defined.

Section Delete_facts.

Lemma saveSessions_parsed p ss ls allSessions :
  ls_sessions ls = Json allSessions ->
  exists allSessions',
    ls_sessions (snd (sessionStorage.saveSessions p ss ls)) = Json allSessions'
    /\ ls_active (snd (sessionStorage.saveSessions p ss ls)) = ls_active ls.
Proof.
  intros Hls. unfold sessionStorage.saveSessions. rewrite Hls.
  eexists. split; reflexivity.
Qed.

Lemma storage_deleteSession_gone sessionId ls allSessions :
  ls_sessions ls = Json allSessions ->
  sessionStorage.getSession sessionId
    (snd (sessionStorage.deleteSession sessionId ls)) = None
  /\ ls_active (snd (sessionStorage.deleteSession sessionId ls)) = ls_active ls.
Proof.
  intros Hls. unfold sessionStorage.deleteSession. rewrite Hls.
  unfold sessionStorage.getSession. cbn [snd set_sessions ls_sessions ls_active].
  split; [apply find_session_filter_out|reflexivity].
Qed.

Lemma clearActiveSession_cleared p ls :
  ls_active ls <> Garbled ->
  sessionStorage.getActiveSession p
    (snd (sessionStorage.clearActiveSession p ls)) = None.
Proof.
  intros Hok. unfold sessionStorage.clearActiveSession.
  destruct (ls_active ls) as [| |m] eqn:Ha; [|congruence|];
    unfold sessionStorage.getActiveSession; cbn [snd set_active ls_active];
    rewrite ?Ha; [reflexivity|].
  now rewrite lookup_delete_eq.
Qed.

Lemma deleteSession_memory projectId sessionId st :
  useAISessions.sessions (snd (useAISessions.deleteSession projectId sessionId st))
  = List.filter (fun s => negb (bool_decide (AISession.id s = sessionId)))
      (useAISessions.sessions st)
  /\ useAISessions.activeSession
       (snd (useAISessions.deleteSession projectId sessionId st))
     = match useAISessions.activeSession st with
       | Some a => if decide (AISession.id a = sessionId) then None else Some a
       | None => None
       end
  /\ useAISessions.storage
       (snd (useAISessions.deleteSession projectId sessionId st))
     = let ls1 :=
         snd (sessionStorage.saveSessions projectId
                (map (useAISessions.view (useAISessions.heap st))
                   (List.filter
                      (fun s => negb (bool_decide (AISession.id s = sessionId)))
                      (useAISessions.sessions st)))
                (useAISessions.storage st)) in
       snd (sessionStorage.deleteSession sessionId
              match useAISessions.activeSession st with
              | Some a =>
                  if decide (AISession.id a = sessionId)
                  then snd (sessionStorage.clearActiveSession projectId ls1)
                  else ls1
              | None => ls1
              end).
Proof.
  unfold useAISessions.deleteSession.
  destruct (useAISessions.activeSession st) as [a|]; [|now repeat split].
  now destruct (decide (AISession.id a = sessionId)).
Qed.

End Delete_facts.

(** X20.  On a stored collection, [deleteSession] of the hook removes the
    session from the list of the hook and from the storage: neither
    [getMessages] nor [sessionStorage.getSession] finds it afterwards; when
    it was the active session there is no active session any more and,
    the pointer item permitting, no stored pointer for the project; when
    another session was active it stays active. *)
Theorem deleteSession_persisted projectId sessionId st allSessions :
  ls_sessions (useAISessions.storage st) = Json allSessions ->
  let st' := snd (useAISessions.deleteSession projectId sessionId st) in
  sessionStorage.getSession sessionId (useAISessions.storage st') = None
  /\ useAISessions.getMessages sessionId st' = []
  /\ (forall a, useAISessions.activeSession st = Some a ->
        AISession.id a = sessionId ->
        useAISessions.activeSession st' = None
        /\ (ls_active (useAISessions.storage st) <> Garbled ->
            sessionStorage.getActiveSession projectId (useAISessions.storage st')
            = None))
  /\ (forall a, useAISessions.activeSession st = Some a ->
        AISession.id a <> sessionId ->
        useAISessions.activeSession st' = Some a).
Proof.
  intros Hls st'. subst st'.
  destruct (deleteSession_memory projectId sessionId st)
    as (Hlist & Hactive & Hstorage).
  destruct (saveSessions_parsed projectId
              (map (useAISessions.view (useAISessions.heap st))
                 (List.filter
                    (fun s => negb (bool_decide (AISession.id s = sessionId)))
                    (useAISessions.sessions st)))
              _ _ Hls) as (all1 & Hls1 & Hact1).
  cbv zeta in Hstorage.
  split; [|split; [|split]].
  - rewrite Hstorage.
    destruct (useAISessions.activeSession st) as [a|];
      [destruct (decide (AISession.id a = sessionId))|].
    + eapply storage_deleteSession_gone.
      rewrite clearActiveSession_sessions. exact Hls1.
    + eapply storage_deleteSession_gone, Hls1.
    + eapply storage_deleteSession_gone, Hls1.
  - unfold useAISessions.getMessages.
    now rewrite Hlist, find_session_filter_out.
  - intros a Ha Hid. rewrite Hactive, Hstorage, Ha, !decide_True by assumption.
    split; [reflexivity|]. intros Hptr.
    destruct (storage_deleteSession_gone sessionId
                (snd (sessionStorage.clearActiveSession projectId
                        (snd (sessionStorage.saveSessions projectId
                                (map (useAISessions.view (useAISessions.heap st))
                                   (List.filter
                                      (fun s => negb (bool_decide
                                                        (AISession.id s = sessionId)))
                                      (useAISessions.sessions st)))
                                (useAISessions.storage st))))) all1)
      as [_ Hsame].
    { rewrite clearActiveSession_sessions. exact Hls1. }
    unfold sessionStorage.getActiveSession in *. rewrite Hsame.
    apply clearActiveSession_cleared. now rewrite Hact1.
  - intros a Ha Hid. now rewrite Hactive, Ha, decide_False by assumption.
Qed.

Lemma deleteSession_persisted_witness :
  ls_sessions (useAISessions.storage created_state)
  = Json [useAISessions.view (useAISessions.heap created_state)
            (createAISession "default" openAI None "ai_session_9" 1000%Z
               "1/1/2025" 0%nat)]
  /\ sessionStorage.getSession "ai_session_9"
       (useAISessions.storage
          (snd (useAISessions.deleteSession "default" "ai_session_9"
                  created_state))) = None.
Proof.
  assert (ls_sessions (useAISessions.storage created_state)
          = Json [useAISessions.view (useAISessions.heap created_state)
                    (createAISession "default" openAI None "ai_session_9"
                       1000%Z "1/1/2025" 0%nat)]) as Hls by reflexivity.
  split; [exact Hls|].
  now destruct (deleteSession_persisted "default" "ai_session_9" created_state
                  _ Hls).
Defined.

(** X21.  Without a remote backend [loadSessions] shows what the storage
    holds and writes nothing: the session list reads as the stored
    sessions of the project; when a pointer is stored for the project, the
    active session reads as the session stored under that id (none, when no
    such session is stored); without a pointer the active session stays. *)
Theorem loadSessions_local_only projectId st :
  let st' := useAISessions.loadSessions projectId useAISessions.Unavailable st in
  map (useAISessions.view (useAISessions.heap st')) (useAISessions.sessions st')
  = sessionStorage.getSessions projectId (useAISessions.storage st)
  /\ useAISessions.storage st' = useAISessions.storage st
  /\ useAISessions.error st' = None
  /\ (forall activeSessionId,
        sessionStorage.getActiveSession projectId (useAISessions.storage st)
        = Some activeSessionId ->
        useAISessions.view (useAISessions.heap st')
          <$> useAISessions.activeSession st'
        = sessionStorage.getSession activeSessionId (useAISessions.storage st))
  /\ (sessionStorage.getActiveSession projectId (useAISessions.storage st) = None ->
      useAISessions.activeSession st' = useAISessions.activeSession st).
Proof.
  intros st'. subst st'. unfold useAISessions.loadSessions.
  destruct (useAISessions.alloc_all _ _) as [localSessions h1] eqn:E1.
  destruct (alloc_all_spec _ _ _ _ E1) as (e1 & -> & Hv1 & Hval1 & _).
  destruct (sessionStorage.getActiveSession projectId (useAISessions.storage st))
    as [i|].
  - destruct (sessionStorage.getSession i (useAISessions.storage st)) as [v|]
      eqn:Eg.
    + destruct (useAISessions.alloc v _) as [a h2] eqn:Ea.
      destruct (alloc_spec _ _ _ _ Ea) as (e2 & -> & Hva & _).
      cbn [useAISessions.heap useAISessions.sessions useAISessions.storage
           useAISessions.error useAISessions.activeSession].
      rewrite map_view_app by assumption.
      split; [assumption|]. split; [reflexivity|]. split; [reflexivity|].
      split; [|discriminate].
      intros ? [= <-]. rewrite Eg. cbn [fmap option_fmap option_map].
      now rewrite Hva.
    + cbn [useAISessions.heap useAISessions.sessions useAISessions.storage
           useAISessions.error useAISessions.activeSession].
      split; [assumption|]. split; [reflexivity|]. split; [reflexivity|].
      split; [|discriminate]. intros ? [= <-]. now rewrite Eg.
  - cbn [useAISessions.heap useAISessions.sessions useAISessions.storage
         useAISessions.error useAISessions.activeSession].
    split; [assumption|]. split; [reflexivity|]. split; [reflexivity|].
    split; [discriminate|reflexivity].
Qed.

Lemma loadSessions_local_only_witness :
  sessionStorage.getActiveSession "default" (useAISessions.storage created_state)
  = Some "ai_session_9"
  /\ useAISessions.view
       (useAISessions.heap
          (useAISessions.loadSessions "default" useAISessions.Unavailable
             created_state))
       <$> useAISessions.activeSession
             (useAISessions.loadSessions "default" useAISessions.Unavailable
                created_state)
     = sessionStorage.getSession "ai_session_9"
         (useAISessions.storage created_state).
Proof.
  assert (sessionStorage.getActiveSession "default"
            (useAISessions.storage created_state) = Some "ai_session_9")
    as Hptr by reflexivity.
  destruct (loadSessions_local_only "default" created_state)
    as (_ & _ & _ & Hactive & _).
  exact (conj Hptr (Hactive "ai_session_9" Hptr)).
Defined.

(** X22.  [createSession] returns the new session, makes it the active
    session and the last entry of the list; it reads as a session of the
    project without messages and with zero totals.  On a storage whose
    items parse or are absent the session is stored behind the others and,
    its id not being empty, the pointer of the project is set to it. *)
Theorem createSession_persisted projectId service title sessionId now
    localeString st :
  let result := useAISessions.createSession projectId service title sessionId
                  now localeString st in
  let st' := snd result in
  exists session,
    fst result = Some session
    /\ useAISessions.activeSession st' = Some session
    /\ useAISessions.sessions st' = useAISessions.sessions st ++ [session]
    /\ useAISessions.view (useAISessions.heap st') session
       = createAISession projectId service title sessionId now localeString
           (new_metadata now)
    /\ (ls_sessions (useAISessions.storage st) <> Garbled ->
        exists front,
          ls_sessions (useAISessions.storage st')
          = Json (front ++ [useAISessions.view (useAISessions.heap st') session]))
    /\ (ls_active (useAISessions.storage st) <> Garbled -> sessionId <> "" ->
        sessionStorage.getActiveSession projectId (useAISessions.storage st')
        = Some sessionId).
Proof.
  intros result st'. subst result st'. unfold useAISessions.createSession.
  cbn [fst snd useAISessions.activeSession useAISessions.sessions
       useAISessions.heap useAISessions.storage].
  eexists. split; [reflexivity|]. split; [reflexivity|]. split; [reflexivity|].
  assert (useAISessions.view
            (useAISessions.heap st ++ [new_metadata now])
            (createAISession projectId service title sessionId now localeString
               (length (useAISessions.heap st)))
          = createAISession projectId service title sessionId now localeString
              (new_metadata now)) as Hview.
  { unfold useAISessions.view, createAISession. cbn [AISession.metadata].
    rewrite lookup_app_r by lia. rewrite Nat.sub_diag. reflexivity. }
  split; [exact Hview|]. split.
  - intros Hok. rewrite setActiveSession_sessions.
    unfold sessionStorage.saveSessions.
    destruct (ls_sessions (useAISessions.storage st)) as [| |allSessions];
      [|congruence|]; cbn [snd set_sessions ls_sessions]; rewrite map_app;
      cbn [map]; rewrite ?app_assoc; eexists; reflexivity.
  - intros Hok Hid.
    set (ls1 := snd (sessionStorage.saveSessions projectId _ _)).
    assert (ls_active ls1 = ls_active (useAISessions.storage st)) as Hact.
    { subst ls1. unfold sessionStorage.saveSessions.
      now destruct (ls_sessions (useAISessions.storage st)). }
    unfold sessionStorage.setActiveSession, sessionStorage.getActiveSession.
    rewrite Hact. cbn [AISession.id createAISession].
    destruct (ls_active (useAISessions.storage st)) as [| |m]; [|congruence|];
      cbn [snd set_active ls_active]; rewrite lookup_insert_eq;
      now rewrite decide_False.
Qed.

Lemma createSession_persisted_witness :
  exists session,
    useAISessions.activeSession created_state = Some session
    /\ sessionStorage.getActiveSession "default"
         (useAISessions.storage created_state) = Some "ai_session_9".
Proof.
  destruct (createSession_persisted "default" openAI None "ai_session_9" 1000%Z
              "1/1/2025" (useAISessions.initial empty_storage))
    as (session & _ & Hactive & _ & _ & _ & Hptr).
  exists session. split; [exact Hactive|].
  apply Hptr; discriminate.
Defined.

(** ** The credential transform on foreign text *)

Section Decrypt_facts.
Import Base64.

Lemma indices_outside d c :
  In c d -> b64_index c = None -> indices d = None.
Proof.
  induction d as [|x d IH]; intros Hin Hc; [destruct Hin|]. simpl.
  destruct Hin as [->|Hin]; [now rewrite Hc|].
  rewrite (IH Hin Hc). now destruct (b64_index x).
Qed.

Lemma strip_match_keeps (d rd : list N) c :
  In c d -> In c rd -> c <> 61 ->
  In c match rd with
       | 61 :: 61 :: r => rev r
       | 61 :: r => rev r
       | _ => d
       end.
Proof.
  intros Hd Hin Hc.
  destruct rd as [|y rest]; [exact Hd|].
  destruct (N.eq_dec y 61) as [->|Hy].
  - destruct Hin as [<-|Hin]; [congruence|].
    assert (In c (rev rest)) as Hrest by now apply in_rev in Hin.
    destruct rest as [|z r]; [exact Hrest|].
    destruct (N.eq_dec z 61) as [->|Hz].
    + destruct Hin as [<-|Hin]; [congruence|]. now apply in_rev in Hin.
    + destruct z as [|p]; [exact Hrest|].
      repeat (destruct p as [p|p|]; try exact Hrest). congruence.
  - destruct y as [|p]; [exact Hd|].
    repeat (destruct p as [p|p|]; try exact Hd). congruence.
Qed.

Lemma strip_padding_keeps d c :
  In c d -> c <> pad_char -> In c (strip_padding d).
Proof.
  intros Hin Hc. unfold strip_padding.
  destruct (length d mod 4 =? 0)%nat; [|assumption].
  apply strip_match_keeps; [assumption| |exact Hc]. now apply in_rev in Hin.
Qed.

End Decrypt_facts.

(** X23.  [decryptApiKey] never throws, and on a text that holds a
    character which is neither of the base64 alphabet, nor whitespace, nor
    the padding character, it gives the empty string: a key stored by
    something else than [encryptApiKey] loads as no key. *)
Theorem decryptApiKey_foreign_text encryptedKey c :
  In c encryptedKey ->
  Base64.b64_index c = None ->
  Base64.is_ascii_whitespace c = false ->
  c <> Base64.pad_char ->
  Credentials.decryptApiKey encryptedKey = [].
Proof.
  intros Hin Hout Hws Hpad. unfold Credentials.decryptApiKey.
  destruct encryptedKey as [|x r]; [reflexivity|].
  assert (Base64.atob (rev (x :: r)) = None) as ->; [|reflexivity].
  unfold Base64.atob.
  set (d := Base64.strip_padding _).
  destruct (length d mod 4 =? 1)%nat; [reflexivity|].
  assert (In c d) as Hd.
  { subst d. apply strip_padding_keeps; [|assumption].
    apply filter_In. split; [now apply in_rev in Hin|]. now rewrite Hws. }
  now rewrite (indices_outside d c Hd Hout).
Qed.

Lemma decryptApiKey_foreign_text_witness :
  In 45 [115; 107; 45; 49]
  /\ Base64.b64_index 45 = None
  /\ Base64.is_ascii_whitespace 45 = false
  /\ 45 <> Base64.pad_char
  /\ Credentials.decryptApiKey [115; 107; 45; 49] = [].
Proof.
  assert (In 45 [115; 107; 45; 49]) as Hin by (right; right; left; reflexivity).
  assert (45 <> Base64.pad_char) as Hpad by discriminate.
  exact (conj Hin (conj eq_refl (conj eq_refl (conj Hpad
           (decryptApiKey_foreign_text [115; 107; 45; 49] 45 Hin eq_refl eq_refl
              Hpad))))).
Defined.

(** ** useSettings: reset *)

(** X24.  [resetSettings] resolves in every state: the default keys are
    empty, so no key can make the encryption throw.  Afterwards the
    settings in memory are the defaults, no error is set, the document
    root follows the default theme, and a later [loadSettings] (no
    backend) reads the defaults back from the storage, whatever was stored
    or shown before. *)
Theorem resetSettings_then_loadSettings prefersDark prefersDark' thrown st :
  exists st',
    useSettingsSave.resetSettings prefersDark thrown st = (true, st')
    /\ useSettings.settings st' = settings.DEFAULT_SETTINGS
    /\ useSettings.error st' = None
    /\ useSettings.darkClass st' = prefersDark
    /\ ls_sessions (useSettings.storage st') = ls_sessions (useSettings.storage st)
    /\ useSettings.settings
         (useSettings.loadSettings useSettings.Unavailable prefersDark' st')
       = settings.DEFAULT_SETTINGS.
Proof.
  assert (keys_latin1 settings.DEFAULT_SETTINGS) as Hkeys
    by (intros []; constructor).
  unfold useSettingsSave.resetSettings.
  destruct (saveSettings_loadSettings _ prefersDark prefersDark'
              (useSettingsSave.with_error st None) Hkeys)
    as (st1 & Hsave & _ & _ & Hload).
  rewrite Hsave. eexists. split; [reflexivity|]. split; [reflexivity|].
  unfold useSettingsSave.saveSettings in Hsave.
  destruct (useSettingsSave.encryptSettings _); [|discriminate].
  injection Hsave as <-.
  split; [reflexivity|]. split; [reflexivity|]. split; [reflexivity|].
  now apply Hload.
Qed.

(** ** useAISessions: switching and renaming *)

Section Rename_facts.
Import useAISessions.

Lemma updateSession_found sessionId updates now ls :
  fst (sessionStorage.updateSession sessionId updates now ls) = true ->
  exists allSessions i session,
    ls_sessions ls = Json allSessions
    /\ findIndex sessionId allSessions = Some i
    /\ allSessions !! i = Some session
    /\ AISession.id session = sessionId
    /\ snd (sessionStorage.updateSession sessionId updates now ls)
       = set_sessions ls
           (Json (<[i := AISession.with_updates session updates now]> allSessions)).
Proof.
  unfold sessionStorage.updateSession.
  destruct (ls_sessions ls) as [| |allSessions]; [discriminate ..|].
  destruct (findIndex sessionId allSessions) as [i|] eqn:Hi; [|discriminate].
  destruct (findIndex_Some _ _ _ Hi) as (s & Hl & _ & Hid). rewrite Hl.
  intros _. now exists allSessions, i, s.
Qed.

Lemma updateSession_failed sessionId updates now ls :
  fst (sessionStorage.updateSession sessionId updates now ls) = false ->
  snd (sessionStorage.updateSession sessionId updates now ls) = ls.
Proof.
  unfold sessionStorage.updateSession.
  destruct (ls_sessions ls) as [| |allSessions]; [reflexivity ..|].
  destruct (findIndex sessionId allSessions) as [i|]; [|reflexivity].
  destruct (allSessions !! i); [discriminate|reflexivity].
Qed.

Lemma find_session_retitled sessionId title other (l : list SessionObj) :
  find_session other
    (map (fun session =>
            if decide (AISession.id session = sessionId)
            then AISession.with_title session title else session) l)
  = (fun session =>
       if decide (AISession.id session = sessionId)
       then AISession.with_title session title else session)
    <$> find_session other l.
Proof.
  apply find_session_map. intros s.
  now destruct (decide (AISession.id s = sessionId)).
Qed.

End Rename_facts.

(** X25.  [switchSession] to a session of the list returns true, makes
    that entry the active session and changes neither the list nor the
    stored sessions; when the pointer item is absent or parses and the id
    is not empty, the stored pointer of the project is set to the id and
    the pointers of the other projects stay. *)
Theorem switchSession_persisted projectId sessionId st session :
  find_session sessionId (useAISessions.sessions st) = Some session ->
  exists st',
    useAISessions.switchSession projectId sessionId st = (true, st')
    /\ useAISessions.activeSession st' = Some session
    /\ AISession.id session = sessionId
    /\ In session (useAISessions.sessions st')
    /\ useAISessions.sessions st' = useAISessions.sessions st
    /\ useAISessions.heap st' = useAISessions.heap st
    /\ useAISessions.error st' = None
    /\ ls_sessions (useAISessions.storage st')
       = ls_sessions (useAISessions.storage st)
    /\ (ls_active (useAISessions.storage st) <> Garbled -> sessionId <> "" ->
        sessionStorage.getActiveSession projectId (useAISessions.storage st')
        = Some sessionId
        /\ forall q, q <> projectId ->
             sessionStorage.getActiveSession q (useAISessions.storage st')
             = sessionStorage.getActiveSession q (useAISessions.storage st)).
Proof.
  intros Hfind. unfold useAISessions.switchSession. rewrite Hfind.
  eexists. split; [reflexivity|].
  cbn [useAISessions.activeSession useAISessions.sessions useAISessions.heap
       useAISessions.error useAISessions.storage].
  split; [reflexivity|]. split; [eapply find_session_id, Hfind|].
  split; [eapply find_session_In, Hfind|].
  split; [reflexivity|]. split; [reflexivity|]. split; [reflexivity|].
  split; [apply setActiveSession_sessions|].
  intros Hok Hid.
  unfold sessionStorage.setActiveSession, sessionStorage.getActiveSession.
  destruct (ls_active (useAISessions.storage st)) as [| |m] eqn:Ha;
    [|congruence|]; cbn [snd set_active ls_active]; rewrite lookup_insert_eq;
    rewrite decide_False by assumption; (split; [reflexivity|]);
    intros q Hq; rewrite lookup_insert_ne by congruence; [|reflexivity].
  now rewrite lookup_empty.
Qed.

Lemma switchSession_persisted_witness :
  find_session "ai_session_9" (useAISessions.sessions created_state)
  = Some (createAISession "default" openAI None "ai_session_9" 1000%Z
            "1/1/2025" 0%nat)
  /\ exists st',
       useAISessions.switchSession "default" "ai_session_9" created_state
       = (true, st')
       /\ useAISessions.activeSession st'
          = Some (createAISession "default" openAI None "ai_session_9" 1000%Z
                    "1/1/2025" 0%nat).
Proof.
  split; [reflexivity|].
  destruct (switchSession_persisted "default" "ai_session_9" created_state
              (createAISession "default" openAI None "ai_session_9" 1000%Z
                 "1/1/2025" 0%nat) eq_refl) as (st' & Hsw & Hact & _).
  exists st'. split; [exact Hsw|exact Hact].
Defined.

(** X26.  A successful [updateSessionTitle] gives the new title to every
    entry of the list with the id, to the active session when it has the
    id, and to the stored session; it keeps the ids and their order, the
    messages that [getMessages] returns for every id, and the metadata
    objects.  A failed one sets the error and changes neither the list,
    nor the active session, nor the storage. *)
Theorem updateSessionTitle_renames sessionId title now st :
  let st' := snd (useAISessions.updateSessionTitle sessionId title now st) in
  (fst (useAISessions.updateSessionTitle sessionId title now st) = true ->
   (forall s, In s (useAISessions.sessions st') ->
      AISession.id s = sessionId -> AISession.title s = title)
   /\ (forall a, useAISessions.activeSession st' = Some a ->
         AISession.id a = sessionId -> AISession.title a = title)
   /\ map AISession.id (useAISessions.sessions st')
      = map AISession.id (useAISessions.sessions st)
   /\ (forall other,
         useAISessions.getMessages other st' = useAISessions.getMessages other st)
   /\ useAISessions.heap st' = useAISessions.heap st
   /\ exists stored,
        sessionStorage.getSession sessionId (useAISessions.storage st')
        = Some stored
        /\ AISession.title stored = title
        /\ AISession.updatedAt stored = now)
  /\ (fst (useAISessions.updateSessionTitle sessionId title now st) = false ->
      useAISessions.sessions st' = useAISessions.sessions st
      /\ useAISessions.activeSession st' = useAISessions.activeSession st
      /\ useAISessions.storage st' = useAISessions.storage st
      /\ useAISessions.error st' = Some "Failed to update session title").
Proof.
  intros st'. subst st'. unfold useAISessions.updateSessionTitle.
  pose proof (updateSession_found sessionId (AISession.only_title title) now
                (useAISessions.storage st)) as Hfound.
  pose proof (updateSession_failed sessionId (AISession.only_title title) now
                (useAISessions.storage st)) as Hfailed.
  destruct (sessionStorage.updateSession sessionId (AISession.only_title title)
              now (useAISessions.storage st)) as [[|] ls1];
    cbn [negb fst snd useAISessions.sessions useAISessions.activeSession
         useAISessions.heap useAISessions.storage useAISessions.error] in *.
  - split; [intros _|discriminate].
    split; [|split; [|split; [|split; [|split; [reflexivity|]]]]].
    + intros s Hin Hid. apply in_map_iff in Hin as (s0 & <- & _).
      destruct (decide (AISession.id s0 = sessionId)) as [E|NE];
        [reflexivity|]. now destruct NE.
    + intros a Ha Hid. destruct (useAISessions.activeSession st) as [prev|];
        [|discriminate].
      destruct (decide (AISession.id prev = sessionId)) as [E|NE];
        injection Ha as <-; [reflexivity|]. now destruct NE.
    + rewrite map_map. apply map_ext. intros s.
      now destruct (decide (AISession.id s = sessionId)).
    + intros other. unfold useAISessions.getMessages.
      cbn [useAISessions.sessions]. rewrite find_session_retitled.
      destruct (find_session other (useAISessions.sessions st)) as [s|];
        [|reflexivity].
      cbn [fmap option_fmap option_map].
      now destruct (decide (AISession.id s = sessionId)).
    + destruct (Hfound eq_refl) as (allSessions & i & session & Hls & Hi & Hl
                                    & Hid & ->).
      unfold sessionStorage.getSession. cbn [set_sessions ls_sessions].
      assert (AISession.id
                (AISession.with_updates session (AISession.only_title title) now)
              = sessionId) as Hid' by exact Hid.
      destruct (find_session_insert sessionId allSessions i _ Hi Hid')
        as [-> _].
      eexists. split; [reflexivity|]. split; reflexivity.
  - split; [discriminate|intros _].
    rewrite (Hfailed eq_refl). now repeat split.
Qed.

Lemma updateSessionTitle_renames_witness :
  fst (useAISessions.updateSessionTitle "ai_session_9" "renamed" 2000%Z
         created_state) = true
  /\ forall s,
       In s (useAISessions.sessions
               (snd (useAISessions.updateSessionTitle "ai_session_9" "renamed"
                       2000%Z created_state))) ->
       AISession.id s = "ai_session_9" -> AISession.title s = "renamed".
Proof.
  assert (fst (useAISessions.updateSessionTitle "ai_session_9" "renamed" 2000%Z
                 created_state) = true) as Hok by reflexivity.
  destruct (updateSessionTitle_renames "ai_session_9" "renamed" 2000%Z
              created_state) as [Hsucc _].
  destruct (Hsucc Hok) as (Htitle & _).
  exact (conj Hok Htitle).
Defined.

(** ** useAI: the service that follows the settings *)

Section Follow_facts.

Lemma availableServices_configured s service :
  In service (useAI.availableServices s) ->
  useAI.isConfigured service s = true.
Proof.
  unfold useAI.availableServices, useAI.isConfigured. intros Hin.
  apply filter_In in Hin as [_ Hok].
  apply andb_true_iff in Hok as [He Hk].
  destruct service; rewrite ?He, ?Hk; reflexivity.
Qed.

End Follow_facts.

(** X27.  The effect of [useAI] that follows the settings only ever
    selects a vendor that is available, hence one whose client is
    configured: the default vendor when it is available, else the first
    available one in the order of the keys of [aiServices] (aider,
    claudeCode, openRouter, openAI, as DEFAULT_SETTINGS has them); it
    selects nothing exactly when no vendor is available. *)
Theorem followed_service_available s :
  (forall service, useAI.followed_service s = Some service ->
     In service (useAI.availableServices s)
     /\ useAI.isConfigured service s = true)
  /\ (useAI.followed_service s = None <-> useAI.availableServices s = [])
  /\ (forall service, useAI.followed_service s = Some service ->
        service <> settings.defaultAIService s ->
        ~ In (settings.defaultAIService s) (useAI.availableServices s)
        /\ head (useAI.availableServices s) = Some service).
Proof.
  unfold useAI.followed_service.
  destruct (bool_decide_reflect
              (settings.defaultAIService s ∈ useAI.availableServices s))
    as [Hin|Hout].
  - apply list_elem_of_In in Hin. split; [|split].
    + intros service [= <-]. split; [exact Hin|].
      now apply availableServices_configured.
    + split; [discriminate|]. intros E. rewrite E in Hin. destruct Hin.
    + intros service [= <-] Hne. now destruct Hne.
  - assert (~ In (settings.defaultAIService s) (useAI.availableServices s))
      as Hout' by (intros H; apply Hout, list_elem_of_In, H).
    destruct (useAI.availableServices s) as [|first rest] eqn:E.
    + split; [discriminate|]. split; [now split|discriminate].
    + split; [|split].
      * intros service [= <-].
        assert (In first (useAI.availableServices s)) as Hfirst
          by (rewrite E; now left).
        split; [now left|]. now apply availableServices_configured.
      * split; discriminate.
      * intros service [= <-] _. split; [exact Hout'|reflexivity].
Qed.

Lemma followed_service_available_witness :
  useAI.followed_service
    (settings.spread settings.DEFAULT_SETTINGS (key_update [115; 107; 45; 49]))
  = Some openAI
  /\ useAI.isConfigured openAI
       (settings.spread settings.DEFAULT_SETTINGS (key_update [115; 107; 45; 49]))
     = true.
Proof.
  assert (useAI.followed_service
            (settings.spread settings.DEFAULT_SETTINGS
               (key_update [115; 107; 45; 49])) = Some openAI) as Hf
    by reflexivity.
  destruct (followed_service_available
              (settings.spread settings.DEFAULT_SETTINGS
                 (key_update [115; 107; 45; 49]))) as [Hsel _].
  destruct (Hsel openAI Hf) as [_ Hconf].
  exact (conj Hf Hconf).
Defined.

(** ** useAISessions: a merge survives a reload *)

Section Reload_facts.
Variable projectId : string.

Lemma loadSessions_ok_view backendSessions st :
  map (useAISessions.view
         (useAISessions.heap
            (useAISessions.loadSessions projectId
               (useAISessions.Ok backendSessions) st)))
    (useAISessions.sessions
       (useAISessions.loadSessions projectId
          (useAISessions.Ok backendSessions) st))
  = union_remote_first backendSessions
      (sessionStorage.getSessions projectId (useAISessions.storage st))
  /\ useAISessions.storage
       (useAISessions.loadSessions projectId
          (useAISessions.Ok backendSessions) st)
     = snd (sessionStorage.saveSessions projectId
              (union_remote_first backendSessions
                 (sessionStorage.getSessions projectId (useAISessions.storage st)))
              (useAISessions.storage st)).
Proof.
  unfold useAISessions.loadSessions.
  set (ls := useAISessions.storage st).
  destruct (useAISessions.alloc_all (sessionStorage.getSessions projectId ls)
              (useAISessions.heap st)) as [localSessions h1] eqn:E1.
  destruct (alloc_all_spec _ _ _ _ E1) as (e1 & -> & Hv1 & Hval1 & _).
  set (act := match sessionStorage.getActiveSession projectId ls with
              | Some activeSessionId => _
              | None => _
              end).
  assert (exists e2, snd act = (useAISessions.heap st ++ e1) ++ e2)
    as [e2 He2].
  { subst act. destruct (sessionStorage.getActiveSession projectId ls) as [i|];
      [|exists []; now rewrite app_nil_r].
    destruct (sessionStorage.getSession i ls) as [v|];
      [|exists []; now rewrite app_nil_r].
    destruct (useAISessions.alloc v (useAISessions.heap st ++ e1))
      as [a h] eqn:Ea.
    destruct (alloc_spec _ _ _ _ Ea) as (e & -> & _). now exists e. }
  destruct act as [active1 h2]. simpl in He2. subst h2.
  destruct (useAISessions.alloc_all backendSessions
              ((useAISessions.heap st ++ e1) ++ e2)) as [backendObjs h3] eqn:E3.
  destruct (alloc_all_spec _ _ _ _ E3) as (e3 & -> & Hv3 & Hval3 & Hid3).
  cbn [useAISessions.heap useAISessions.sessions useAISessions.storage].
  assert (map (useAISessions.view
                 (((useAISessions.heap st ++ e1) ++ e2) ++ e3))
            (backendObjs
             ++ List.filter
                  (fun localSession =>
                     negb (bool_decide
                             (is_Some (find_session (AISession.id localSession)
                                         backendObjs))))
                  localSessions)
          = union_remote_first backendSessions
              (sessionStorage.getSessions projectId ls)) as Hm.
  { unfold union_remote_first. rewrite map_app, Hv3. f_equal.
    rewrite (filter_local_view _ backendObjs localSessions backendSessions Hid3).
    f_equal. rewrite <- app_assoc, map_view_app by assumption. exact Hv1. }
  split; [exact Hm|]. now rewrite Hm.
Qed.

Lemma loadSessions_unavailable_view st :
  map (useAISessions.view
         (useAISessions.heap
            (useAISessions.loadSessions projectId useAISessions.Unavailable st)))
    (useAISessions.sessions
       (useAISessions.loadSessions projectId useAISessions.Unavailable st))
  = sessionStorage.getSessions projectId (useAISessions.storage st).
Proof.
  unfold useAISessions.loadSessions.
  destruct (useAISessions.alloc_all _ _) as [localSessions h1] eqn:E1.
  destruct (alloc_all_spec _ _ _ _ E1) as (e1 & -> & Hv1 & Hval1 & _).
  destruct (sessionStorage.getActiveSession projectId (useAISessions.storage st))
    as [i|]; [|exact Hv1].
  destruct (sessionStorage.getSession i (useAISessions.storage st)) as [v|];
    [|exact Hv1].
  destruct (useAISessions.alloc v _) as [a h2] eqn:Ea.
  destruct (alloc_spec _ _ _ _ Ea) as (e2 & -> & _).
  cbn [useAISessions.heap useAISessions.sessions].
  now rewrite map_view_app.
Qed.

Lemma getSessions_of_project ls :
  Forall (fun s => AISession.projectId s = projectId)
    (sessionStorage.getSessions projectId ls).
Proof.
  unfold sessionStorage.getSessions.
  destruct (ls_sessions ls) as [| |allSessions]; [constructor ..|].
  apply Forall_forall. intros s Hs.
  apply list_elem_of_In, filter_In in Hs as [_ Hs].
  now apply bool_decide_eq_true in Hs.
Qed.

Lemma getSessions_saveSessions ss ls :
  ls_sessions ls <> Garbled ->
  Forall (fun s => AISession.projectId s = projectId) ss ->
  sessionStorage.getSessions projectId
    (snd (sessionStorage.saveSessions projectId ss ls)) = ss.
Proof.
  intros Hok Hss. unfold sessionStorage.saveSessions.
  destruct (ls_sessions ls) as [| |allSessions]; [|congruence|];
    unfold sessionStorage.getSessions; cbn [snd set_sessions ls_sessions];
    rewrite List.filter_app, (filter_all_of_project _ _ Hss).
  - reflexivity.
  - now rewrite filter_same_project.
Qed.

End Reload_facts.

(** X28.  What a merge shows survives a reload: when the sessions item is
    absent or parses and the remote sessions are sessions of the project,
    a [loadSessions] without backend that follows a [loadSessions] with
    backend shows the same session list, the remote sessions followed by
    the local-only ones, read from the storage alone. *)
Theorem loadSessions_merge_then_offline projectId backendSessions st :
  ls_sessions (useAISessions.storage st) <> Garbled ->
  Forall (fun s => AISession.projectId s = projectId) backendSessions ->
  let st1 := useAISessions.loadSessions projectId
               (useAISessions.Ok backendSessions) st in
  let st2 := useAISessions.loadSessions projectId useAISessions.Unavailable st1 in
  map (useAISessions.view (useAISessions.heap st2)) (useAISessions.sessions st2)
  = map (useAISessions.view (useAISessions.heap st1)) (useAISessions.sessions st1)
  /\ map (useAISessions.view (useAISessions.heap st2)) (useAISessions.sessions st2)
     = union_remote_first backendSessions
         (sessionStorage.getSessions projectId (useAISessions.storage st))
  /\ useAISessions.storage st2 = useAISessions.storage st1.
Proof.
  intros Hok Hremote st1 st2. subst st1 st2.
  destruct (loadSessions_ok_view projectId backendSessions st) as [Hview Hsave].
  rewrite loadSessions_unavailable_view, Hview, Hsave.
  assert (Forall (fun s => AISession.projectId s = projectId)
            (union_remote_first backendSessions
               (sessionStorage.getSessions projectId (useAISessions.storage st))))
    as Hall.
  { unfold union_remote_first. apply Forall_app. split; [exact Hremote|].
    apply Forall_forall. intros s Hs.
    apply list_elem_of_In, filter_In in Hs as [Hs _].
    pose proof (getSessions_of_project projectId (useAISessions.storage st))
      as Hlocal.
    rewrite Forall_forall in Hlocal. now apply Hlocal, list_elem_of_In. }
  rewrite (getSessions_saveSessions projectId _ _ Hok Hall).
  split; [reflexivity|]. split; [reflexivity|].
  unfold useAISessions.loadSessions at 1.
  destruct (useAISessions.alloc_all _ _) as [localSessions h1].
  destruct (match sessionStorage.getActiveSession projectId _ with
            | Some _ => _ | None => _ end) as [active1 h2].
  cbn [useAISessions.storage]. exact Hsave.
Qed.

Lemma loadSessions_merge_then_offline_witness :
  ls_sessions (useAISessions.storage (useAISessions.initial sample_storage))
  <> Garbled
  /\ Forall (fun s => AISession.projectId s = "default") [remote_only]
  /\ map (useAISessions.view
            (useAISessions.heap
               (useAISessions.loadSessions "default" useAISessions.Unavailable
                  (useAISessions.loadSessions "default"
                     (useAISessions.Ok [remote_only])
                     (useAISessions.initial sample_storage)))))
       (useAISessions.sessions
          (useAISessions.loadSessions "default" useAISessions.Unavailable
             (useAISessions.loadSessions "default"
                (useAISessions.Ok [remote_only])
                (useAISessions.initial sample_storage))))
     = union_remote_first [remote_only]
         (sessionStorage.getSessions "default"
            (useAISessions.storage (useAISessions.initial sample_storage))).
Proof.
  assert (ls_sessions (useAISessions.storage (useAISessions.initial sample_storage))
          <> Garbled) as Hok by discriminate.
  assert (Forall (fun s => AISession.projectId s = "default") [remote_only])
    as Hremote by (repeat constructor).
  destruct (loadSessions_merge_then_offline "default" [remote_only]
              (useAISessions.initial sample_storage) Hok Hremote)
    as (_ & Hmerged & _).
  exact (conj Hok (conj Hremote Hmerged)).
Defined.
